(** * spotify_mcp: the format-tiered object normalizer and its callers

    A shallow embedding of
      - [spotify_mcp/models/models.py]   (enumerations and pydantic schemas),
      - [spotify_mcp/services/spotify_service.py] ([_parse_object] and the
        type-specific builders, [search_music], [get_track_audio_features]),
      - [spotify_mcp/dependencies.py] ([get_access_token]),
      - [spotify_mcp/tools/analysis.py], [spotify_mcp/tools/library.py]
        (parameter validation of the tools),
      - [spotify_mcp/auth/spotify_auth.py] (bearer tokens and their
        validation), the listings and the playback and playlist operations
        of the service, and the tools of [spotify_mcp/tools/playback.py],
        [spotify_mcp/tools/playlists.py] and [spotify_mcp/tools/search.py].

    Python values are a first-order datatype, exceptions are an error monad,
    and the calls made to the upstream client are recorded in a trace. *)

From Stdlib Require Import ZArith List String Ascii Bool Lia DecimalString.
Import ListNotations.
Open Scope string_scope.
Open Scope bool_scope.

Set Implicit Arguments.
Set Warnings "-register-all".
Set Warnings "-automation".


(* ------------------------------------------------------------------ *)
(** ** Python values *)

(** JSON payloads as Python sees them, plus pydantic model instances.
    A dictionary keeps its insertion order; lookup finds the first binding
    of a key.  A float is its IEEE-754 bit pattern.  A model instance
    carries its class name, the value of every field and the names of the
    fields that were given to the constructor (pydantic's
    [model_fields_set]); instances are built by the service and do not
    occur in upstream payloads. *)
Inductive pyval : Type :=
| PNone
| PBool (b : bool)
| PInt (z : Z)
| PFloat (bits : Z)
| PStr (s : string)
| PList (l : list pyval)
| PDict (d : list (string * pyval))
| PModel (cls : string) (fields : list (string * pyval)) (fields_set : list string).

Definition dict := list (string * pyval).

(** Exceptions.  [Wrapped p e] is [Exception(f"{p}: {str(e)}")] and the
    detail of an [HTTPException] is [prefix], followed by [str(cause)] when
    there is a cause. *)
Inductive exn : Type :=
| KeyError (key : string)
| TypeError
| AttributeError
| ValidationError (cls : string)
| ValueError (msg : string)
| InvalidEnumValue (cls : string) (value : string)
| UpstreamError (msg : string)
| Wrapped (prefix : string) (cause : exn)
| HTTPException (status : Z) (prefix : string) (cause : option exn).

(** [except ValueError]: the enum lookup failure and pydantic's
    [ValidationError] are both subclasses of [ValueError]. *)
Definition is_ValueError (e : exn) : bool :=
  match e with
  | ValueError _ | InvalidEnumValue _ _ | ValidationError _ => true
  | _ => false
  end.

Inductive result (A : Type) : Type :=
| Ok (a : A)
| Raise (e : exn).
Arguments Ok {A} a.
Arguments Raise {A} e.

Definition bind {A B} (m : result A) (k : A -> result B) : result B :=
  match m with
  | Ok a => k a
  | Raise e => Raise e
  end.

Notation "x <- m ;; k" := (bind m (fun x => k))
  (at level 61, m at next level, right associativity).

(** [try: m  except Exception as e: h e] *)
Definition try_except {A} (m : result A) (h : exn -> result A) : result A :=
  match m with
  | Ok a => Ok a
  | Raise e => h e
  end.

Fixpoint mapM {A B} (f : A -> result B) (l : list A) : result (list B) :=
  match l with
  | [] => Ok []
  | x :: r => y <- f x ;; ys <- mapM f r ;; Ok (y :: ys)
  end.

(* ------------------------------------------------------------------ *)
(** ** Dictionaries and the Python operations the parser uses *)

Fixpoint dict_get (d : dict) (k : string) : option pyval :=
  match d with
  | [] => None
  | (k', v) :: r => if String.eqb k' k then Some v else dict_get r k
  end.

Definition keys (d : dict) : list string := map fst d.

Fixpoint dict_set (d : dict) (k : string) (v : pyval) : dict :=
  match d with
  | [] => [(k, v)]
  | (k', v') :: r =>
      if String.eqb k' k then (k', v) :: r else (k', v') :: dict_set r k v
  end.

(** [d.update(u)] *)
Definition dict_update (d u : dict) : dict :=
  fold_left (fun acc kv => dict_set acc (fst kv) (snd kv)) u d.

(** [obj[k]] for a string key. *)
Definition subscript (obj : pyval) (k : string) : result pyval :=
  match obj with
  | PDict d => match dict_get d k with
               | Some v => Ok v
               | None => Raise (KeyError k)
               end
  | _ => Raise TypeError
  end.

(** [obj.get(k, default)] *)
Definition get_default (obj : pyval) (k : string) (default : pyval) : result pyval :=
  match obj with
  | PDict d => match dict_get d k with
               | Some v => Ok v
               | None => Ok default
               end
  | _ => Raise AttributeError
  end.

(** [obj.get(k)] *)
Definition get (obj : pyval) (k : string) : result pyval :=
  get_default obj k PNone.

(** Truth value of an object, as tested by [if x:]. *)
Definition truthy (v : pyval) : bool :=
  match v with
  | PNone => false
  | PBool b => b
  | PInt z => negb (Z.eqb z 0)
  | PFloat bits => negb (Z.eqb (Z.land bits (Z.ones 63)) 0)
  | PStr s => negb (String.eqb s "")
  | PList l => match l with [] => false | _ => true end
  | PDict d => match d with [] => false | _ => true end
  | PModel _ _ _ => true
  end.

Fixpoint chars (s : string) : list pyval :=
  match s with
  | EmptyString => []
  | String c r => PStr (String c EmptyString) :: chars r
  end.

(** [for x in v]: the elements a comprehension ranges over. *)
Definition iterate (v : pyval) : result (list pyval) :=
  match v with
  | PList l => Ok l
  | PDict d => Ok (map PStr (keys d))
  | PStr s => Ok (chars s)
  | _ => Raise TypeError
  end.

(* ------------------------------------------------------------------ *)
(** ** Strings *)

Definition lower_ascii (c : ascii) : ascii :=
  let n := nat_of_ascii c in
  if (65 <=? n)%nat && (n <=? 90)%nat then ascii_of_nat (n + 32) else c.

(** [str.lower()] on the ASCII range; other bytes are left as they are. *)
Fixpoint lower (s : string) : string :=
  match s with
  | EmptyString => EmptyString
  | String c r => String (lower_ascii c) (lower r)
  end.

(* ------------------------------------------------------------------ *)
(** ** Enumerations (models.py) *)

(** A [StrEnum]: its members in definition order and the value of each. *)
Class StrEnum (E : Type) : Type := {
  enum_name : string;
  members : list E;
  value : E -> string
}.

(** [CaseInsensitiveStrEnum._missing_] *)
Definition _missing_ {E} `{StrEnum E} (v : string) : option E :=
  find (fun member => String.eqb (lower (value member)) (lower v)) members.

(** [cls(v)]: lookup by value, then [_missing_]; [None] from [_missing_]
    makes the enum machinery raise [ValueError]. *)
Definition enum_call {E} `{StrEnum E} (v : string) : result E :=
  match find (fun member => String.eqb (value member) v) members with
  | Some m => Ok m
  | None =>
      match _missing_ v with
      | Some m => Ok m
      | None => Raise (InvalidEnumValue enum_name v)
      end
  end.

Inductive DataFormat : Type := MINIMAL | COMPACT | FULL | RAW.

#[export] Instance DataFormat_enum : StrEnum DataFormat := {
  enum_name := "DataFormat";
  members := [MINIMAL; COMPACT; FULL; RAW];
  value := fun f => match f with
                    | MINIMAL => "minimal"
                    | COMPACT => "compact"
                    | FULL => "full"
                    | RAW => "raw"
                    end
}.

Inductive SpotifyObjectType : Type :=
  TRACK | ARTIST | ALBUM | PLAYLIST | SHOW | EPISODE | USER.

#[export] Instance SpotifyObjectType_enum : StrEnum SpotifyObjectType := {
  enum_name := "SpotifyObjectType";
  members := [TRACK; ARTIST; ALBUM; PLAYLIST; SHOW; EPISODE; USER];
  value := fun t => match t with
                    | TRACK => "track"
                    | ARTIST => "artist"
                    | ALBUM => "album"
                    | PLAYLIST => "playlist"
                    | SHOW => "show"
                    | EPISODE => "episode"
                    | USER => "user"
                    end
}.

Definition DataFormat_eqb (a b : DataFormat) : bool :=
  match a, b with
  | MINIMAL, MINIMAL | COMPACT, COMPACT | FULL, FULL | RAW, RAW => true
  | _, _ => false
  end.

(** [DataFormat(format.lower())], as every tool resolves its [format]
    argument. *)
Definition resolve_format (format : string) : result DataFormat :=
  enum_call (lower format).

(** The tier a name stands for, as the specification's lookup table has
    it; used to state what [enum_call] computes. *)
Definition tier_of_name (s : string) : option DataFormat :=
  if String.eqb s "minimal" then Some MINIMAL
  else if String.eqb s "compact" then Some COMPACT
  else if String.eqb s "full" then Some FULL
  else if String.eqb s "raw" then Some RAW
  else None.

(* ------------------------------------------------------------------ *)
(** ** Pydantic schemas (models.py) *)

Inductive scalar : Type := SInt | SBool | SFloat.

(** [Field(...)] is a required field, [Field(None)] and
    [Field(default=v)] have a default. *)
Inductive fdefault : Type :=
| Required
| Default (v : pyval).

(** Field annotations.  A model class is its name, whether it is declared
    with [extra="allow"], and its fields in declaration order. *)
Inductive ftype : Type :=
| TStr
| TScalar (s : scalar)
| TDictAny
| TOptional (t : ftype)
| TList (t : ftype)
| TModel (name : string) (extra_allow : bool)
         (fields : list (string * (ftype * fdefault))).

Definition field : Type := (string * (ftype * fdefault))%type.

Definition req (k : string) (t : ftype) : field := (k, (t, Required)).
Definition opt (k : string) (t : ftype) : field := (k, (TOptional t, Default PNone)).

Definition ExternalUrls : ftype :=
  TModel "ExternalUrls" false [opt "spotify" TStr].

Definition ExternalIds : ftype :=
  TModel "ExternalIds" false [opt "isrc" TStr; opt "ean" TStr; opt "upc" TStr].

Definition SpotifyImage : ftype :=
  TModel "SpotifyImage" false
    [opt "height" (TScalar SInt); opt "width" (TScalar SInt); req "url" TStr].

Definition Followers : ftype :=
  TModel "Followers" false [opt "href" TStr; req "total" (TScalar SInt)].

Definition Artist_fields : list field :=
  [ req "id" TStr; req "name" TStr; ("type", (TStr, Default (PStr "artist")));
    req "uri" TStr; req "href" TStr;
    opt "external_urls" ExternalUrls;
    opt "images" (TList SpotifyImage);
    opt "genres" (TList TStr);
    opt "popularity" (TScalar SInt);
    opt "followers" Followers ].

Definition Artist : ftype := TModel "Artist" true Artist_fields.

Definition Album_fields : list field :=
  [ req "id" TStr; req "name" TStr; ("type", (TStr, Default (PStr "album")));
    req "uri" TStr; req "href" TStr;
    opt "external_urls" ExternalUrls;
    opt "images" (TList SpotifyImage);
    req "artists" (TList Artist);
    opt "album_type" TStr;
    opt "total_tracks" (TScalar SInt);
    opt "release_date" TStr;
    opt "release_date_precision" TStr;
    opt "genres" (TList TStr);
    opt "popularity" (TScalar SInt);
    opt "external_ids" ExternalIds ].

Definition Album : ftype := TModel "Album" true Album_fields.

Definition Track_fields : list field :=
  [ req "id" TStr; req "name" TStr; ("type", (TStr, Default (PStr "track")));
    req "uri" TStr; req "href" TStr;
    opt "external_urls" ExternalUrls;
    req "artists" (TList Artist);
    opt "album" Album;
    opt "duration_ms" (TScalar SInt);
    opt "explicit" (TScalar SBool);
    opt "popularity" (TScalar SInt);
    opt "preview_url" TStr;
    opt "track_number" (TScalar SInt);
    opt "disc_number" (TScalar SInt);
    opt "is_local" (TScalar SBool);
    opt "external_ids" ExternalIds ].

Definition Track : ftype := TModel "Track" true Track_fields.

Definition Playlist_fields : list field :=
  [ req "id" TStr; req "name" TStr; ("type", (TStr, Default (PStr "playlist")));
    req "uri" TStr; req "href" TStr;
    opt "external_urls" ExternalUrls;
    opt "images" (TList SpotifyImage);
    opt "description" TStr;
    opt "owner" TDictAny;
    opt "public" (TScalar SBool);
    opt "collaborative" (TScalar SBool);
    opt "followers" Followers;
    opt "tracks" TDictAny;
    opt "snapshot_id" TStr ].

Definition Playlist : ftype := TModel "Playlist" true Playlist_fields.

Definition AudioFeatures_fields : list field :=
  [ req "id" TStr;
    req "danceability" (TScalar SFloat);
    req "energy" (TScalar SFloat);
    req "key" (TScalar SInt);
    req "loudness" (TScalar SFloat);
    req "mode" (TScalar SInt);
    req "speechiness" (TScalar SFloat);
    req "acousticness" (TScalar SFloat);
    req "instrumentalness" (TScalar SFloat);
    req "liveness" (TScalar SFloat);
    req "valence" (TScalar SFloat);
    req "tempo" (TScalar SFloat);
    req "duration_ms" (TScalar SInt);
    req "time_signature" (TScalar SInt) ].

Definition AudioFeatures : ftype := TModel "AudioFeatures" false AudioFeatures_fields.

Definition class_name (t : ftype) : string :=
  match t with
  | TModel name _ _ => name
  | _ => ""
  end.

Definition declared (fs : list field) (k : string) : bool :=
  existsb (fun f => String.eqb (fst f) k) fs.

Fixpoint omap {A B} (f : A -> option B) (l : list A) : option (list B) :=
  match l with
  | [] => Some []
  | x :: r =>
      match f x with
      | Some y => option_map (cons y) (omap f r)
      | None => None
      end
  end.

(** The strict reading of scalar annotations: a value is accepted when it
    already has the annotated type (an integer is accepted as a float). *)
Definition strict_scalar (s : scalar) (v : pyval) : option pyval :=
  match s, v with
  | SInt, PInt _ => Some v
  | SBool, PBool _ => Some v
  | SFloat, PFloat _ => Some v
  | SFloat, PInt _ => Some v
  | _, _ => None
  end.

(* ------------------------------------------------------------------ *)
(** ** Strings: prefix test, replacement, splitting, trimming *)

(** [s.replace(old, "")] for a non-empty [old]: a left-to-right scan that
    removes every non-overlapping occurrence.  [skip] counts the bytes of
    an occurrence still to be dropped. *)
Fixpoint remove_all_aux (old s : string) (skip : nat) : string :=
  match s with
  | EmptyString => EmptyString
  | String c r =>
      match skip with
      | S n => remove_all_aux old r n
      | O => if prefix old s
             then remove_all_aux old r (String.length old - 1)
             else String c (remove_all_aux old r 0)
      end
  end.

Definition remove_all (old s : string) : string := remove_all_aux old s 0.

(** The ASCII characters [str.strip()] removes. *)
Definition is_space (c : ascii) : bool :=
  let n := nat_of_ascii c in
  (n =? 32)%nat || ((9 <=? n)%nat && (n <=? 13)%nat).

Fixpoint lstrip (s : string) : string :=
  match s with
  | EmptyString => EmptyString
  | String c r => if is_space c then lstrip r else s
  end.

Fixpoint rstrip (s : string) : string :=
  match s with
  | EmptyString => EmptyString
  | String c r =>
      match rstrip r with
      | EmptyString => if is_space c then EmptyString else String c EmptyString
      | r' => String c r'
      end
  end.

Definition strip (s : string) : string := rstrip (lstrip s).

(** [s.split(",")]: the pieces between commas; never an empty list. *)
Fixpoint split_commas (s : string) : list string :=
  match s with
  | EmptyString => [EmptyString]
  | String c r =>
      if Ascii.eqb c ","%char then EmptyString :: split_commas r
      else match split_commas r with
           | [] => [String c EmptyString]
           | p :: ps => String c p :: ps
           end
  end.

(** Modelled from the spec: [parse_comma_separated_list] is imported by
    tools/library.py from dependencies.py, which does not define it.  The
    specification says that an identifier list accepted as a delimited
    string "is split on commas and trimmed before use". *)
Definition parse_comma_separated_list (value : string) : list string :=
  map strip (split_commas value).

(* ------------------------------------------------------------------ *)
(** ** The upstream client and the trace of calls made to it *)

(** A paging object of a search result: the fields [search_music] reads. *)
Record Page : Type := { items : list pyval; total : Z }.

(** The upstream search result: one paging object per plural type name. *)
Definition search_results : Type := list (string * Page).

Fixpoint page_get (results : search_results) (key : string) : option Page :=
  match results with
  | [] => None
  | (k, p) :: r => if String.eqb k key then Some p else page_get r key
  end.

(** The spotipy client bound to an access token: what each method
    answers.  The answers are not part of this repository. *)
Record Spotipy : Type := {
  search : string -> string -> string -> Z -> Z -> result search_results;
  audio_features : list string -> result pyval;
  current_user_saved_tracks_add : list string -> result unit;
  current_user_saved_tracks_delete : list string -> result unit;
  user_follow_artists : list string -> result unit
}.

(** A call made to the upstream client. *)
Inductive call : Type :=
| CallSearch (token q type market : string) (limit offset : Z)
| CallAudioFeatures (token : string) (ids : list string)
| CallSavedTracksAdd (token : string) (ids : list string)
| CallSavedTracksDelete (token : string) (ids : list string)
| CallFollowArtists (token : string) (ids : list string).

(** A computation that may call upstream: the calls made, in order, and
    the value returned or the exception raised. *)
Definition io (A : Type) : Type := (list call * result A)%type.

Definition lift {A} (r : result A) : io A := ([], r).

Definition upstream {A} (c : call) (r : result A) : io A := ([c], r).

Definition io_bind {A B} (m : io A) (k : A -> io B) : io B :=
  match m with
  | (t, Ok a) => let (t', r) := k a in ((t ++ t')%list, r)
  | (t, Raise e) => (t, Raise e)
  end.

Notation "x <~ m ;; k" := (io_bind m (fun x => k))
  (at level 61, m at next level, right associativity).

Definition io_try {A} (m : io A) (h : exn -> io A) : io A :=
  match m with
  | (t, Ok a) => (t, Ok a)
  | (t, Raise e) => let (t', r) := h e in ((t ++ t')%list, r)
  end.

Definition calls {A} (m : io A) : list call := fst m.
Definition outcome {A} (m : io A) : result A := snd m.

(* ------------------------------------------------------------------ *)
(** ** Request context (dependencies.py) *)

Record Request : Type := { Authorization : option string }.
Record Context : Type := { request_context : option Request }.

Definition get_access_token (ctx : option Context) : result string :=
  match ctx with
  | Some {| request_context := Some request |} =>
      match Authorization request with
      | Some auth_header =>
          if negb (String.eqb auth_header "") && prefix "Bearer " auth_header
          then Ok (remove_all "Bearer " auth_header)
          else Raise (HTTPException 401 "Missing or invalid Authorization header" None)
      | None => Raise (HTTPException 401 "Missing or invalid Authorization header" None)
      end
  | _ => Raise (HTTPException 401 "No request context available" None)
  end.

(** Records of the request and response models whose fields have definite
    types. *)
Record SearchRequest : Type := {
  query : string;
  types : list SpotifyObjectType;
  market : string;
  limit : Z;
  offset : Z;
  format : DataFormat
}.

Record SearchResponse : Type := {
  tracks : option (list pyval);
  artists : option (list pyval);
  albums : option (list pyval);
  playlists : option (list pyval);
  total_results : Z;
  format_used : DataFormat
}.

(** [model_dump()]: a model instance as a plain dictionary, nested
    instances included. *)
Fixpoint model_dump (v : pyval) : pyval :=
  match v with
  | PModel _ fields _ => PDict (map (fun kv => (fst kv, model_dump (snd kv))) fields)
  | PList l => PList (map model_dump l)
  | PDict d => PDict (map (fun kv => (fst kv, model_dump (snd kv))) d)
  | _ => v
  end.

Section Service.

(** Pydantic's conversion of a value to [int], [bool] or [float] belongs
    to the library, not to this repository; the development is
    parametric in it.  [coerce s v] is the converted value, or [None] when
    pydantic rejects [v]. *)
Variable coerce : scalar -> pyval -> option pyval.

(** Validation of a value against an annotation.  A [str] field takes
    strings only.  A model field takes an instance of that class as it is,
    or a mapping, from which the instance is built: each declared field is
    validated when present, a missing required field is an error, a
    missing optional one takes its default; undeclared keys are kept
    under [extra="allow"] and dropped otherwise. *)
Fixpoint validate (t : ftype) (v : pyval) {struct t} : option pyval :=
  match t with
  | TStr => match v with PStr _ => Some v | _ => None end
  | TScalar s => coerce s v
  | TDictAny => match v with PDict _ => Some v | _ => None end
  | TOptional t' => match v with PNone => Some PNone | _ => validate t' v end
  | TList t' =>
      match v with
      | PList l => option_map PList (omap (validate t') l)
      | _ => None
      end
  | TModel name extra fs =>
      match v with
      | PModel cls _ _ => if String.eqb cls name then Some v else None
      | PDict d =>
          let one (f : field) : option (string * pyval) :=
            match f with
            | (k, (t', dflt)) =>
                match dict_get d k with
                | Some x => option_map (pair k) (validate t' x)
                | None => match dflt with
                          | Required => None
                          | Default dv => Some (k, dv)
                          end
                end
            end in
          match omap one fs with
          | Some vals =>
              let keep (k : string) := declared fs k || extra in
              Some (PModel name
                      (vals ++ filter (fun kv => extra && negb (declared fs (fst kv))) d)
                      (filter keep (keys d)))
          | None => None
          end
      | _ => None
      end
  end.

(** The value a declared field takes when an instance is built from the
    mapping [d]: the step of [validate] on a model class. *)
Definition field_value (d : dict) (f : field) : option (string * pyval) :=
  match f with
  | (k, (t', dflt)) =>
      match dict_get d k with
      | Some x => option_map (pair k) (validate t' x)
      | None => match dflt with
                | Required => None
                | Default dv => Some (k, dv)
                end
      end
  end.

(** The constructor call of a model class on the keyword arguments
    [data]. *)
Definition construct (cls : ftype) (data : dict) : result pyval :=
  match validate cls (PDict data) with
  | Some m => Ok m
  | None => Raise (ValidationError (class_name cls))
  end.

(** [format in [DataFormat.COMPACT, DataFormat.FULL]] *)
Definition compact_or_full (format : DataFormat) : bool :=
  existsb (DataFormat_eqb format) [COMPACT; FULL].

(* ------------------------------------------------------------------ *)
(** ** The object normalizer (spotify_service.py) *)

(** The [base_data] dictionary [_parse_artist] assembles. *)
Definition artist_base_data (artist_data : pyval) (format : DataFormat) : result dict :=
  id <- subscript artist_data "id" ;;
  name <- subscript artist_data "name" ;;
  uri <- subscript artist_data "uri" ;;
  href <- subscript artist_data "href" ;;
  external_urls <- get artist_data "external_urls" ;;
  let base_data :=
    [("id", id); ("name", name); ("uri", uri); ("href", href);
     ("external_urls", external_urls)] in
  base_data <-
    (if compact_or_full format then
       images <- get artist_data "images" ;;
       popularity <- get artist_data "popularity" ;;
       Ok (dict_update base_data
             [("images", images); ("popularity", popularity)])
     else Ok base_data) ;;
  if DataFormat_eqb format FULL then
    genres <- get artist_data "genres" ;;
    followers <- get artist_data "followers" ;;
    Ok (dict_update base_data [("genres", genres); ("followers", followers)])
  else Ok base_data.

Definition _parse_artist (artist_data : pyval) (format : DataFormat) : result pyval :=
  base_data <- artist_base_data artist_data format ;;
  construct Artist base_data.

(** [[self._parse_artist(artist, DataFormat.MINIMAL) for artist in
     data.get("artists", [])]] *)
Definition parse_artists (data : pyval) : result pyval :=
  artists <- get_default data "artists" (PList []) ;;
  l <- iterate artists ;;
  parsed <- mapM (fun artist => _parse_artist artist MINIMAL) l ;;
  Ok (PList parsed).

Definition album_base_data (album_data : pyval) (format : DataFormat) : result dict :=
  id <- subscript album_data "id" ;;
  name <- subscript album_data "name" ;;
  uri <- subscript album_data "uri" ;;
  href <- subscript album_data "href" ;;
  external_urls <- get album_data "external_urls" ;;
  artists <- parse_artists album_data ;;
  let base_data :=
    [("id", id); ("name", name); ("uri", uri); ("href", href);
     ("external_urls", external_urls); ("artists", artists)] in
  base_data <-
    (if compact_or_full format then
       images <- get album_data "images" ;;
       album_type <- get album_data "album_type" ;;
       total_tracks <- get album_data "total_tracks" ;;
       release_date <- get album_data "release_date" ;;
       Ok (dict_update base_data
             [("images", images); ("album_type", album_type);
              ("total_tracks", total_tracks); ("release_date", release_date)])
     else Ok base_data) ;;
  if DataFormat_eqb format FULL then
    release_date_precision <- get album_data "release_date_precision" ;;
    genres <- get album_data "genres" ;;
    popularity <- get album_data "popularity" ;;
    external_ids <- get album_data "external_ids" ;;
    Ok (dict_update base_data
          [("release_date_precision", release_date_precision);
           ("genres", genres); ("popularity", popularity);
           ("external_ids", external_ids)])
  else Ok base_data.

Definition _parse_album (album_data : pyval) (format : DataFormat) : result pyval :=
  base_data <- album_base_data album_data format ;;
  construct Album base_data.

(** [self._parse_album(track_data["album"], DataFormat.MINIMAL)
     if track_data.get("album") else None] *)
Definition parse_nested_album (track_data : pyval) : result pyval :=
  c <- get track_data "album" ;;
  if truthy c then
    album <- subscript track_data "album" ;;
    _parse_album album MINIMAL
  else Ok PNone.

Definition track_base_data (track_data : pyval) (format : DataFormat) : result dict :=
  id <- subscript track_data "id" ;;
  name <- subscript track_data "name" ;;
  uri <- subscript track_data "uri" ;;
  href <- subscript track_data "href" ;;
  external_urls <- get track_data "external_urls" ;;
  artists <- parse_artists track_data ;;
  let base_data :=
    [("id", id); ("name", name); ("uri", uri); ("href", href);
     ("external_urls", external_urls); ("artists", artists)] in
  base_data <-
    (if compact_or_full format then
       album <- parse_nested_album track_data ;;
       duration_ms <- get track_data "duration_ms" ;;
       explicit <- get track_data "explicit" ;;
       popularity <- get track_data "popularity" ;;
       preview_url <- get track_data "preview_url" ;;
       Ok (dict_update base_data
             [("album", album); ("duration_ms", duration_ms);
              ("explicit", explicit); ("popularity", popularity);
              ("preview_url", preview_url)])
     else Ok base_data) ;;
  if DataFormat_eqb format FULL then
    track_number <- get track_data "track_number" ;;
    disc_number <- get track_data "disc_number" ;;
    is_local <- get track_data "is_local" ;;
    external_ids <- get track_data "external_ids" ;;
    Ok (dict_update base_data
          [("track_number", track_number); ("disc_number", disc_number);
           ("is_local", is_local); ("external_ids", external_ids)])
  else Ok base_data.

Definition _parse_track (track_data : pyval) (format : DataFormat) : result pyval :=
  base_data <- track_base_data track_data format ;;
  construct Track base_data.

Definition playlist_base_data (playlist_data : pyval) (format : DataFormat) : result dict :=
  id <- subscript playlist_data "id" ;;
  name <- subscript playlist_data "name" ;;
  uri <- subscript playlist_data "uri" ;;
  href <- subscript playlist_data "href" ;;
  external_urls <- get playlist_data "external_urls" ;;
  let base_data :=
    [("id", id); ("name", name); ("uri", uri); ("href", href);
     ("external_urls", external_urls)] in
  base_data <-
    (if compact_or_full format then
       images <- get playlist_data "images" ;;
       description <- get playlist_data "description" ;;
       owner <- get playlist_data "owner" ;;
       public <- get playlist_data "public" ;;
       collaborative <- get playlist_data "collaborative" ;;
       tracks <- get playlist_data "tracks" ;;
       Ok (dict_update base_data
             [("images", images); ("description", description);
              ("owner", owner); ("public", public);
              ("collaborative", collaborative); ("tracks", tracks)])
     else Ok base_data) ;;
  if DataFormat_eqb format FULL then
    followers <- get playlist_data "followers" ;;
    snapshot_id <- get playlist_data "snapshot_id" ;;
    Ok (dict_update base_data
          [("followers", followers); ("snapshot_id", snapshot_id)])
  else Ok base_data.

Definition _parse_playlist (playlist_data : pyval) (format : DataFormat) : result pyval :=
  base_data <- playlist_base_data playlist_data format ;;
  construct Playlist base_data.

(** The dispatch inside the [try] block of [_parse_object]. *)
Definition parse_dispatch (obj : pyval) (obj_type : SpotifyObjectType)
    (format : DataFormat) : result pyval :=
  if DataFormat_eqb format RAW then Ok obj
  else match obj_type with
       | TRACK => _parse_track obj format
       | ARTIST => _parse_artist obj format
       | ALBUM => _parse_album obj format
       | PLAYLIST => _parse_playlist obj format
       | _ => Ok obj
       end.

(** [_parse_object]: any exception of the dispatch is logged and the
    object is returned as it came. *)
Definition _parse_object (obj : pyval) (obj_type : SpotifyObjectType)
    (format : DataFormat) : result pyval :=
  try_except (parse_dispatch obj obj_type format) (fun _ => Ok obj).

(** What [_parse_object] returns: the dispatch result, or the object
    itself when the dispatch raised. *)
Definition recovered (obj : pyval) (obj_type : SpotifyObjectType)
    (format : DataFormat) : pyval :=
  match parse_dispatch obj obj_type format with
  | Ok v => v
  | Raise _ => obj
  end.

(** [[self._parse_object(item, obj_type, format) for item in items]] *)
Definition parse_items (items : list pyval) (obj_type : SpotifyObjectType)
    (format : DataFormat) : result (list pyval) :=
  mapM (fun item => _parse_object item obj_type format) items.

(* ------------------------------------------------------------------ *)
(** ** Service operations (spotify_service.py) *)

(** The service is a spotipy client bound to the caller's token. *)
Variable spotify : string -> Spotipy.

(** The slot of a [SearchResponse]: [Optional[List[cls]]], validated by
    the constructor when the keyword is given. *)
Definition slot (cls : ftype) (response_data : dict) (key : string)
    : result (option (list pyval)) :=
  match dict_get response_data key with
  | None => Ok None
  | Some v =>
      match validate (TOptional (TList cls)) v with
      | Some (PList l) => Ok (Some l)
      | Some _ => Ok None
      | None => Raise (ValidationError "SearchResponse")
      end
  end.

(** [SearchResponse( **response_data, total_results=..., format_used=...)];
    keywords that are no field of the model are ignored. *)
Definition SearchResponse_new (response_data : dict) (total_results : Z)
    (format_used : DataFormat) : result SearchResponse :=
  tracks <- slot Track response_data "tracks" ;;
  artists <- slot Artist response_data "artists" ;;
  albums <- slot Album response_data "albums" ;;
  playlists <- slot Playlist response_data "playlists" ;;
  Ok {| tracks := tracks; artists := artists; albums := albums;
        playlists := playlists; total_results := total_results;
        format_used := format_used |}.

(** The loop of [search_music] over the requested types, from the state
    [(response_data, total_results)]. *)
Fixpoint search_loop (results : search_results) (format : DataFormat)
    (types : list SpotifyObjectType) (response_data : dict) (total_results : Z)
    : result (dict * Z) :=
  match types with
  | [] => Ok (response_data, total_results)
  | obj_type :: rest =>
      let key := value obj_type ++ "s" in
      match page_get results key with
      | Some page =>
          parsed_items <- parse_items (items page) obj_type format ;;
          search_loop results format rest
            (dict_set response_data key (PList parsed_items))
            (total_results + total page)%Z
      | None => search_loop results format rest response_data total_results
      end
  end.

Definition search_music (token : string) (request : SearchRequest) : io SearchResponse :=
  io_try
    (let types_str := String.concat "," (map value (types request)) in
     results <~ upstream
                  (CallSearch token (query request) types_str (market request)
                     (limit request) (offset request))
                  (search (spotify token) (query request) types_str
                     (market request) (limit request) (offset request)) ;;
     lift (st <- search_loop results (format request) (types request) [] 0%Z ;;
           SearchResponse_new (fst st) (snd st) (format request)))
    (fun e => lift (Raise (Wrapped "Failed to search music" e))).

(** [AudioFeatures] built from the keywords of one upstream entry
    ([result] in the source): keyword expansion needs a mapping. *)
Definition AudioFeatures_new (entry : pyval) : result pyval :=
  match entry with
  | PDict d => construct AudioFeatures d
  | _ => Raise TypeError
  end.

(** The loop of [get_track_audio_features] over the upstream entries. *)
Fixpoint features_loop (results : list pyval) (features : list pyval)
    : result (list pyval) :=
  match results with
  | [] => Ok features
  | entry :: rest =>
      if truthy entry then
        f <- AudioFeatures_new entry ;;
        features_loop rest (features ++ [f])%list
      else features_loop rest features
  end.

Definition get_track_audio_features (token : string) (track_ids : list string)
    : io (list pyval) :=
  io_try
    (results <~ upstream (CallAudioFeatures token track_ids)
                  (audio_features (spotify token) track_ids) ;;
     lift (l <- iterate results ;; features_loop l []))
    (fun e => lift (Raise (Wrapped "Failed to get audio features" e))).

Definition save_tracks (token : string) (track_ids : list string) : io bool :=
  io_try
    (_ <~ upstream (CallSavedTracksAdd token track_ids)
            (current_user_saved_tracks_add (spotify token) track_ids) ;;
     lift (Ok true))
    (fun e => lift (Raise e)).

Definition remove_saved_tracks (token : string) (track_ids : list string) : io bool :=
  io_try
    (_ <~ upstream (CallSavedTracksDelete token track_ids)
            (current_user_saved_tracks_delete (spotify token) track_ids) ;;
     lift (Ok true))
    (fun e => lift (Raise e)).

Definition follow_artists (token : string) (artist_ids : list string) : io bool :=
  io_try
    (_ <~ upstream (CallFollowArtists token artist_ids)
            (user_follow_artists (spotify token) artist_ids) ;;
     lift (Ok true))
    (fun e => lift (Raise e)).

(* ------------------------------------------------------------------ *)
(** ** Tools (tools/analysis.py, tools/library.py) *)

(** The two handlers every tool ends with:
    [except ValueError] answers 400, any other exception 500. *)
Definition tool_handlers {A} (failure : string) (m : io A) : io A :=
  io_try m
    (fun e =>
       if is_ValueError e
       then lift (Raise (HTTPException 400 "Invalid parameter" (Some e)))
       else lift (Raise (HTTPException 500 failure (Some e)))).

(** [get_spotify_service(get_access_token(ctx))]: the service is the
    token its client is bound to. *)
Definition get_spotify_service (access_token : string) : result string :=
  Ok access_token.

(** The value [spotify_get_track_audio_features] serialises with
    [json.dumps]. *)
Definition spotify_get_track_audio_features (ctx : option Context)
    (track_ids : list string) : io pyval :=
  tool_handlers "Failed to get audio features"
    (service <~ lift (tok <- get_access_token ctx ;; get_spotify_service tok) ;;
     _ <~ lift (if (100 <? List.length track_ids)%nat
                then Raise (ValueError "Maximum 100 track IDs allowed per request")
                else Ok tt) ;;
     features <~ get_track_audio_features service track_ids ;;
     let features_data := map model_dump features in
     lift (Ok (PList features_data))).

(** The body shared by [spotify_save_tracks],
    [spotify_remove_saved_tracks] and [spotify_follow_artists]: the
    parser of the delimited string, the operation, the name of the
    identifiers, the failure prefix, and the success message and key of
    the answer. *)
Definition id_list_tool (parse : string -> list string)
    (operation : string -> list string -> io bool)
    (what failure done key : string) (noun : string)
    (ctx : option Context) (ids : string) : io pyval :=
  tool_handlers failure
    (service <~ lift (tok <- get_access_token ctx ;; get_spotify_service tok) ;;
     let ids_list := parse ids in
     _ <~ lift (match ids_list with
                | [] => Raise (ValueError ("At least one " ++ what ++ " ID is required"))
                | _ => Ok tt
                end) ;;
     _ <~ lift (if (50 <? List.length ids_list)%nat
                then Raise (ValueError ("Maximum 50 " ++ what ++ " IDs allowed per request"))
                else Ok tt) ;;
     _ <~ operation service ids_list ;;
     lift (Ok (PDict
       [("success", PBool true);
        ("message", PStr (done ++ " "
                          ++ NilEmpty.string_of_uint (Nat.to_uint (List.length ids_list))
                          ++ " " ++ noun));
        (key, PList (map PStr ids_list))]))).

Definition spotify_save_tracks : option Context -> string -> io pyval :=
  id_list_tool parse_comma_separated_list save_tracks "track" "Failed to save tracks"
    "Successfully saved" "track_ids" "tracks".

Definition spotify_remove_saved_tracks : option Context -> string -> io pyval :=
  id_list_tool parse_comma_separated_list remove_saved_tracks "track" "Failed to remove saved tracks"
    "Successfully removed" "track_ids" "tracks from library".

Definition spotify_follow_artists : option Context -> string -> io pyval :=
  id_list_tool parse_comma_separated_list follow_artists "artist" "Failed to follow artists"
    "Successfully followed" "artist_ids" "artists".

(** The key of a type in the upstream result and in the response:
    [f"{obj_type.value}s"]. *)
Definition plural (obj_type : SpotifyObjectType) : string := value obj_type ++ "s".

Definition SpotifyObjectType_eqb (a b : SpotifyObjectType) : bool :=
  String.eqb (value a) (value b).

(** The normalized items of a requested type the upstream reports: what
    the loop of [search_music] stores under the key of the type. *)
Definition normalized_items (results : search_results) (format : DataFormat)
    (types : list SpotifyObjectType) (obj_type : SpotifyObjectType)
    : option (list pyval) :=
  if existsb (SpotifyObjectType_eqb obj_type) types then
    match page_get results (plural obj_type) with
    | Some page => Some (map (fun item => recovered item obj_type format) (items page))
    | None => None
    end
  else None.

(** What the constructor of [SearchResponse] keeps of the items given for
    a slot of class [cls]. *)
Definition validated_slot (cls : ftype) (l : option (list pyval))
    : result (option (list pyval)) :=
  match l with
  | None => Ok None
  | Some l =>
      match omap (validate cls) l with
      | Some l' => Ok (Some l')
      | None => Raise (ValidationError "SearchResponse")
      end
  end.

End Service.

(* ------------------------------------------------------------------ *)
(** ** Observations on normalized objects *)

(** The fields an object carries: the fields given to the constructor of
    a model instance, the keys of a dictionary. *)
Definition populated (v : pyval) : list string :=
  match v with
  | PModel _ _ fields_set => fields_set
  | PDict d => keys d
  | _ => []
  end.

(** The value of a field of a model instance, or of a key of a
    dictionary. *)
Definition model_field (v : pyval) (k : string) : option pyval :=
  match v with
  | PModel _ fields _ => dict_get fields k
  | PDict d => dict_get d k
  | _ => None
  end.

(** Rank of the three normalizing tiers, MINIMAL below COMPACT below FULL. *)
Definition tier_rank (f : DataFormat) : option nat :=
  match f with
  | MINIMAL => Some 0
  | COMPACT => Some 1
  | FULL => Some 2
  | RAW => None
  end.

(** [F1] is a tier at or below the tier [F2]. *)
Definition tier_le (F1 F2 : DataFormat) : Prop :=
  match tier_rank F1, tier_rank F2 with
  | Some a, Some b => a <= b
  | _, _ => False
  end.

(** The object types that have a builder. *)
Definition catalog_types : list SpotifyObjectType := [TRACK; ARTIST; ALBUM; PLAYLIST].

(** The keys every builder reads by subscript. *)
Definition required_keys : list string := ["id"; "name"; "uri"; "href"].

(** [del d[k]], when present. *)
Definition dict_remove (d : dict) (k : string) : dict :=
  filter (fun kv => negb (String.eqb (fst kv) k)) d.

(** The keys a builder reads with [.get] at each tier, the nested artist
    list apart: the optional fields of the tier. *)
Definition compact_optional (obj_type : SpotifyObjectType) : list string :=
  match obj_type with
  | TRACK => ["album"; "duration_ms"; "explicit"; "popularity"; "preview_url"]
  | ARTIST => ["images"; "popularity"]
  | ALBUM => ["images"; "album_type"; "total_tracks"; "release_date"]
  | PLAYLIST => ["images"; "description"; "owner"; "public"; "collaborative"; "tracks"]
  | _ => []
  end.

Definition full_optional (obj_type : SpotifyObjectType) : list string :=
  match obj_type with
  | TRACK => ["track_number"; "disc_number"; "is_local"; "external_ids"]
  | ARTIST => ["genres"; "followers"]
  | ALBUM => ["release_date_precision"; "genres"; "popularity"; "external_ids"]
  | PLAYLIST => ["followers"; "snapshot_id"]
  | _ => []
  end.

Definition optional_fields (obj_type : SpotifyObjectType) (format : DataFormat)
    : list string :=
  match format with
  | MINIMAL => ["external_urls"]
  | COMPACT => "external_urls" :: compact_optional obj_type
  | FULL => "external_urls" :: compact_optional obj_type ++ full_optional obj_type
  | RAW => []
  end.


(** The fields through which a catalog object refers to other catalog
    objects. *)
Definition is_reference (k : string) : bool :=
  String.eqb k "artists" || String.eqb k "album".

(** Depth of the nesting of normalized objects: 1 for an object without
    nested references, one more for each level of objects nested through
    [artists] or [album]. *)
Fixpoint nesting_depth (v : pyval) : nat :=
  match v with
  | PModel _ fields _ =>
      S (list_max (map (fun kv => if is_reference (fst kv)
                                  then nesting_depth (snd kv) else 0) fields))
  | PList l => list_max (map nesting_depth l)
  | _ => 0
  end.

(** [isinstance(v, cls)] for a model class. *)
Definition is_instance (cls : string) (v : pyval) : bool :=
  match v with
  | PModel c _ _ => String.eqb c cls
  | _ => false
  end.

(** A normalized artist is an [Artist] instance without nested objects. *)
Definition plain_artist (a : pyval) : Prop :=
  is_instance "Artist" a = true /\ nesting_depth a = 1.

(** The raw artists a builder iterates over:
    [data.get("artists", [])]. *)
Definition raw_artists (data : pyval) : result (list pyval) :=
  artists <- get_default data "artists" (PList []) ;;
  iterate artists.

(** A track whose album has an artist of its own. *)
Definition raw_artist (id : string) : pyval :=
  PDict [("id", PStr id); ("name", PStr "Artist"); ("uri", PStr ("spotify:artist:" ++ id));
         ("href", PStr ("https://api.spotify.com/v1/artists/" ++ id))].

Definition nested_track : pyval :=
  PDict [("id", PStr "t1"); ("name", PStr "Song"); ("uri", PStr "spotify:track:t1");
         ("href", PStr "https://api.spotify.com/v1/tracks/t1");
         ("artists", PList [raw_artist "a1"]);
         ("album", PDict [("id", PStr "b1"); ("name", PStr "Album");
                          ("uri", PStr "spotify:album:b1");
                          ("href", PStr "https://api.spotify.com/v1/albums/b1");
                          ("artists", PList [raw_artist "a2"])]);
         ("popularity", PInt 5)].

(** The total the upstream reports for a type, 0 when it reports none. *)
Definition reported_total (results : search_results) (obj_type : SpotifyObjectType) : Z :=
  match page_get results (plural obj_type) with
  | Some page => total page
  | None => 0%Z
  end.

(** The sum of the reported totals over the requested types. *)
Definition sum_totals (results : search_results) (types : list SpotifyObjectType) : Z :=
  fold_right Z.add 0%Z (map (reported_total results) types).

(** The model class of the slot of a catalog type. *)
Definition slot_class (obj_type : SpotifyObjectType) : ftype :=
  match obj_type with
  | TRACK => Track
  | ARTIST => Artist
  | ALBUM => Album
  | _ => Playlist
  end.

(** The named slot of a type in the response. *)
Definition slot_of (response : SearchResponse) (obj_type : SpotifyObjectType)
    : option (list pyval) :=
  match obj_type with
  | TRACK => tracks response
  | ARTIST => artists response
  | ALBUM => albums response
  | PLAYLIST => playlists response
  | _ => None
  end.

Fixpoint contains (c : ascii) (s : string) : bool :=
  match s with
  | EmptyString => false
  | String c' r => Ascii.eqb c' c || contains c r
  end.

(** A string without leading or trailing white space. *)
Definition trimmed (s : string) : Prop := lstrip s = s /\ rstrip s = s.

(** A parser that also drops empty identifiers.  The checks of the tools
    are stated for any parser of the delimited string. *)
Definition parse_dropping_empty (value : string) : list string :=
  filter (fun x => negb (String.eqb x "")) (parse_comma_separated_list value).

(* ------------------------------------------------------------------ *)
(** ** Sample data *)

Definition value_of {A} (default : A) (r : result A) : A :=
  match r with
  | Ok a => a
  | Raise _ => default
  end.

(** A track whose album lacks its [id]. *)
Definition track_with_broken_album : pyval :=
  PDict [("id", PStr "t2"); ("name", PStr "Song"); ("uri", PStr "spotify:track:t2");
         ("href", PStr "https://api.spotify.com/v1/tracks/t2");
         ("album", PDict [("name", PStr "Album")])].

(** A track without [id]. *)
Definition track_without_id : dict :=
  [("name", PStr "Song"); ("uri", PStr "spotify:track:t3");
   ("href", PStr "https://api.spotify.com/v1/tracks/t3")].

Definition artist_with_genres : dict :=
  [("id", PStr "a9"); ("name", PStr "Artist"); ("uri", PStr "spotify:artist:a9");
   ("href", PStr "https://api.spotify.com/v1/artists/a9");
   ("genres", PList [PStr "jazz"]); ("popularity", PInt 40)].

Definition features_entry : pyval :=
  PDict [("id", PStr "t1"); ("danceability", PFloat 4603579539098121011);
         ("energy", PFloat 4605380978949069210); ("key", PInt 5);
         ("loudness", PFloat 13828753015803845018); ("mode", PInt 1);
         ("speechiness", PFloat 4587366580439587226);
         ("acousticness", PFloat 4591870180066957722);
         ("instrumentalness", PInt 0);
         ("liveness", PFloat 4591870180066957722);
         ("valence", PFloat 4602678819172646912);
         ("tempo", PFloat 4638144666238189568);
         ("duration_ms", PInt 201000); ("time_signature", PInt 4)].

Definition sample_results : search_results :=
  [("tracks", {| items := [nested_track]; total := 500 |});
   ("playlists", {| items := []; total := 3 |})].

(** An upstream client with fixed answers. *)
Definition sample_spotify (token : string) : Spotipy :=
  {| search := fun _ _ _ _ _ => Ok sample_results;
     audio_features := fun _ => Ok (PList [features_entry; PNone]);
     current_user_saved_tracks_add := fun _ => Ok tt;
     current_user_saved_tracks_delete := fun _ => Ok tt;
     user_follow_artists := fun _ => Ok tt |}.

Definition sample_request : SearchRequest :=
  {| query := "test"; types := [TRACK; PLAYLIST]; market := "US";
     limit := 20; offset := 0; format := MINIMAL |}.

Definition bearer_context : option Context :=
  Some {| request_context := Some {| Authorization := Some "Bearer token-1" |} |}.

Definition empty_response : SearchResponse :=
  {| tracks := None; artists := None; albums := None; playlists := None;
     total_results := 0; format_used := RAW |}.

Definition sample_response : SearchResponse :=
  Eval vm_compute in
    value_of empty_response
      (outcome (search_music strict_scalar sample_spotify "token-1" sample_request)).

Definition nested_track_full : pyval :=
  Eval vm_compute in value_of PNone (_parse_track strict_scalar nested_track FULL).

Definition nested_track_compact : pyval :=
  Eval vm_compute in value_of PNone (_parse_track strict_scalar nested_track COMPACT).

Definition nested_album_compact : pyval :=
  Eval vm_compute in
    value_of PNone
      (album <- subscript nested_track "album" ;; _parse_album strict_scalar album COMPACT).

Definition artist_with_genres_full : pyval :=
  Eval vm_compute in
    value_of PNone (_parse_artist strict_scalar (PDict artist_with_genres) FULL).

(* ------------------------------------------------------------------ *)
(** ** Further enumerations (models.py) *)

Inductive TimeRange : Type := SHORT_TERM | MEDIUM_TERM | LONG_TERM.

#[export] Instance TimeRange_enum : StrEnum TimeRange := {
  enum_name := "TimeRange";
  members := [SHORT_TERM; MEDIUM_TERM; LONG_TERM];
  value := fun t => match t with
                    | SHORT_TERM => "short_term"
                    | MEDIUM_TERM => "medium_term"
                    | LONG_TERM => "long_term"
                    end
}.

Inductive RepeatState : Type := REPEAT_TRACK | REPEAT_CONTEXT | REPEAT_OFF.

#[export] Instance RepeatState_enum : StrEnum RepeatState := {
  enum_name := "RepeatState";
  members := [REPEAT_TRACK; REPEAT_CONTEXT; REPEAT_OFF];
  value := fun t => match t with
                    | REPEAT_TRACK => "track"
                    | REPEAT_CONTEXT => "context"
                    | REPEAT_OFF => "off"
                    end
}.

(* ------------------------------------------------------------------ *)
(** ** Bearer tokens (auth/spotify_auth.py) *)

(** [s[n:]] *)
Fixpoint drop (n : nat) (s : string) : string :=
  match n, s with
  | S m, String _ r => drop m r
  | _, _ => s
  end.

Definition extract_bearer_token (auth_header : option string) : option string :=
  match auth_header with
  | None => None
  | Some h =>
      if String.eqb h "" then None
      else if negb (prefix "Bearer " h) then None
      else Some (drop 7 h)
  end.

(** The [Authorization] header of the request of a context, if any. *)
Definition authorization_header (ctx : option Context) : option string :=
  match ctx with
  | Some {| request_context := Some request |} => Authorization request
  | _ => None
  end.

(** Whether [old] occurs in [s]. *)
Fixpoint occurs (old s : string) : bool :=
  prefix old s ||
  match s with
  | EmptyString => false
  | String _ r => occurs old r
  end.

(** [str(n)] for an integer. *)
Definition str_of_Z (z : Z) : string := NilZero.string_of_int (Z.to_int z).

(** [str(n)] for a length. *)
Definition str_of_nat (n : nat) : string := NilEmpty.string_of_uint (Nat.to_uint n).

(** Python values of optional arguments. *)
Definition of_opt_str (o : option string) : pyval :=
  match o with Some s => PStr s | None => PNone end.

Definition of_opt_Z (o : option Z) : pyval :=
  match o with Some z => PInt z | None => PNone end.

Definition of_opt_bool (o : option bool) : pyval :=
  match o with Some b => PBool b | None => PNone end.

Definition of_strs (l : list string) : pyval := PList (map PStr l).

(* ------------------------------------------------------------------ *)
(** ** Requests to the client, by method name *)

(** A call [self.spotify.method( *args, **kwargs)] of the client bound to
    [token]. *)
Inductive client_request : Type :=
| ClientRequest (token method : string) (args : list pyval) (kwargs : dict).

(** A computation with the trace of its requests. *)
Definition traced (A : Type) : Type := (list client_request * result A)%type.

Definition pure {A} (r : result A) : traced A := ([], r).

Definition tbind {A B} (m : traced A) (k : A -> traced B) : traced B :=
  match m with
  | (t, Ok a) => let (t', r) := k a in ((t ++ t')%list, r)
  | (t, Raise e) => (t, Raise e)
  end.

Notation "x <~~ m ;; k" := (tbind m (fun x => k))
  (at level 61, m at next level, right associativity).

Definition ttry {A} (m : traced A) (h : exn -> traced A) : traced A :=
  match m with
  | (t, Ok a) => (t, Ok a)
  | (t, Raise e) => let (t', r) := h e in ((t ++ t')%list, r)
  end.

Definition requests {A} (m : traced A) : list client_request := fst m.
Definition answer {A} (m : traced A) : result A := snd m.

(** The handlers of a tool with an [except ValueError] clause. *)
Definition handlers {A} (failure : string) (m : traced A) : traced A :=
  ttry m
    (fun e =>
       if is_ValueError e
       then pure (Raise (HTTPException 400 "Invalid parameter" (Some e)))
       else pure (Raise (HTTPException 500 failure (Some e)))).

(** The handler of a tool with [except Exception] only. *)
Definition handler {A} (failure : string) (m : traced A) : traced A :=
  ttry m (fun e => pure (Raise (HTTPException 500 failure (Some e)))).

(** [get_spotify_service(get_access_token(ctx))] *)
Definition service_of (ctx : option Context) : traced string :=
  pure (tok <- get_access_token ctx ;; get_spotify_service tok).

(** [x.model_dump() if hasattr(x, 'model_dump') else x] *)
Definition dump_if_model (v : pyval) : pyval :=
  match v with
  | PModel _ _ _ => model_dump v
  | _ => v
  end.

(** [PaginatedResponse]: the values its constructor keeps. *)
Module Paginated.
Record t : Type := {
  items : list pyval;
  total : pyval;
  limit : pyval;
  offset : pyval;
  next : pyval;
  previous : pyval
}.
End Paginated.

Record PlaylistCreateRequest : Type := {
  playlist_name : string;
  description : option string;
  public : bool;
  collaborative : bool
}.

(** Schemas of the playback models and of the token information. *)
Definition Device : ftype :=
  TModel "Device" false
    [opt "id" TStr; req "is_active" (TScalar SBool);
     req "is_private_session" (TScalar SBool);
     req "is_restricted" (TScalar SBool);
     req "name" TStr; req "type" TStr; opt "volume_percent" (TScalar SInt)].

Definition PlaybackState : ftype :=
  TModel "PlaybackState" false
    [opt "device" Device; req "repeat_state" TStr;
     req "shuffle_state" (TScalar SBool); opt "context" TDictAny;
     req "timestamp" (TScalar SInt); opt "progress_ms" (TScalar SInt);
     req "is_playing" (TScalar SBool); opt "item" Track;
     req "currently_playing_type" TStr].

Definition SpotifyTokenInfo : ftype :=
  TModel "SpotifyTokenInfo" false
    [req "access_token" TStr; req "user_id" TStr;
     opt "display_name" TStr; opt "email" TStr; opt "country" TStr;
     opt "product" TStr; opt "followers" (TScalar SInt);
     ("token_type", (TStr, Default (PStr "Bearer")))].

(** [AccessToken] of the MCP library, as [verify_token] fills it. *)
Record AccessToken : Type := {
  token : pyval;
  client_id : pyval;
  scopes : list string
}.

(** An HTTP response: the status code and what [response.json()] gives. *)
Record Response : Type := { status_code : Z; json : result pyval }.

(** [v.k] for a field of a model instance. *)
Definition getattr (v : pyval) (k : string) : result pyval :=
  match v with
  | PModel _ fields _ =>
      match dict_get fields k with
      | Some x => Ok x
      | None => Raise AttributeError
      end
  | _ => Raise AttributeError
  end.

(** [k in data] for a string [k]: key of a dictionary, element of a list,
    substring of a string. *)
Definition py_in (k : string) (data : pyval) : result bool :=
  match data with
  | PDict d => Ok (match dict_get d k with Some _ => true | None => false end)
  | PList l => Ok (existsb (fun x => match x with
                                     | PStr s => String.eqb s k
                                     | _ => false
                                     end) l)
  | PStr s => Ok (occurs k s)
  | _ => Raise TypeError
  end.

Section More_services.

Variable coerce : scalar -> pyval -> option pyval.

(** What the client answers to a method call: the parsed JSON, or an
    exception. *)
Variable client : string -> string -> list pyval -> dict -> result pyval.

(** What the token endpoint answers to a GET with the given bearer token,
    or the exception of the HTTP client. *)
Variable http_get : string -> string -> result Response.

Definition call_client (token method : string) (args : list pyval) (kwargs : dict)
    : traced pyval :=
  ([ClientRequest token method args kwargs], client token method args kwargs).

(* ------------------------------------------------------------------ *)
(** ** Token validation (auth/spotify_auth.py, dependencies.py) *)

(** [data.get("followers", {}).get("total") if data.get("followers")
     else None] *)
Definition followers_total (data : pyval) : result pyval :=
  c <- get data "followers" ;;
  if truthy c then
    f <- get_default data "followers" (PDict []) ;;
    get f "total"
  else Ok PNone.

(** The body of the [try] block of [validate_token], after the response
    arrived. *)
Definition token_info_of (token : string) (response : Response) : result (option pyval) :=
  if negb (Z.eqb (status_code response) 200) then Ok None
  else
    data <- json response ;;
    has_error <- py_in "error" data ;;
    if has_error then Ok None
    else
      has_id <- py_in "id" data ;;
      if negb has_id then Ok None
      else
        user_id <- subscript data "id" ;;
        display_name <- get data "display_name" ;;
        email <- get data "email" ;;
        country <- get data "country" ;;
        product <- get data "product" ;;
        followers <- followers_total data ;;
        info <- construct coerce SpotifyTokenInfo
                  [("access_token", PStr token); ("user_id", user_id);
                   ("display_name", display_name); ("email", email);
                   ("country", country); ("product", product);
                   ("followers", followers); ("token_type", PStr "Bearer")] ;;
        Ok (Some info).

(** [SpotifyTokenValidator.validate_token]: any exception gives [None]. *)
Definition validate_token (token_endpoint token : string) : option pyval :=
  match (response <- http_get token_endpoint token ;; token_info_of token response) with
  | Ok info => info
  | Raise _ => None
  end.

(** [SpotifyTokenValidator._validate_scopes] *)
Definition _validate_scopes (required_scopes : list string) : bool := true.

(** [SpotifyTokenVerifier.verify_token]: the scopes of the token are the
    required scopes, as given. *)
Definition verify_token (token_endpoint : string) (required_scopes : list string)
    (token : string) : option AccessToken :=
  match validate_token token_endpoint token with
  | None => None
  | Some token_info =>
      match (access_token <- getattr token_info "access_token" ;;
             user_id <- getattr token_info "user_id" ;;
             Ok {| token := access_token; client_id := user_id;
                   scopes := required_scopes |}) with
      | Ok access_token => Some access_token
      | Raise _ => None
      end
  end.

(** [get_validated_token] (dependencies.py): the [HTTPException] raised in
    the [try] block is caught by its own [except Exception]. *)
Definition get_validated_token (token_endpoint access_token : string) : result pyval :=
  try_except
    (match validate_token token_endpoint access_token with
     | None => Raise (HTTPException 401 "Invalid or expired token" None)
     | Some token_info => Ok token_info
     end)
    (fun e => Raise (HTTPException 401 "Token validation failed" (Some e))).

(* ------------------------------------------------------------------ *)
(** ** Listings of the service (spotify_service.py) *)

(** [PaginatedResponse(items=..., total=..., ...)]: [items] is a list of
    anything; the cursors are validated against their annotations. *)
Definition PaginatedResponse_new (items : list pyval)
    (total limit offset next previous : pyval) : result Paginated.t :=
  match validate coerce (TOptional (TScalar SInt)) total,
        validate coerce (TScalar SInt) limit,
        validate coerce (TScalar SInt) offset,
        validate coerce (TOptional TStr) next,
        validate coerce (TOptional TStr) previous with
  | Some total', Some limit', Some offset', Some next', Some previous' =>
      Ok {| Paginated.items := items; Paginated.total := total';
            Paginated.limit := limit'; Paginated.offset := offset';
            Paginated.next := next'; Paginated.previous := previous' |}
  | _, _, _, _, _ => Raise (ValidationError "PaginatedResponse")
  end.

(** The end of every listing: the cursors of the upstream page around the
    parsed items. *)
Definition paginated (results : pyval) (items : list pyval) : result Paginated.t :=
  total <- subscript results "total" ;;
  limit <- subscript results "limit" ;;
  offset <- subscript results "offset" ;;
  next <- subscript results "next" ;;
  previous <- subscript results "previous" ;;
  PaginatedResponse_new items total limit offset next previous.

Definition get_user_playlists (token : string) (limit offset : Z) (format : DataFormat)
    : traced Paginated.t :=
  ttry
    (results <~~ call_client token "current_user_playlists" []
                   [("limit", PInt limit); ("offset", PInt offset)] ;;
     pure (raw_items <- subscript results "items" ;;
           l <- iterate raw_items ;;
           playlists <- mapM (fun playlist => _parse_object coerce playlist PLAYLIST format) l ;;
           paginated results playlists))
    (fun e => pure (Raise (Wrapped "Failed to get user playlists" e))).

Definition get_saved_tracks (token : string) (limit offset : Z) (market : string)
    (format : DataFormat) : traced Paginated.t :=
  ttry
    (results <~~ call_client token "current_user_saved_tracks" []
                   [("limit", PInt limit); ("offset", PInt offset);
                    ("market", PStr market)] ;;
     pure (raw_items <- subscript results "items" ;;
           l <- iterate raw_items ;;
           tracks <- mapM (fun item => track <- subscript item "track" ;;
                                       _parse_object coerce track TRACK format) l ;;
           paginated results tracks))
    (fun e => pure (Raise (Wrapped "Failed to get saved tracks" e))).

Definition get_top_items (token item_type : string) (time_range : TimeRange)
    (limit offset : Z) : traced Paginated.t :=
  ttry
    (results <~~
       (if String.eqb item_type "tracks" then
          call_client token "current_user_top_tracks" []
            [("time_range", PStr (value time_range)); ("limit", PInt limit);
             ("offset", PInt offset)]
        else if String.eqb item_type "artists" then
          call_client token "current_user_top_artists" []
            [("time_range", PStr (value time_range)); ("limit", PInt limit);
             ("offset", PInt offset)]
        else pure (Raise (ValueError ("Invalid item_type: " ++ item_type
                                      ++ ". Must be 'tracks' or 'artists'")))) ;;
     let obj_type := if String.eqb item_type "tracks" then TRACK else ARTIST in
     pure (raw_items <- subscript results "items" ;;
           l <- iterate raw_items ;;
           items <- mapM (fun item => _parse_object coerce item obj_type COMPACT) l ;;
           paginated results items))
    (fun e => pure (Raise (Wrapped ("Failed to get top " ++ item_type) e))).

Definition create_playlist (token : string) (request : PlaylistCreateRequest)
    : traced pyval :=
  ttry
    (user <~~ call_client token "current_user" [] [] ;;
     user_id <~~ pure (subscript user "id") ;;
     result <~~ call_client token "user_playlist_create" []
                  [("user", user_id); ("name", PStr (playlist_name request));
                   ("public", PBool (public request));
                   ("collaborative", PBool (collaborative request));
                   ("description",
                    PStr (match description request with
                          | Some d => d
                          | None => ""
                          end))] ;;
     pure (_parse_object coerce result PLAYLIST FULL))
    (fun e => pure (Raise (Wrapped "Failed to create playlist" e))).

(** [_parse_playback_state] *)
Definition _parse_playback_state (playback_data : pyval) : result pyval :=
  device <- get playback_data "device" ;;
  repeat_state <- subscript playback_data "repeat_state" ;;
  shuffle_state <- subscript playback_data "shuffle_state" ;;
  context <- get playback_data "context" ;;
  timestamp <- subscript playback_data "timestamp" ;;
  progress_ms <- get playback_data "progress_ms" ;;
  is_playing <- subscript playback_data "is_playing" ;;
  item <- (c <- get playback_data "item" ;;
           if truthy c then
             i <- subscript playback_data "item" ;;
             _parse_track coerce i COMPACT
           else Ok PNone) ;;
  currently_playing_type <- subscript playback_data "currently_playing_type" ;;
  construct coerce PlaybackState
    [("device", device); ("repeat_state", repeat_state);
     ("shuffle_state", shuffle_state); ("context", context);
     ("timestamp", timestamp); ("progress_ms", progress_ms);
     ("is_playing", is_playing); ("item", item);
     ("currently_playing_type", currently_playing_type)].

(** [get_current_playback]: [None] when nothing is playing. *)
Definition get_current_playback (token : string) : traced (option pyval) :=
  ttry
    (result <~~ call_client token "current_playback" [] [] ;;
     if negb (truthy result) then pure (Ok None)
     else pure (state <- _parse_playback_state result ;; Ok (Some state)))
    (fun e => pure (Raise (Wrapped "Failed to get current playback" e))).

(* ------------------------------------------------------------------ *)
(** ** Pass-through operations of the service *)

(** [try: self.spotify.method(...); return True
     except Exception: raise] *)
Definition command (token method : string) (args : list pyval) (kwargs : dict)
    : traced bool :=
  ttry (_ <~~ call_client token method args kwargs ;; pure (Ok true))
       (fun e => pure (Raise e)).

(** [try: return self.spotify.method(...)  except Exception: raise] *)
Definition query_client (token method : string) (args : list pyval) (kwargs : dict)
    : traced pyval :=
  ttry (call_client token method args kwargs) (fun e => pure (Raise e)).

Definition set_volume (token : string) (volume_percent : Z) (device_id : option string)
    : traced bool :=
  command token "volume" [PInt volume_percent] [("device_id", of_opt_str device_id)].

Definition seek_track (token : string) (position_ms : Z) (device_id : option string)
    : traced bool :=
  command token "seek_track" [PInt position_ms] [("device_id", of_opt_str device_id)].

Definition set_repeat (token repeat_state : string) (device_id : option string)
    : traced bool :=
  command token "repeat" [PStr repeat_state] [("device_id", of_opt_str device_id)].

Definition transfer_playback (token : string) (device_ids : list string)
    (force_play : bool) : traced bool :=
  match device_ids with
  | [device_id] =>
      command token "transfer_playback" []
        [("device_id", PStr device_id); ("force_play", PBool force_play)]
  | _ =>
      command token "transfer_playback" []
        [("device_ids", of_strs device_ids); ("force_play", PBool force_play)]
  end.

(** Keep [(k, v)] when [v] is truthy: [if v: kwargs[k] = v]. *)
Definition if_truthy (k : string) (v : pyval) (kwargs : dict) : dict :=
  if truthy v then dict_set kwargs k v else kwargs.

(** Keep [(k, v)] when [v] is not [None]. *)
Definition if_not_None (k : string) (v : pyval) (kwargs : dict) : dict :=
  match v with
  | PNone => kwargs
  | _ => dict_set kwargs k v
  end.

(** [start_playback] of the service: only truthy arguments are passed
    on. *)
Definition start_playback (token : string)
    (device_id context_uri uris offset position_ms : pyval) : traced bool :=
  let kwargs := if_truthy "device_id" device_id [] in
  let kwargs := if_truthy "context_uri" context_uri kwargs in
  let kwargs := if_truthy "uris" uris kwargs in
  let kwargs := if_truthy "offset" offset kwargs in
  let kwargs := if_truthy "position_ms" position_ms kwargs in
  command token "start_playback" [] kwargs.

Definition add_tracks_to_playlist (token playlist_id : string) (items : list string)
    (position : option Z) : traced pyval :=
  query_client token "playlist_add_items" []
    [("playlist_id", PStr playlist_id); ("items", of_strs items);
     ("position", of_opt_Z position)].

(** [update_playlist_details] of the service: only the arguments that are
    not [None] are passed on. *)
Definition update_playlist_details (token playlist_id : string)
    (name : option string) (public collaborative : option bool)
    (description : option string) : traced bool :=
  let update_data := if_not_None "name" (of_opt_str name) [] in
  let update_data := if_not_None "public" (of_opt_bool public) update_data in
  let update_data := if_not_None "collaborative" (of_opt_bool collaborative) update_data in
  let update_data := if_not_None "description" (of_opt_str description) update_data in
  command token "playlist_change_details" [PStr playlist_id] update_data.

Definition get_artists (token : string) (artist_ids : list string) : traced pyval :=
  query_client token "artists" [of_strs artist_ids] [].


(* ------------------------------------------------------------------ *)
(** ** Tools (tools/playback.py, playlists.py, library.py, analysis.py) *)

(** Each tool is given by the value it serialises with [json.dumps].
    [check ok message] is [if not ok: raise ValueError(message)]. *)
Definition check (ok : bool) (message : string) : traced unit :=
  pure (if ok then Ok tt else Raise (ValueError message)).

Definition spotify_set_volume (ctx : option Context) (volume_percent : Z)
    (device_id : option string) : traced pyval :=
  handlers "Failed to set volume"
    (service <~~ service_of ctx ;;
     _ <~~ check ((0 <=? volume_percent)%Z && (volume_percent <=? 100)%Z)
             "Volume must be between 0 and 100" ;;
     _ <~~ set_volume service volume_percent device_id ;;
     pure (Ok (PDict
       [("success", PBool true);
        ("message", PStr ("Volume set to " ++ str_of_Z volume_percent ++ "%"));
        ("volume_percent", PInt volume_percent)]))).

Definition spotify_seek_to_position (ctx : option Context) (position_ms : Z)
    (device_id : option string) : traced pyval :=
  handlers "Failed to seek to position"
    (service <~~ service_of ctx ;;
     _ <~~ check (negb (position_ms <? 0)%Z) "Position must be non-negative" ;;
     _ <~~ seek_track service position_ms device_id ;;
     pure (Ok (PDict
       [("success", PBool true);
        ("message", PStr ("Seeked to position " ++ str_of_Z position_ms ++ "ms"));
        ("position_ms", PInt position_ms)]))).

Definition spotify_set_repeat_mode (ctx : option Context) (state : string)
    (device_id : option string) : traced pyval :=
  handlers "Failed to set repeat mode"
    (service <~~ service_of ctx ;;
     repeat_state <~~ pure (@enum_call RepeatState _ (lower state)) ;;
     _ <~~ set_repeat service (value repeat_state) device_id ;;
     pure (Ok (PDict
       [("success", PBool true);
        ("message", PStr ("Repeat mode set to " ++ value repeat_state));
        ("repeat_state", PStr (value repeat_state))]))).

Definition spotify_transfer_playback (ctx : option Context) (device_ids : list string)
    (play : bool) : traced pyval :=
  handlers "Failed to transfer playback"
    (service <~~ service_of ctx ;;
     _ <~~ check (match device_ids with [] => false | _ => true end)
             "At least one device ID must be provided" ;;
     _ <~~ transfer_playback service device_ids play ;;
     pure (Ok (PDict
       [("success", PBool true);
        ("message", PStr ("Playback transferred to "
                          ++ str_of_nat (List.length device_ids) ++ " device(s)"));
        ("device_ids", of_strs device_ids);
        ("force_play", PBool play)]))).

(** The keyword arguments [spotify_start_playback] builds. *)
Definition start_playback_kwargs (device_id context_uri : option string)
    (uris : option (list string)) (offset_position : option Z)
    (offset_uri : option string) (position_ms : option Z) : dict :=
  let kwargs := if_truthy "device_id" (of_opt_str device_id) [] in
  let kwargs := if_truthy "context_uri" (of_opt_str context_uri) kwargs in
  let kwargs := if_truthy "uris"
                  (match uris with Some l => of_strs l | None => PNone end) kwargs in
  let kwargs := if_truthy "position_ms" (of_opt_Z position_ms) kwargs in
  match offset_position with
  | Some p => dict_set kwargs "offset" (PDict [("position", PInt p)])
  | None =>
      if truthy (of_opt_str offset_uri)
      then dict_set kwargs "offset"
             (PDict [("uri", of_opt_str offset_uri)])
      else kwargs
  end.

(** The value of a keyword of the expanded [kwargs], [None] when it is not
    given. *)
Definition keyword (kwargs : dict) (k : string) : pyval :=
  match dict_get kwargs k with
  | Some v => v
  | None => PNone
  end.

Definition spotify_start_playback (ctx : option Context)
    (device_id context_uri : option string) (uris : option (list string))
    (offset_position : option Z) (offset_uri : option string)
    (position_ms : option Z) : traced pyval :=
  handler "Failed to start playback"
    (service <~~ service_of ctx ;;
     let kwargs := start_playback_kwargs device_id context_uri uris offset_position
                     offset_uri position_ms in
     _ <~~ start_playback service (keyword kwargs "device_id")
             (keyword kwargs "context_uri") (keyword kwargs "uris")
             (keyword kwargs "offset") (keyword kwargs "position_ms") ;;
     pure (Ok (PDict
       [("success", PBool true);
        ("message", PStr "Playback started successfully");
        ("parameters", PDict kwargs)]))).

Definition spotify_add_tracks_to_playlist (ctx : option Context) (playlist_id : string)
    (track_uris : list string) (position : option Z) : traced pyval :=
  handlers "Failed to add tracks to playlist"
    (service <~~ service_of ctx ;;
     _ <~~ check (negb (100 <? List.length track_uris)%nat)
             "Maximum 100 track URIs allowed per request" ;;
     result <~~ add_tracks_to_playlist service playlist_id track_uris position ;;
     snapshot_id <~~ pure (subscript result "snapshot_id") ;;
     pure (Ok (PDict
       [("success", PBool true);
        ("message", PStr ("Successfully added "
                          ++ str_of_nat (List.length track_uris)
                          ++ " tracks to playlist"));
        ("snapshot_id", snapshot_id);
        ("track_uris", of_strs track_uris)]))).

(** A keyword of the expanded [kwargs] as an optional string or boolean,
    [None] when it is not given. *)
Definition str_keyword (kwargs : dict) (k : string) : option string :=
  match dict_get kwargs k with
  | Some (PStr s) => Some s
  | _ => None
  end.

Definition bool_keyword (kwargs : dict) (k : string) : option bool :=
  match dict_get kwargs k with
  | Some (PBool b) => Some b
  | _ => None
  end.

(** The fields [spotify_update_playlist_details] was given:
    [update_data]. *)
Definition update_fields (name description : option string)
    (public collaborative : option bool) : dict :=
  let update_data := if_not_None "name" (of_opt_str name) [] in
  let update_data := if_not_None "description" (of_opt_str description) update_data in
  let update_data := if_not_None "public" (of_opt_bool public) update_data in
  if_not_None "collaborative" (of_opt_bool collaborative) update_data.

Definition spotify_update_playlist_details (ctx : option Context) (playlist_id : string)
    (name description : option string) (public collaborative : option bool)
    : traced pyval :=
  handlers "Failed to update playlist details"
    (service <~~ service_of ctx ;;
     let update_data := update_fields name description public collaborative in
     _ <~~ check (match update_data with [] => false | _ => true end)
             "At least one field must be provided for update" ;;
     _ <~~ update_playlist_details service playlist_id
             (str_keyword update_data "name") (bool_keyword update_data "public")
             (bool_keyword update_data "collaborative")
             (str_keyword update_data "description") ;;
     pure (Ok (PDict
       [("success", PBool true);
        ("message", PStr "Playlist details updated successfully");
        ("playlist_id", PStr playlist_id);
        ("updated_fields", of_strs (keys update_data))]))).

(** The response of [spotify_get_top_items], before [model_dump]. *)
Definition spotify_get_top_items (ctx : option Context) (type time_range : string)
    (limit offset : Z) : traced Paginated.t :=
  handlers ("Failed to get top " ++ type)
    (service <~~ service_of ctx ;;
     _ <~~ check (existsb (String.eqb type) ["artists"; "tracks"])
             "Type must be 'artists' or 'tracks'" ;;
     time_range_enum <~~ pure (@enum_call TimeRange _ (lower time_range)) ;;
     get_top_items service type time_range_enum limit offset).

Definition spotify_get_artist_info (ctx : option Context) (artist_ids : list string)
    (format : string) : traced pyval :=
  handlers "Failed to get artist info"
    (service <~~ service_of ctx ;;
     _ <~~ check (negb (50 <? List.length artist_ids)%nat)
             "Maximum 50 artist IDs allowed per request" ;;
     data_format <~~ pure (resolve_format format) ;;
     results <~~ get_artists service artist_ids ;;
     if DataFormat_eqb data_format RAW then pure (Ok results)
     else
       pure (raw <- subscript results "artists" ;;
             l <- iterate raw ;;
             artists <- mapM (fun artist =>
                                parsed_artist <- _parse_object coerce artist ARTIST data_format ;;
                                Ok (dump_if_model parsed_artist)) l ;;
             Ok (PList artists))).




End More_services.

Section Search_tool.

Variable coerce : scalar -> pyval -> option pyval.
Variable spotify : string -> Spotipy.

(** The constructor of [SearchRequest]: [limit] is constrained to 1..50
    and [offset] to 0 and more. *)
Definition SearchRequest_new (query : string) (types : list SpotifyObjectType)
    (market : string) (limit offset : Z) (format : DataFormat) : result SearchRequest :=
  if (1 <=? limit)%Z && (limit <=? 50)%Z && (0 <=? offset)%Z
  then Ok {| query := query; types := types; market := market; limit := limit;
             offset := offset; format := format |}
  else Raise (ValidationError "SearchRequest").

(** The response of [spotify_search_music], before [model_dump]. *)
Definition spotify_search_music (ctx : option Context) (query : string)
    (types : option (list string)) (market : string) (limit offset : Z)
    (format : string) : io SearchResponse :=
  tool_handlers "Failed to search music"
    (service <~ lift (tok <- get_access_token ctx ;; get_spotify_service tok) ;;
     data_format <~ lift (resolve_format format) ;;
     search_types <~ lift
       (match types with
        | Some (t :: ts) =>
            mapM (fun t => @enum_call SpotifyObjectType _ (lower t)) (t :: ts)
        | _ => Ok [TRACK]
        end) ;;
     request <~ lift (SearchRequest_new query search_types market limit offset
                        data_format) ;;
     search_music coerce spotify service request).

End Search_tool.

(* ------------------------------------------------------------------ *)
(** ** Observations on the answers of the services and tools *)

(** How a tool with an [except ValueError] clause reports an exception. *)
Definition reported (failure : string) (e : exn) : exn :=
  if is_ValueError e
  then HTTPException 400 "Invalid parameter" (Some e)
  else HTTPException 500 failure (Some e).

(** The answer of a tool to a caller error found before any request. *)
Definition rejected {A} (message : string) : traced A :=
  ([], Raise (HTTPException 400 "Invalid parameter" (Some (ValueError message)))).

(** The keywords [start_playback] of the service sends upstream for the
    arguments [kwargs] expands to. *)
Definition sent_keywords (kwargs : dict) : dict :=
  if_truthy "position_ms" (keyword kwargs "position_ms")
    (if_truthy "offset" (keyword kwargs "offset")
       (if_truthy "uris" (keyword kwargs "uris")
          (if_truthy "context_uri" (keyword kwargs "context_uri")
             (if_truthy "device_id" (keyword kwargs "device_id") [])))).

(** [[k]] when the argument is not [None]. *)
Definition given {A} (o : option A) (k : string) : list string :=
  match o with
  | Some _ => [k]
  | None => []
  end.

(** The names of the fields given to [spotify_update_playlist_details],
    in the order of the tool. *)
Definition given_fields (name description : option string)
    (public collaborative : option bool) : list string :=
  (given name "name" ++ given description "description"
   ++ given public "public" ++ given collaborative "collaborative")%list.




(** The object types [spotify_search_music] searches for the strings it
    is given: tracks when there is none, else the member each string
    names in lowercase. *)
Definition requested_types (given : option (list string))
    (search_types : list SpotifyObjectType) : Prop :=
  match given with
  | Some (t :: ts) => Forall2 (fun s m => lower s = value m) (t :: ts) search_types
  | _ => search_types = [TRACK]
  end.

Section Observed_pages.

Variable coerce : scalar -> pyval -> option pyval.

(** The cursors of a page are those of the upstream page, validated. *)
Definition cursors_of (results : pyval) (page : Paginated.t) : Prop :=
  exists total limit offset next previous,
    subscript results "total" = Ok total /\
    subscript results "limit" = Ok limit /\
    subscript results "offset" = Ok offset /\
    subscript results "next" = Ok next /\
    subscript results "previous" = Ok previous /\
    validate coerce (TOptional (TScalar SInt)) total = Some (Paginated.total page) /\
    validate coerce (TScalar SInt) limit = Some (Paginated.limit page) /\
    validate coerce (TScalar SInt) offset = Some (Paginated.offset page) /\
    validate coerce (TOptional TStr) next = Some (Paginated.next page) /\
    validate coerce (TOptional TStr) previous = Some (Paginated.previous page).

(** The item of a playback state: nothing, or the raw item normalized as
    a track at COMPACT. *)
Definition playback_item (playback_data it : pyval) : Prop :=
  it = PNone \/
  exists raw_item,
    subscript playback_data "item" = Ok raw_item /\
    _parse_track coerce raw_item COMPACT = Ok it.

End Observed_pages.

(* ------------------------------------------------------------------ *)
(** ** Sample answers of the client and of the token endpoint *)

Definition sample_page (entries : list pyval) : pyval :=
  PDict [("items", PList entries); ("total", PInt 2); ("limit", PInt 20);
         ("offset", PInt 0); ("next", PNone); ("previous", PNone)].

Definition sample_playlist : pyval :=
  PDict [("id", PStr "p1"); ("name", PStr "Mix"); ("uri", PStr "spotify:playlist:p1");
         ("href", PStr "https://api.spotify.com/v1/playlists/p1");
         ("public", PBool false); ("snapshot_id", PStr "snap-0")].

(** A playlist entry with a track, and one whose track was deleted. *)
Definition sample_entries : list pyval :=
  [PDict [("added_at", PStr "2024-05-01T10:00:00Z"); ("track", nested_track)];
   PDict [("added_at", PStr "2024-05-02T10:00:00Z"); ("track", PNone)]].

(** A saved entry with a track, and one without the key. *)
Definition sample_saved : list pyval :=
  [PDict [("added_at", PStr "2024-05-01T10:00:00Z"); ("track", nested_track)];
   PDict [("added_at", PStr "2024-05-02T10:00:00Z")]].

Definition sample_playback : pyval :=
  PDict [("repeat_state", PStr "off"); ("shuffle_state", PBool false);
         ("timestamp", PInt 1714557600000); ("is_playing", PBool true);
         ("item", nested_track); ("currently_playing_type", PStr "track")].

(** A client with fixed answers, by method. *)
Definition sample_client (token method : string) (args : list pyval) (kwargs : dict)
    : result pyval :=
  if String.eqb method "artists" then
    Ok (PDict [("artists", PList [PDict artist_with_genres; PDict track_without_id])])
  else if String.eqb method "playlist_tracks" then Ok (sample_page sample_entries)
  else if String.eqb method "current_user_top_tracks" then
    Ok (sample_page [nested_track; track_with_broken_album])
  else if String.eqb method "current_user_playlists" then
    Ok (sample_page [sample_playlist; PDict [("name", PStr "Untitled")]])
  else if String.eqb method "current_user_saved_tracks" then Ok (sample_page sample_saved)
  else if String.eqb method "current_playback" then Ok sample_playback
  else if String.eqb method "current_user" then Ok (PDict [("id", PStr "user-1")])
  else if String.eqb method "user_playlist_create" then Ok sample_playlist
  else if String.eqb method "playlist_add_items" then
    Ok (PDict [("snapshot_id", PStr "snap-1")])
  else Ok PNone.

(** A token endpoint that knows one token. *)
Definition sample_http_get (endpoint token : string) : result Response :=
  if String.eqb token "token-1" then
    Ok {| status_code := 200;
          json := Ok (PDict [("id", PStr "user-1"); ("display_name", PStr "User");
                             ("followers", PDict [("total", PInt 3)])]) |}
  else
    Ok {| status_code := 401;
          json := Ok (PDict [("error", PDict [("status", PInt 401)])]) |}.

Definition me_endpoint : string := "https://api.spotify.com/v1/me".

Definition sample_token_info : pyval :=
  Eval vm_compute in
    match validate_token strict_scalar sample_http_get me_endpoint "token-1" with
    | Some info => info
    | None => PNone
    end.

Definition sample_access_token : AccessToken :=
  Eval vm_compute in
    match verify_token strict_scalar sample_http_get me_endpoint
            ["user-read-private"] "token-1" with
    | Some a => a
    | None => {| token := PNone; client_id := PNone; scopes := [] |}
    end.

Definition empty_page : Paginated.t :=
  {| Paginated.items := []; Paginated.total := PNone; Paginated.limit := PNone;
     Paginated.offset := PNone; Paginated.next := PNone; Paginated.previous := PNone |}.

Definition sample_top_tracks : Paginated.t :=
  Eval vm_compute in
    value_of empty_page
      (answer (get_top_items strict_scalar sample_client "token-1" "tracks"
                 SHORT_TERM 20 0)).

Definition sample_playlists : Paginated.t :=
  Eval vm_compute in
    value_of empty_page
      (answer (get_user_playlists strict_scalar sample_client "token-1" 20 0 COMPACT)).

Definition sample_playback_state : pyval :=
  Eval vm_compute in
    match answer (get_current_playback strict_scalar sample_client "token-1") with
    | Ok (Some state) => state
    | _ => PNone
    end.

Definition sample_playlist_request : PlaylistCreateRequest :=
  {| playlist_name := "Mix"; description := None; public := false;
     collaborative := false |}.

(* ------------------------------------------------------------------ *)
(** ** Required fields, ASCII strings, malformed samples *)

(** The fields a model class declares without a default. *)
Definition required_fields (cls : ftype) : list string :=
  match cls with
  | TModel _ _ fs =>
      map fst (filter (fun f => match snd (snd f) with
                                | Required => true
                                | Default _ => false
                                end) fs)
  | _ => []
  end.

(** A string of ASCII characters.  On these [lower] is [str.lower()];
    on other strings it is not: [str.lower()] maps the Kelvin sign
    (U+212A) to [k], [lower] leaves its bytes as they are. *)
Fixpoint ascii_only (s : string) : bool :=
  match s with
  | EmptyString => true
  | String c r => (nat_of_ascii c <? 128)%nat && ascii_only r
  end.

(** A track without its list of artists. *)
Definition track_without_artists : dict :=
  [("id", PStr "t4"); ("name", PStr "Song"); ("uri", PStr "spotify:track:t4");
   ("href", PStr "https://api.spotify.com/v1/tracks/t4")].





(* ------------------------------------------------------------------ *)
(** * Properties *)

(** ** Basic facts about the monad and the dictionaries *)

Lemma bind_Ok_inv {A B} (m : result A) (k : A -> result B) (b : B) :
  bind m k = Ok b -> exists a, m = Ok a /\ k a = Ok b.
Proof.
  destruct m as [a|e]; simpl; intros H; [eauto | discriminate].
Qed.

Lemma mapM_total {A B} (f : A -> result B) (g : A -> B) (l : list A) :
  (forall x, f x = Ok (g x)) -> mapM f l = Ok (map g l).
Proof.
  intros Hf. induction l as [|x r IH]; simpl.
  - reflexivity.
  - rewrite Hf, IH. reflexivity.
Qed.

Lemma lower_ascii_idem (c : ascii) : lower_ascii (lower_ascii c) = lower_ascii c.
Proof.
  destruct c as [[] [] [] [] [] [] [] []]; reflexivity.
Qed.

Lemma lower_idem (s : string) : lower (lower s) = lower s.
Proof.
  induction s as [|c r IH]; simpl; [reflexivity|].
  now rewrite lower_ascii_idem, IH.
Qed.

Section Normalizer_properties.

Variable coerce : scalar -> pyval -> option pyval.

Lemma _parse_object_total obj obj_type format :
  _parse_object coerce obj obj_type format = Ok (recovered coerce obj obj_type format).
Proof.
  unfold _parse_object, recovered, try_except.
  destruct (parse_dispatch coerce obj obj_type format); reflexivity.
Qed.

(** C1: with format RAW, [_parse_object] returns its input unchanged, for
    every object (well-formed or not) and every object type. *)
Theorem raw_format_is_identity (obj : pyval) (obj_type : SpotifyObjectType) :
  _parse_object coerce obj obj_type RAW = Ok obj.
Proof.
  reflexivity.
Qed.

End Normalizer_properties.

(** C5: the enum lookup [DataFormat(s)] yields the tier whose name is the
    lowercase form of [s], and raises the enum's [ValueError] for every
    other string; so does the lookup [DataFormat(s.lower())] the tools
    make.  No string defaults to a tier. *)
Theorem format_resolution_case_insensitive (s : string) :
  @enum_call DataFormat _ s =
    match tier_of_name (lower s) with
    | Some f => Ok f
    | None => Raise (InvalidEnumValue "DataFormat" s)
    end /\
  resolve_format s =
    match tier_of_name (lower s) with
    | Some f => Ok f
    | None => Raise (InvalidEnumValue "DataFormat" (lower s))
    end.
Proof.
  assert (Hcall : forall v,
    @enum_call DataFormat _ v =
      match tier_of_name (lower v) with
      | Some f => Ok f
      | None => Raise (InvalidEnumValue "DataFormat" v)
      end).
  { intros v. unfold enum_call, _missing_, tier_of_name.
    cbn [find members value DataFormat_enum].
    change (lower "minimal") with "minimal". change (lower "compact") with "compact".
    change (lower "full") with "full". change (lower "raw") with "raw".
    destruct (String.eqb_spec "minimal" v) as [<-|_]; [reflexivity|].
    destruct (String.eqb_spec "compact" v) as [<-|_]; [reflexivity|].
    destruct (String.eqb_spec "full" v) as [<-|_]; [reflexivity|].
    destruct (String.eqb_spec "raw" v) as [<-|_]; [reflexivity|].
    rewrite (String.eqb_sym "minimal"), (String.eqb_sym "compact"),
            (String.eqb_sym "full"), (String.eqb_sym "raw").
    destruct (String.eqb (lower v) "minimal"); [reflexivity|].
    destruct (String.eqb (lower v) "compact"); [reflexivity|].
    destruct (String.eqb (lower v) "full"); [reflexivity|].
    destruct (String.eqb (lower v) "raw"); reflexivity. }
  split; [apply Hcall|].
  unfold resolve_format. rewrite Hcall, lower_idem. reflexivity.
Qed.

(* ------------------------------------------------------------------ *)
(** ** Reasoning about the builders *)

Lemma validate_model_dict coerce name extra fs d :
  validate coerce (TModel name extra fs) (PDict d) =
    match omap (field_value coerce d) fs with
    | Some vals =>
        Some (PModel name
                (vals ++ filter (fun kv => extra && negb (declared fs (fst kv))) d)
                (filter (fun k => declared fs k || extra) (keys d)))
    | None => None
    end.
Proof. reflexivity. Qed.

Lemma incl_by_check (l1 l2 : list string) :
  forallb (fun x => existsb (String.eqb x) l2) l1 = true -> incl l1 l2.
Proof.
  intros H x Hx. rewrite forallb_forall in H. specialize (H x Hx).
  apply existsb_exists in H. destruct H as (y & Hy & E).
  apply String.eqb_eq in E. now subst.
Qed.


Lemma in_by_check (k : string) (l : list string) :
  existsb (String.eqb k) l = true -> In k l.
Proof.
  intros H. apply existsb_exists in H. destruct H as (y & Hy & E).
  apply String.eqb_eq in E. now subst.
Qed.

Lemma dispatch_Ok_parse_object coerce obj obj_type format v :
  parse_dispatch coerce obj obj_type format = Ok v ->
  _parse_object coerce obj obj_type format = Ok v.
Proof.
  intros H. unfold _parse_object. rewrite H. reflexivity.
Qed.

Lemma dispatch_Raise_parse_object coerce obj obj_type format e :
  parse_dispatch coerce obj obj_type format = Raise e ->
  _parse_object coerce obj obj_type format = Ok obj.
Proof.
  intros H. unfold _parse_object. rewrite H. reflexivity.
Qed.

(** Unfold the dispatch and the builder it selects, and decide the tier
    tests of a known format. *)
Ltac unfold_builders :=
  unfold parse_dispatch, _parse_track, _parse_artist, _parse_album, _parse_playlist,
    track_base_data, artist_base_data, album_base_data, playlist_base_data in *;
  cbn [compact_or_full existsb DataFormat_eqb orb] in *.

(** Turn every successful sequence of reads into one equation per read. *)
Ltac peel :=
  repeat match goal with
  | H : bind ?m _ = Ok _ |- _ =>
      let a := fresh "v" in
      let E := fresh "E" in
      apply bind_Ok_inv in H; destruct H as (a & E & H); cbn beta in H
  | H : Ok _ = Ok _ |- _ => injection H as H; try subst
  end.

(** Replay in the goal the reads known to succeed. *)
Ltac replay :=
  repeat match goal with
  | E : subscript ?o ?k = Ok _ |- context [subscript ?o ?k] => rewrite E; cbn [bind]
  | E : get ?o ?k = Ok _ |- context [get ?o ?k] => rewrite E; cbn [bind]
  | E : parse_artists ?c ?o = Ok _ |- context [parse_artists ?c ?o] =>
      rewrite E; cbn [bind]
  | E : parse_nested_album ?c ?o = Ok _ |- context [parse_nested_album ?c ?o] =>
      rewrite E; cbn [bind]
  end.

Ltac eval_dicts :=
  cbn [dict_update fold_left dict_set fst snd String.eqb Ascii.eqb Bool.eqb] in *.

Ltac eval_fields :=
  cbn [omap field_value Track_fields Artist_fields Album_fields Playlist_fields
       req opt dict_get String.eqb Ascii.eqb Bool.eqb option_map fst snd].

Ltac open_construct :=
  unfold construct, Track, Artist, Album, Playlist;
  rewrite !validate_model_dict; eval_fields.

(** One case per validated field; a rejected field contradicts the
    success of the constructor. *)
Ltac split_validations :=
  repeat match goal with
  | |- context [validate ?c ?t ?x] =>
      destruct (validate c t x) eqn:?; eval_fields; [|discriminate]
  end.

Ltac same_fields :=
  let k := fresh "k" in
  let Hk := fresh "Hk" in
  intros k Hk; cbn in Hk;
  repeat (destruct Hk as [<-|Hk]; [reflexivity|]); contradiction.

Section Tiering.

Variable coerce : scalar -> pyval -> option pyval.

(** C2, as the code has it: when the builder of a catalog type succeeds
    at a tier F2, it succeeds at every lower tier F1 on the same input,
    the fields populated at F1 are among the fields populated at F2, and
    each of them has the same value in both objects. *)
Theorem tiering_monotone_when_builder_succeeds
    (raw : pyval) (obj_type : SpotifyObjectType) (F1 F2 : DataFormat) (m2 : pyval) :
  In obj_type catalog_types ->
  tier_le F1 F2 ->
  parse_dispatch coerce raw obj_type F2 = Ok m2 ->
  exists m1,
    parse_dispatch coerce raw obj_type F1 = Ok m1 /\
    _parse_object coerce raw obj_type F1 = Ok m1 /\
    _parse_object coerce raw obj_type F2 = Ok m2 /\
    incl (populated m1) (populated m2) /\
    forall k, In k (populated m1) -> model_field m1 k = model_field m2 k.
Proof.
  intros Hty Hle H.
  cut (exists m1, parse_dispatch coerce raw obj_type F1 = Ok m1 /\
         incl (populated m1) (populated m2) /\
         forall k, In k (populated m1) -> model_field m1 k = model_field m2 k).
  { intros (m1 & H1 & Hincl & Hsame). exists m1.
    repeat split; auto using dispatch_Ok_parse_object. }
  assert (Hty' : obj_type = TRACK \/ obj_type = ARTIST \/ obj_type = ALBUM
                 \/ obj_type = PLAYLIST).
  { simpl in Hty. intuition congruence. }
  clear Hty.
  destruct F1, F2; unfold tier_le in Hle; cbn in Hle; try lia; try contradiction;
    try (exists m2; split; [exact H | split; [apply incl_refl | reflexivity]]);
    destruct Hty' as [-> | [-> | [-> | ->]]];
    unfold_builders; peel; replay; eval_dicts;
    match goal with Hc : construct _ _ _ = Ok _ |- _ => revert Hc end;
    open_construct; split_validations;
    (let Hc := fresh "Hc" in intros Hc; injection Hc as <-);
    (eexists; split; [reflexivity|]);
    cbn [populated model_field];
    (split; [apply incl_by_check; reflexivity | same_fields]).
Qed.

End Tiering.

(* ------------------------------------------------------------------ *)
(** ** Required and optional fields *)

Lemma dict_get_remove_same (d : dict) (k : string) :
  dict_get (dict_remove d k) k = None.
Proof.
  induction d as [|[k' v] r IH]; simpl; [reflexivity|].
  destruct (String.eqb_spec k' k); simpl; [exact IH|].
  destruct (String.eqb_spec k' k); [contradiction | exact IH].
Qed.

Lemma dict_get_remove_other (d : dict) (k j : string) :
  j <> k -> dict_get (dict_remove d k) j = dict_get d j.
Proof.
  intros Hjk. induction d as [|[k' v] r IH]; simpl; [reflexivity|].
  destruct (String.eqb_spec k' k) as [->|Hk]; simpl.
  - destruct (String.eqb_spec k j); [congruence | exact IH].
  - destruct (String.eqb_spec k' j); [reflexivity | exact IH].
Qed.

Lemma subscript_remove (d : dict) (k j : string) :
  j <> k -> subscript (PDict (dict_remove d k)) j = subscript (PDict d) j.
Proof.
  intros H. unfold subscript. now rewrite dict_get_remove_other.
Qed.

Lemma get_remove (d : dict) (k j : string) :
  j <> k -> get (PDict (dict_remove d k)) j = get (PDict d) j.
Proof.
  intros H. unfold get, get_default. now rewrite dict_get_remove_other.
Qed.

Lemma get_remove_same (d : dict) (k : string) :
  get (PDict (dict_remove d k)) k = Ok PNone.
Proof.
  unfold get, get_default. now rewrite dict_get_remove_same.
Qed.

Lemma parse_artists_remove coerce (d : dict) (k : string) :
  "artists" <> k ->
  parse_artists coerce (PDict (dict_remove d k)) = parse_artists coerce (PDict d).
Proof.
  intros H. unfold parse_artists, get_default. now rewrite dict_get_remove_other.
Qed.

Lemma parse_nested_album_remove coerce (d : dict) (k : string) :
  "album" <> k ->
  parse_nested_album coerce (PDict (dict_remove d k))
  = parse_nested_album coerce (PDict d).
Proof.
  intros H. unfold parse_nested_album.
  rewrite get_remove, subscript_remove by exact H. reflexivity.
Qed.

Lemma parse_nested_album_removed coerce (d : dict) :
  parse_nested_album coerce (PDict (dict_remove d "album")) = Ok PNone.
Proof.
  unfold parse_nested_album. rewrite get_remove_same. reflexivity.
Qed.

Lemma validate_optional_none coerce (t : ftype) :
  validate coerce (TOptional t) PNone = Some PNone.
Proof. reflexivity. Qed.

(** Rewrite the reads of a dictionary from which one key was removed. *)
Ltac reads_after_removal :=
  rewrite ?parse_nested_album_removed, ?get_remove_same;
  rewrite ?subscript_remove, ?get_remove, ?parse_artists_remove,
          ?parse_nested_album_remove by discriminate.

(** Compare two field lists at a key other than the one removed. *)
Ltac other_fields j Hj :=
  cbn [model_field dict_get];
  repeat match goal with
  | |- context [String.eqb ?a j] =>
      destruct (String.eqb_spec a j); [try reflexivity; congruence|]
  end;
  reflexivity.

Ltac missing_key d k :=
  destruct (dict_get d k) eqn:?;
  [cbn [bind] | exists k; repeat split; (assumption || (simpl; tauto))].

Lemma dict_get_set_other (d : dict) (k j : string) (v : pyval) :
  j <> k -> dict_get (dict_set d k v) j = dict_get d j.
Proof.
  intros Hjk. induction d as [|[a x] r IH]; simpl.
  - destruct (String.eqb_spec k j); [congruence | reflexivity].
  - destruct (String.eqb_spec a k) as [->|Hak]; simpl.
    + destruct (String.eqb_spec k j); [congruence | reflexivity].
    + rewrite IH. reflexivity.
Qed.

Lemma dict_get_set_same (d : dict) (k : string) (v : pyval) :
  dict_get (dict_set d k v) k = Some v.
Proof.
  induction d as [|[a x] r IH]; simpl.
  - now rewrite String.eqb_refl.
  - destruct (String.eqb_spec a k) as [->|Hak]; simpl.
    + now rewrite String.eqb_refl.
    + destruct (String.eqb_spec a k); [contradiction | exact IH].
Qed.

Lemma subscript_set_other (d : dict) (k j : string) (v : pyval) :
  j <> k -> subscript (PDict (dict_set d k v)) j = subscript (PDict d) j.
Proof. intros H. unfold subscript. now rewrite dict_get_set_other. Qed.

Lemma get_set_other (d : dict) (k j : string) (v : pyval) :
  j <> k -> get (PDict (dict_set d k v)) j = get (PDict d) j.
Proof. intros H. unfold get, get_default. now rewrite dict_get_set_other. Qed.

Lemma parse_nested_album_set_other coerce (d : dict) (k : string) (v : pyval) :
  "album" <> k ->
  parse_nested_album coerce (PDict (dict_set d k v))
  = parse_nested_album coerce (PDict d).
Proof.
  intros H. unfold parse_nested_album.
  rewrite get_set_other, subscript_set_other by exact H. reflexivity.
Qed.

Lemma parse_artists_missing coerce (d : dict) :
  dict_get d "artists" = None -> parse_artists coerce (PDict d) = Ok (PList []).
Proof. intros H. unfold parse_artists, get_default. rewrite H. reflexivity. Qed.

Lemma parse_artists_empty coerce (d : dict) :
  parse_artists coerce (PDict (dict_set d "artists" (PList []))) = Ok (PList []).
Proof. unfold parse_artists, get_default. rewrite dict_get_set_same. reflexivity. Qed.

Lemma validate_empty_list coerce (t : ftype) :
  validate coerce (TList t) (PList []) = Some (PList []).
Proof. reflexivity. Qed.

Section Required_and_optional.

Variable coerce : scalar -> pyval -> option pyval.

Lemma missing_required_raises (d : dict) (obj_type : SpotifyObjectType)
    (format : DataFormat) (k : string) :
  In obj_type catalog_types -> format <> RAW ->
  In k required_keys -> dict_get d k = None ->
  exists k', In k' required_keys /\ dict_get d k' = None /\
             parse_dispatch coerce (PDict d) obj_type format = Raise (KeyError k').
Proof.
  intros Hty Hfmt Hk Hnone.
  assert (Hone : dict_get d "id" = None \/ dict_get d "name" = None \/
                 dict_get d "uri" = None \/ dict_get d "href" = None).
  { simpl in Hk. destruct Hk as [<-|[<-|[<-|[<-|[]]]]]; tauto. }
  clear Hk Hnone.
  assert (Hty' : obj_type = TRACK \/ obj_type = ARTIST \/ obj_type = ALBUM
                 \/ obj_type = PLAYLIST).
  { simpl in Hty. intuition congruence. }
  clear Hty.
  assert (Hfmt' : DataFormat_eqb format RAW = false).
  { destruct format; try reflexivity. congruence. }
  unfold parse_dispatch. rewrite Hfmt'.
  destruct Hty' as [-> | [-> | [-> | ->]]];
    unfold _parse_track, _parse_artist, _parse_album, _parse_playlist,
      track_base_data, artist_base_data, album_base_data, playlist_base_data,
      subscript;
    missing_key d "id"; missing_key d "name";
    missing_key d "uri"; missing_key d "href";
    exfalso; intuition congruence.
Qed.

(** The builders of Track and Album read [artists] with a default: a
    dictionary without the key is normalized as the same dictionary with
    an empty list of artists. *)
Lemma missing_artists_default (d : dict) (obj_type : SpotifyObjectType)
    (format : DataFormat) :
  In obj_type [TRACK; ALBUM] -> format <> RAW -> dict_get d "artists" = None ->
  parse_dispatch coerce (PDict d) obj_type format
  = parse_dispatch coerce (PDict (dict_set d "artists" (PList []))) obj_type format.
Proof.
  intros Hty Hfmt Hnone.
  assert (Hty' : obj_type = TRACK \/ obj_type = ALBUM)
    by (simpl in Hty; intuition congruence).
  destruct Hty' as [-> | ->]; destruct format; try congruence;
    unfold_builders;
    rewrite ?parse_artists_empty, ?(parse_artists_missing coerce d Hnone);
    rewrite ?subscript_set_other, ?get_set_other, ?parse_nested_album_set_other
      by discriminate;
    reflexivity.
Qed.

Lemma missing_artists_field (d : dict) (obj_type : SpotifyObjectType)
    (format : DataFormat) (m : pyval) :
  In obj_type [TRACK; ALBUM] -> format <> RAW -> dict_get d "artists" = None ->
  parse_dispatch coerce (PDict d) obj_type format = Ok m ->
  model_field m "artists" = Some (PList []).
Proof.
  intros Hty Hfmt Hnone H.
  assert (Hty' : obj_type = TRACK \/ obj_type = ALBUM)
    by (simpl in Hty; intuition congruence).
  destruct Hty' as [-> | ->]; destruct format; try congruence;
    unfold_builders;
    rewrite (parse_artists_missing coerce d Hnone) in H;
    peel; eval_dicts;
    match goal with Hc : construct _ _ _ = Ok _ |- _ => revert Hc end;
    open_construct; rewrite validate_empty_list; eval_fields; split_validations;
    (let Hc := fresh "Hc" in intros Hc; injection Hc as <-);
    reflexivity.
Qed.

(** The required fields of the four models: the four keys, and [artists]
    for Track and Album. *)
Lemma required_fields_of_models (obj_type : SpotifyObjectType) (k : string) :
  In obj_type catalog_types ->
  (In k (required_fields (slot_class obj_type)) <->
   In k required_keys \/ (k = "artists" /\ In obj_type [TRACK; ALBUM])).
Proof.
  intros Hty.
  assert (Hty' : obj_type = TRACK \/ obj_type = ARTIST \/ obj_type = ALBUM
                 \/ obj_type = PLAYLIST).
  { simpl in Hty. intuition congruence. }
  destruct Hty' as [-> | [-> | [-> | ->]]]; cbn; split; intros H;
    intuition (try discriminate; auto).
Qed.

(** C3, as the code has it: for every catalog type and every format other
    than RAW, (a) a dictionary that lacks [id], [name], [uri] or [href]
    makes the builder raise [KeyError] for a missing key, no default being
    put in its place, and [_parse_object] hands back the raw dictionary;
    (b) when a dictionary normalizes, the dictionary without one of the
    optional keys of the tier normalizes too: that field is [None] in
    the result and every other field is as before; (c) the fifth
    required field of the models, [artists] of Track and Album, is read
    with a default: a dictionary without it is normalized as the same
    dictionary with an empty list of artists, and the field is the empty
    list in the result; (d) the models have no other required field. *)
Theorem required_fields_fail_optional_fields_are_absent :
  (forall (d : dict) (obj_type : SpotifyObjectType) (format : DataFormat) (k : string),
     In obj_type catalog_types -> format <> RAW ->
     In k required_keys -> dict_get d k = None ->
     (exists k', In k' required_keys /\ dict_get d k' = None /\
        parse_dispatch coerce (PDict d) obj_type format = Raise (KeyError k')) /\
     _parse_object coerce (PDict d) obj_type format = Ok (PDict d)) /\
  (forall (d : dict) (obj_type : SpotifyObjectType) (format : DataFormat)
          (k : string) (m : pyval),
     In obj_type catalog_types ->
     In k (optional_fields obj_type format) ->
     parse_dispatch coerce (PDict d) obj_type format = Ok m ->
     exists m',
       parse_dispatch coerce (PDict (dict_remove d k)) obj_type format = Ok m' /\
       In k (populated m') /\
       model_field m' k = Some PNone /\
       forall j, j <> k -> model_field m' j = model_field m j) /\
  (forall (d : dict) (obj_type : SpotifyObjectType) (format : DataFormat),
     In obj_type [TRACK; ALBUM] -> format <> RAW -> dict_get d "artists" = None ->
     In "artists" (required_fields (slot_class obj_type)) /\
     parse_dispatch coerce (PDict d) obj_type format
     = parse_dispatch coerce (PDict (dict_set d "artists" (PList []))) obj_type format /\
     forall m, parse_dispatch coerce (PDict d) obj_type format = Ok m ->
               model_field m "artists" = Some (PList [])) /\
  (forall (obj_type : SpotifyObjectType) (k : string),
     In obj_type catalog_types ->
     (In k (required_fields (slot_class obj_type)) <->
      In k required_keys \/ (k = "artists" /\ In obj_type [TRACK; ALBUM]))).
Proof.
  split; [|split; [|split]].
  4: exact required_fields_of_models.
  3: { intros d obj_type format Hty Hfmt Hnone. split; [|split].
       - simpl in Hty. destruct Hty as [<-|[<-|[]]]; simpl; tauto.
       - exact (@missing_artists_default d obj_type format Hty Hfmt Hnone).
       - intros m H.
         exact (@missing_artists_field d obj_type format m Hty Hfmt Hnone H). }
  - intros d obj_type format k Hty Hfmt Hk Hnone.
    destruct (@missing_required_raises d obj_type format k Hty Hfmt Hk Hnone)
      as (k' & Hk' & Hnone' & Hraise).
    split; [eauto|].
    eapply dispatch_Raise_parse_object; eassumption.
  - intros d obj_type format k m Hty Hk H.
    assert (Hty' : obj_type = TRACK \/ obj_type = ARTIST \/ obj_type = ALBUM
                   \/ obj_type = PLAYLIST).
    { simpl in Hty. intuition congruence. }
    clear Hty.
    destruct Hty' as [-> | [-> | [-> | ->]]]; destruct format;
      cbn [optional_fields compact_optional full_optional app In] in Hk;
      repeat (destruct Hk as [<-|Hk]); try contradiction;
      unfold_builders; peel; reads_after_removal; replay; eval_dicts;
      match goal with Hc : construct _ _ _ = Ok _ |- _ => revert Hc end;
      open_construct; rewrite ?validate_optional_none; eval_fields;
      split_validations; cbn;
      (let Hc := fresh "Hc" in intros Hc; injection Hc as <-);
      (eexists; split; [reflexivity|]);
      (split; [apply in_by_check; reflexivity|]);
      (split; [reflexivity|]);
      (let j := fresh "j" in
       let Hj := fresh "Hj" in
       intros j Hj; other_fields j Hj).
Qed.

End Required_and_optional.

(* ------------------------------------------------------------------ *)
(** ** Nested references *)

Section Nesting.

Variable coerce : scalar -> pyval -> option pyval.

Lemma parse_artist_plain (raw a : pyval) (format : DataFormat) :
  format <> RAW -> _parse_artist coerce raw format = Ok a -> plain_artist a.
Proof.
  intros Hfmt H.
  destruct format; try congruence;
    unfold_builders; peel; eval_dicts;
    match goal with Hc : construct _ _ _ = Ok _ |- _ => revert Hc end;
    open_construct; split_validations;
    (let Hc := fresh "Hc" in intros Hc; injection Hc as <-);
    split; reflexivity.
Qed.

Lemma mapM_Forall {A B} (f : A -> result B) (P : B -> Prop) (l : list A) (out : list B) :
  (forall x y, f x = Ok y -> P y) -> mapM f l = Ok out -> Forall P out.
Proof.
  intros Hf. revert out. induction l as [|x r IH]; simpl; intros out H.
  - injection H as <-. constructor.
  - apply bind_Ok_inv in H. destruct H as (y & Hy & H).
    apply bind_Ok_inv in H. destruct H as (ys & Hys & H).
    injection H as <-. constructor; eauto.
Qed.

Lemma parse_artists_spec (raw v : pyval) :
  parse_artists coerce raw = Ok v ->
  exists l parsed,
    raw_artists raw = Ok l /\
    mapM (fun artist => _parse_artist coerce artist MINIMAL) l = Ok parsed /\
    v = PList parsed /\ Forall plain_artist parsed.
Proof.
  unfold parse_artists, raw_artists. intros H.
  apply bind_Ok_inv in H. destruct H as (arts & E1 & H).
  apply bind_Ok_inv in H. destruct H as (l & E2 & H).
  apply bind_Ok_inv in H. destruct H as (parsed & E3 & H).
  injection H as <-. exists l, parsed. rewrite E1. simpl. repeat split; auto.
  eapply mapM_Forall; [|exact E3].
  intros x y Hxy. eapply parse_artist_plain; [|exact Hxy]. discriminate.
Qed.

Lemma validate_instance (name : string) (extra : bool) (fs : list field) (a : pyval) :
  is_instance name a = true ->
  validate coerce (TModel name extra fs) a = Some a.
Proof.
  destruct a; try discriminate. cbn [validate is_instance].
  intros ->. reflexivity.
Qed.

Lemma validate_instances (name : string) (extra : bool) (fs : list field) (l : list pyval) :
  Forall (fun a => is_instance name a = true) l ->
  validate coerce (TList (TModel name extra fs)) (PList l) = Some (PList l).
Proof.
  intros H.
  assert (E : omap (validate coerce (TModel name extra fs)) l = Some l).
  { induction H as [|a r Ha Hr IH]; [reflexivity|].
    cbn [omap]. rewrite (@validate_instance name extra fs a Ha), IH. reflexivity. }
  change (validate coerce (TList (TModel name extra fs)) (PList l))
    with (option_map PList (omap (validate coerce (TModel name extra fs)) l)).
  rewrite E. reflexivity.
Qed.

Lemma validate_plain_artists (l : list pyval) :
  Forall plain_artist l ->
  validate coerce (TList Artist) (PList l) = Some (PList l).
Proof.
  intros H. apply validate_instances.
  eapply Forall_impl; [|exact H]. intros a [Ha _]. exact Ha.
Qed.

Lemma plain_artists_depth (l : list pyval) :
  Forall plain_artist l -> list_max (map nesting_depth l) <= 1.
Proof.
  induction 1 as [|a r [_ Ha] _ IH]; simpl; [lia|]. rewrite Ha. lia.
Qed.

(** A MINIMAL album: an [Album] instance whose artists are plain. *)
Lemma parse_album_shape (raw m : pyval) (format : DataFormat) :
  format <> RAW -> _parse_album coerce raw format = Ok m ->
  exists l parsed,
    raw_artists raw = Ok l /\
    mapM (fun artist => _parse_artist coerce artist MINIMAL) l = Ok parsed /\
    model_field m "artists" = Some (PList parsed) /\
    is_instance "Album" m = true /\
    nesting_depth m = S (list_max (map nesting_depth parsed)) /\
    nesting_depth m <= 2.
Proof.
  intros Hfmt H.
  destruct format; try congruence;
    unfold_builders; peel;
    match goal with E : parse_artists _ _ = Ok _ |- _ =>
      apply parse_artists_spec in E;
      destruct E as (l & parsed & El & Ep & -> & Hplain) end;
    exists l, parsed; eval_dicts;
    match goal with Hc : construct _ _ _ = Ok _ |- _ => revert Hc end;
    open_construct; rewrite (validate_plain_artists Hplain); eval_fields;
    split_validations;
    (let Hc := fresh "Hc" in intros Hc; injection Hc as <-);
    pose proof (plain_artists_depth Hplain);
    repeat split; auto; cbn; lia.
Qed.

Lemma parse_nested_album_spec (raw alb : pyval) :
  parse_nested_album coerce raw = Ok alb ->
  alb = PNone \/
  exists album, subscript raw "album" = Ok album /\
                _parse_album coerce album MINIMAL = Ok alb.
Proof.
  unfold parse_nested_album. intros H.
  apply bind_Ok_inv in H. destruct H as (c & Ec & H).
  destruct (truthy c).
  - apply bind_Ok_inv in H. destruct H as (album & Ea & H). right. eauto.
  - injection H as <-. now left.
Qed.

Lemma validate_nested_album (alb : pyval) :
  alb = PNone \/ is_instance "Album" alb = true ->
  validate coerce (TOptional Album) alb = Some alb.
Proof.
  intros [-> | H]; [reflexivity|].
  destruct alb as [| | | | | | |cls fields fields_set]; try discriminate.
  change (validate coerce (TOptional Album) (PModel cls fields fields_set))
    with (validate coerce Album (PModel cls fields fields_set)).
  apply validate_instance. exact H.
Qed.

End Nesting.

Section Nested_references.

Variable coerce : scalar -> pyval -> option pyval.

Lemma nested_album_shape (raw alb : pyval) :
  parse_nested_album coerce raw = Ok alb ->
  (alb = PNone \/ is_instance "Album" alb = true) /\
  nesting_depth alb <= 2 /\
  (alb = PNone \/
   exists album, subscript raw "album" = Ok album /\
                 _parse_album coerce album MINIMAL = Ok alb).
Proof.
  intros H. destruct (@parse_nested_album_spec coerce _ _ H) as [-> | (album & Ea & Hp)].
  - repeat split; auto.
  - assert (Hm : MINIMAL <> RAW) by discriminate.
    destruct (@parse_album_shape coerce _ _ _ Hm Hp) as (l & parsed & _ & _ & _ & Hi & _ & Hd).
    repeat split; eauto.
Qed.

(** C6, as the code has it: whenever the builder of an Album or a Track
    succeeds, at any format other than RAW, the nested artists of the
    object it returns are the raw artists normalized by [_parse_artist] at
    MINIMAL, without nested objects of their own; the album of a Track is
    [None] (always so at MINIMAL, where the field is not populated) or
    the raw album normalized by [_parse_album] at MINIMAL.  Hence an
    Album nests one level of objects (its artists) and a Track at most
    two (its album and the artists of that album), never more.  When the
    builder raises, [_parse_object] hands back the raw object, whose
    nested references are as they came. *)
Theorem nested_references_are_minimal_and_bounded :
  (forall (raw : pyval) (format : DataFormat) (m : pyval),
     format <> RAW -> _parse_album coerce raw format = Ok m ->
     exists l parsed,
       raw_artists raw = Ok l /\
       mapM (fun artist => _parse_artist coerce artist MINIMAL) l = Ok parsed /\
       model_field m "artists" = Some (PList parsed) /\
       Forall plain_artist parsed /\
       nesting_depth m <= 2) /\
  (forall (raw : pyval) (format : DataFormat) (m : pyval),
     format <> RAW -> _parse_track coerce raw format = Ok m ->
     (exists l parsed,
        raw_artists raw = Ok l /\
        mapM (fun artist => _parse_artist coerce artist MINIMAL) l = Ok parsed /\
        model_field m "artists" = Some (PList parsed) /\
        Forall plain_artist parsed) /\
     (exists alb,
        model_field m "album" = Some alb /\
        (alb = PNone \/
         exists album, compact_or_full format = true /\
                       subscript raw "album" = Ok album /\
                       _parse_album coerce album MINIMAL = Ok alb)) /\
     nesting_depth m <= 3) /\
  (forall (raw : pyval) (obj_type : SpotifyObjectType) (format : DataFormat) (e : exn),
     In obj_type [TRACK; ALBUM] -> format <> RAW ->
     parse_dispatch coerce raw obj_type format = Raise e ->
     (match obj_type with
      | TRACK => _parse_track coerce raw format
      | _ => _parse_album coerce raw format
      end = Raise e) /\
     _parse_object coerce raw obj_type format = Ok raw).
Proof.
  split; [|split].
  3: { intros raw obj_type format e Hty Hfmt H. split.
       - assert (Hraw : DataFormat_eqb format RAW = false)
           by (destruct format; try reflexivity; congruence).
         unfold parse_dispatch in H. rewrite Hraw in H.
         simpl in Hty. destruct Hty as [<-|[<-|[]]]; exact H.
       - exact (@dispatch_Raise_parse_object coerce raw obj_type format e H). }
  - intros raw format m Hfmt H.
    destruct (@parse_album_shape coerce _ _ _ Hfmt H) as (l & parsed & El & Ep & Hf & _ & _ & Hd).
    exists l, parsed. repeat split; auto.
    eapply mapM_Forall; [|exact Ep].
    intros x y Hxy. eapply parse_artist_plain; [|exact Hxy]. discriminate.
  - intros raw format m Hfmt H.
    destruct format; try congruence;
      unfold_builders; peel;
      match goal with E : parse_artists _ _ = Ok _ |- _ =>
        apply parse_artists_spec in E;
        destruct E as (l & parsed & El & Ep & -> & Hplain) end;
      try match goal with E : parse_nested_album _ _ = Ok _ |- _ =>
        apply nested_album_shape in E;
        destruct E as (Hinst & Hdepth & Halb) end;
      eval_dicts;
      match goal with Hc : construct _ _ _ = Ok _ |- _ => revert Hc end;
      open_construct; rewrite (@validate_plain_artists coerce _ Hplain);
      try rewrite (@validate_nested_album coerce _ Hinst);
      eval_fields; split_validations;
      (let Hc := fresh "Hc" in intros Hc; injection Hc as <-);
      pose proof (plain_artists_depth Hplain);
      (split; [exists l, parsed; repeat split; auto|]);
      (split; [eexists; split; [reflexivity|];
               first [now left
                     | destruct Halb as [->|(album & Ea & Hp)];
                       [now left | right; exists album; repeat split; auto]]
              | cbn; lia]).
Qed.
End Nested_references.

(* ------------------------------------------------------------------ *)
(** ** Audio features *)

Lemma features_loop_spec coerce (l acc : list pyval) :
  features_loop coerce l acc =
    (feats <- mapM (AudioFeatures_new coerce) (filter truthy l) ;;
     Ok (acc ++ feats)%list).
Proof.
  revert acc. induction l as [|x r IH]; intros acc; simpl.
  - now rewrite app_nil_r.
  - destruct (truthy x); simpl; [|apply IH].
    destruct (AudioFeatures_new coerce x) as [f|e]; simpl; [|reflexivity].
    rewrite IH.
    destruct (mapM (AudioFeatures_new coerce) (filter truthy r)); simpl;
      [|reflexivity].
    now rewrite <- app_assoc.
Qed.

Lemma mapM_length {A B} (f : A -> result B) (l : list A) (out : list B) :
  mapM f l = Ok out -> List.length out = List.length l.
Proof.
  revert out. induction l as [|x r IH]; simpl; intros out H.
  - now injection H as <-.
  - apply bind_Ok_inv in H. destruct H as (y & Hy & H).
    apply bind_Ok_inv in H. destruct H as (ys & Hys & H).
    injection H as <-. simpl. f_equal. auto.
Qed.

Lemma filter_truthy_drops_None (l : list pyval) :
  In PNone l -> List.length (filter truthy l) < List.length l.
Proof.
  induction l as [|x r IH]; simpl; [tauto|].
  intros [->|H].
  - simpl. pose proof (filter_length_le truthy r). lia.
  - specialize (IH H). destruct (truthy x); simpl; lia.
Qed.

Section Audio_features.

Variable coerce : scalar -> pyval -> option pyval.
Variable spotify : string -> Spotipy.

Lemma get_track_audio_features_calls token ids :
  calls (get_track_audio_features coerce spotify token ids)
  = [CallAudioFeatures token ids].
Proof.
  unfold get_track_audio_features, io_try, io_bind, upstream, lift, calls.
  destruct (audio_features (spotify token) ids) as [results|e]; simpl; [|reflexivity].
  destruct (l <- iterate results ;; features_loop coerce l []); reflexivity.
Qed.

(** C7: a request with more than 100 track ids makes no upstream call and,
    for a caller with a bearer token, fails with the batch-size error
    (status 400); with at most 100 ids the check passes and the service
    calls upstream, once, with the ids given. *)
Theorem audio_features_batch_limit (ctx : option Context) (track_ids : list string) :
  (100 < List.length track_ids ->
     calls (spotify_get_track_audio_features coerce spotify ctx track_ids) = [] /\
     forall token, get_access_token ctx = Ok token ->
       spotify_get_track_audio_features coerce spotify ctx track_ids =
         ([], Raise (HTTPException 400 "Invalid parameter"
                       (Some (ValueError "Maximum 100 track IDs allowed per request"))))) /\
  (List.length track_ids <= 100 ->
     forall token, get_access_token ctx = Ok token ->
       calls (spotify_get_track_audio_features coerce spotify ctx track_ids)
         = [CallAudioFeatures token track_ids] /\
       forall features,
         outcome (get_track_audio_features coerce spotify token track_ids) = Ok features ->
         outcome (spotify_get_track_audio_features coerce spotify ctx track_ids)
           = Ok (PList (map model_dump features))).
Proof.
  unfold spotify_get_track_audio_features, tool_handlers.
  split; intros Hlen.
  - apply Nat.ltb_lt in Hlen. split.
    + destruct (get_access_token ctx) as [token|e];
        cbn [bind get_spotify_service lift io_bind io_try].
      * rewrite Hlen. reflexivity.
      * destruct (is_ValueError e); reflexivity.
    + intros token Htok. rewrite Htok.
      cbn [bind get_spotify_service lift io_bind]. rewrite Hlen. reflexivity.
  - intros token Htok. rewrite Htok. cbn [bind get_spotify_service lift io_bind].
    assert (E : (100 <? List.length track_ids)%nat = false) by (apply Nat.ltb_ge; lia).
    rewrite E. cbn [io_bind app].
    pose proof (get_track_audio_features_calls token track_ids) as Hc.
    destruct (get_track_audio_features coerce spotify token track_ids) as [t [fs|e]];
      unfold calls, outcome in *; simpl in Hc; subst t; simpl.
    + split; [reflexivity|]. intros features H. now injection H as <-.
    + split; [|discriminate]. destruct (is_ValueError e); reflexivity.
Qed.

(** C10: when the upstream answers with a list of entries, the service
    returns the [AudioFeatures] of the truthy entries, in the order of the
    upstream list, and nothing for the others: a [None] entry raises no
    error and leaves no placeholder.  The result is no longer than the
    upstream list (hence than the list of ids, when the upstream answers
    one entry per id) and strictly shorter when an entry is [None]. *)
Theorem audio_features_drop_missing_tracks (token : string) (track_ids : list string)
    (entries : list pyval) :
  audio_features (spotify token) track_ids = Ok (PList entries) ->
  outcome (get_track_audio_features coerce spotify token track_ids) =
    match mapM (AudioFeatures_new coerce) (filter truthy entries) with
    | Ok features => Ok features
    | Raise e => Raise (Wrapped "Failed to get audio features" e)
    end /\
  Forall (fun entry => entry <> PNone) (filter truthy entries) /\
  forall features,
    outcome (get_track_audio_features coerce spotify token track_ids) = Ok features ->
    mapM (AudioFeatures_new coerce) (filter truthy entries) = Ok features /\
    List.length features = List.length (filter truthy entries) /\
    List.length features <= List.length entries /\
    (List.length entries = List.length track_ids ->
       List.length features <= List.length track_ids) /\
    (In PNone entries -> List.length features < List.length entries).
Proof.
  intros Hup.
  assert (Hout : outcome (get_track_audio_features coerce spotify token track_ids) =
    match mapM (AudioFeatures_new coerce) (filter truthy entries) with
    | Ok features => Ok features
    | Raise e => Raise (Wrapped "Failed to get audio features" e)
    end).
  { unfold get_track_audio_features, io_try, io_bind, upstream, lift, outcome.
    rewrite Hup. cbn [iterate bind]. rewrite features_loop_spec.
    destruct (mapM (AudioFeatures_new coerce) (filter truthy entries)); reflexivity. }
  split; [exact Hout|]. split.
  - apply Forall_forall. intros x Hx. apply filter_In in Hx.
    destruct Hx as [_ Hx]. intros ->. discriminate.
  - intros features H. rewrite Hout in H.
    destruct (mapM (AudioFeatures_new coerce) (filter truthy entries)) as [fs|e] eqn:E;
      [|discriminate].
    injection H as <-.
    pose proof (@mapM_length _ _ _ _ _ E) as Hl.
    pose proof (filter_length_le truthy entries) as Hle.
    repeat split; try lia.
    intros Hin. pose proof (@filter_truthy_drops_None _ Hin). lia.
Qed.
End Audio_features.

(* ------------------------------------------------------------------ *)
(** ** Identifier lists *)

Lemma split_commas_nonempty (s : string) : split_commas s <> [].
Proof.
  destruct s as [|c r]; simpl; [discriminate|].
  destruct (Ascii.eqb c ","); [discriminate|].
  destruct (split_commas r); discriminate.
Qed.

Lemma concat_split_commas (s : string) : String.concat "," (split_commas s) = s.
Proof.
  induction s as [|c r IH]; [reflexivity|].
  cbn [split_commas]. destruct (Ascii.eqb_spec c ",") as [->|Hc].
  - pose proof (@split_commas_nonempty r) as Hne.
    destruct (split_commas r) as [|p ps]; [contradiction|].
    change (String.concat "," ("" :: p :: ps))
      with ("" ++ "," ++ String.concat "," (p :: ps)).
    rewrite IH. reflexivity.
  - pose proof (@split_commas_nonempty r) as Hne.
    destruct (split_commas r) as [|p ps]; [contradiction|].
    destruct ps as [|q qs].
    + simpl in *. now rewrite IH.
    + change (String.concat "," (String c p :: q :: qs))
        with (String c (p ++ "," ++ String.concat "," (q :: qs))).
      change (String.concat "," (p :: q :: qs))
        with (p ++ "," ++ String.concat "," (q :: qs)) in IH.
      now rewrite IH.
Qed.

Lemma split_commas_pieces (s : string) :
  Forall (fun p => contains "," p = false) (split_commas s).
Proof.
  induction s as [|c r IH]; simpl.
  - repeat constructor.
  - destruct (Ascii.eqb c ",") eqn:E.
    + constructor; [reflexivity | exact IH].
    + destruct (split_commas r) as [|p ps].
      * repeat constructor. simpl. now rewrite E.
      * inversion IH; subst. constructor; [|assumption].
        simpl. rewrite E. assumption.
Qed.

Lemma rstrip_cons (c : ascii) (r : string) :
  rstrip (String c r) =
    match rstrip r with
    | EmptyString => if is_space c then EmptyString else String c EmptyString
    | r' => String c r'
    end.
Proof. reflexivity. Qed.

Lemma rstrip_idem (s : string) : rstrip (rstrip s) = rstrip s.
Proof.
  induction s as [|c r IH]; [reflexivity|].
  rewrite rstrip_cons. destruct (rstrip r) as [|a b] eqn:E.
  - destruct (is_space c) eqn:Ec; [reflexivity|].
    rewrite rstrip_cons. cbn [rstrip]. now rewrite Ec.
  - rewrite rstrip_cons, IH. reflexivity.
Qed.

Lemma lstrip_idem (s : string) : lstrip (lstrip s) = lstrip s.
Proof.
  induction s as [|c r IH]; [reflexivity|].
  cbn [lstrip]. destruct (is_space c) eqn:Ec; [exact IH|].
  cbn [lstrip]. now rewrite Ec.
Qed.

Lemma lstrip_rstrip_of_lstripped (s : string) :
  lstrip s = s -> lstrip (rstrip s) = rstrip s.
Proof.
  destruct s as [|c r]; [reflexivity|].
  cbn [lstrip]. destruct (is_space c) eqn:Ec.
  - intros H. exfalso.
    assert (Hlen : String.length (lstrip r) <= String.length r).
    { clear. induction r as [|a b IH]; simpl; [lia|].
      destruct (is_space a); simpl; lia. }
    rewrite H in Hlen. simpl in Hlen. lia.
  - intros _. rewrite rstrip_cons.
    destruct (rstrip r); rewrite ?Ec; cbn [lstrip]; now rewrite Ec.
Qed.

Lemma strip_trimmed (s : string) : trimmed (strip s).
Proof.
  unfold trimmed, strip. split.
  - apply lstrip_rstrip_of_lstripped, lstrip_idem.
  - apply rstrip_idem.
Qed.

Lemma parse_comma_separated_list_trimmed (s : string) :
  Forall trimmed (parse_comma_separated_list s).
Proof.
  unfold parse_comma_separated_list. apply Forall_forall.
  intros x Hx. apply in_map_iff in Hx. destruct Hx as (p & <- & _).
  apply strip_trimmed.
Qed.

Section Identifier_lists.

Variable spotify : string -> Spotipy.

Lemma write_calls token ids :
  calls (save_tracks spotify token ids) = [CallSavedTracksAdd token ids] /\
  calls (remove_saved_tracks spotify token ids) = [CallSavedTracksDelete token ids] /\
  calls (follow_artists spotify token ids) = [CallFollowArtists token ids].
Proof.
  unfold save_tracks, remove_saved_tracks, follow_artists, io_try, io_bind,
    upstream, lift, calls.
  destruct (current_user_saved_tracks_add (spotify token) ids);
  destruct (current_user_saved_tracks_delete (spotify token) ids);
  destruct (user_follow_artists (spotify token) ids); simpl; auto.
Qed.

Lemma id_list_tool_validation (parse : string -> list string)
    (operation : string -> list string -> io bool)
    (what failure done key noun : string)
    (ctx : option Context) (ids token : string) :
  get_access_token ctx = Ok token ->
  (parse ids = [] ->
     id_list_tool parse operation what failure done key noun ctx ids =
       ([], Raise (HTTPException 400 "Invalid parameter"
                     (Some (ValueError ("At least one " ++ what ++ " ID is required")))))) /\
  (50 < List.length (parse ids) ->
     id_list_tool parse operation what failure done key noun ctx ids =
       ([], Raise (HTTPException 400 "Invalid parameter"
                     (Some (ValueError ("Maximum 50 " ++ what
                                        ++ " IDs allowed per request")))))) /\
  (parse ids <> [] -> List.length (parse ids) <= 50 ->
     calls (id_list_tool parse operation what failure done key noun ctx ids)
       = calls (operation token (parse ids)) /\
     (outcome (operation token (parse ids)) = Ok true ->
      exists answer,
        outcome (id_list_tool parse operation what failure done key noun ctx ids)
          = Ok (PDict answer) /\
        In (key, PList (map PStr (parse ids))) answer)).
Proof.
  intros Htok. unfold id_list_tool, tool_handlers.
  rewrite Htok. cbn [bind get_spotify_service lift io_bind].
  split; [|split].
  - intros ->. reflexivity.
  - intros Hlen. destruct (parse ids) as [|x r] eqn:E; [simpl in Hlen; lia|].
    apply Nat.ltb_lt in Hlen. cbn [io_bind app]. rewrite Hlen. reflexivity.
  - intros Hne Hlen. destruct (parse ids) as [|x r] eqn:E; [congruence|].
    assert (E50 : (50 <? List.length (x :: r))%nat = false) by (apply Nat.ltb_ge; lia).
    cbn [io_bind app]. rewrite E50. cbn [io_bind app].
    destruct (operation token (x :: r)) as [t [b|e]]; unfold calls, outcome; simpl.
    + rewrite app_nil_r. split; [reflexivity|]. intros _.
      eexists. split; [reflexivity|]. simpl. auto.
    + split; [|discriminate]. destruct (is_ValueError e); simpl; now rewrite app_nil_r.
Qed.
(** C8: the identifier list of [spotify_save_tracks],
    [spotify_remove_saved_tracks] and [spotify_follow_artists] is the
    delimited string split on commas (joining the pieces with commas gives
    the string back, and no piece holds a comma), each piece trimmed.  For
    a caller with a bearer token and whatever the parser of the string:
    an empty list fails with status 400 without an upstream call, a list
    of more than 50 fails with status 400 without an upstream call, and
    any other list is passed whole, never shortened, to one upstream call
    and is handed back in the answer. *)
Theorem identifier_lists_split_trimmed_and_bounded :
  (forall s : string,
     parse_comma_separated_list s = map strip (split_commas s) /\
     String.concat "," (split_commas s) = s /\
     Forall (fun p => contains "," p = false) (split_commas s) /\
     Forall trimmed (parse_comma_separated_list s)) /\
  (spotify_save_tracks spotify =
     id_list_tool parse_comma_separated_list (save_tracks spotify) "track"
       "Failed to save tracks" "Successfully saved" "track_ids" "tracks" /\
   spotify_remove_saved_tracks spotify =
     id_list_tool parse_comma_separated_list (remove_saved_tracks spotify) "track"
       "Failed to remove saved tracks" "Successfully removed" "track_ids"
       "tracks from library" /\
   spotify_follow_artists spotify =
     id_list_tool parse_comma_separated_list (follow_artists spotify) "artist"
       "Failed to follow artists" "Successfully followed" "artist_ids" "artists") /\
  (forall (parse : string -> list string) (what failure done key noun : string)
          (ctx : option Context) (ids token : string),
     get_access_token ctx = Ok token ->
     forall (operation : string -> list string -> io bool)
            (request : string -> list string -> call),
       (operation, request) = (save_tracks spotify, CallSavedTracksAdd) \/
       (operation, request) = (remove_saved_tracks spotify, CallSavedTracksDelete) \/
       (operation, request) = (follow_artists spotify, CallFollowArtists) ->
       let tool := id_list_tool parse operation what failure done key noun ctx ids in
       (parse ids = [] ->
          tool = ([], Raise (HTTPException 400 "Invalid parameter"
                     (Some (ValueError ("At least one " ++ what ++ " ID is required")))))) /\
       (50 < List.length (parse ids) ->
          tool = ([], Raise (HTTPException 400 "Invalid parameter"
                     (Some (ValueError ("Maximum 50 " ++ what
                                        ++ " IDs allowed per request")))))) /\
       (parse ids <> [] -> List.length (parse ids) <= 50 ->
          calls tool = [request token (parse ids)] /\
          (outcome (operation token (parse ids)) = Ok true ->
           exists answer,
             outcome tool = Ok (PDict answer) /\
             In (key, PList (map PStr (parse ids))) answer))).
Proof.
  split; [|split].
  - intros s. repeat split.
    + apply concat_split_commas.
    + apply split_commas_pieces.
    + apply parse_comma_separated_list_trimmed.
  - repeat split.
  - intros parse what failure done key noun ctx ids token Htok operation request Hop tool.
    destruct (@id_list_tool_validation parse operation what failure done key noun
                ctx ids token Htok) as (Hempty & Hmany & Hcall).
    split; [exact Hempty | split; [exact Hmany|]].
    intros Hne Hlen. destruct (Hcall Hne Hlen) as [Hcalls Hanswer].
    split; [|exact Hanswer].
    unfold tool. rewrite Hcalls.
    destruct (write_calls token (parse ids)) as (Hs & Hr & Hf).
    destruct Hop as [Hop | [Hop | Hop]]; injection Hop as -> ->; assumption.
Qed.

End Identifier_lists.

(* ------------------------------------------------------------------ *)
(** ** Search *)

Section Search.

Variable coerce : scalar -> pyval -> option pyval.
Variable spotify : string -> Spotipy.

Lemma dict_get_set (d : dict) (k k' : string) (v : pyval) :
  dict_get (dict_set d k v) k' = if String.eqb k k' then Some v else dict_get d k'.
Proof.
  induction d as [|[a x] r IH]; simpl.
  - reflexivity.
  - destruct (String.eqb_spec a k) as [->|Hak]; simpl.
    + destruct (String.eqb k k'); reflexivity.
    + rewrite IH. destruct (String.eqb_spec a k') as [->|Hak'].
      * destruct (String.eqb_spec k k'); [congruence | reflexivity].
      * reflexivity.
Qed.

Lemma plural_inj (a b : SpotifyObjectType) :
  String.eqb (plural a) (plural b) = SpotifyObjectType_eqb a b.
Proof. destruct a, b; reflexivity. Qed.

Lemma SpotifyObjectType_eqb_eq (a b : SpotifyObjectType) :
  SpotifyObjectType_eqb a b = true -> a = b.
Proof. destruct a, b; simpl; intros H; congruence || discriminate. Qed.

Lemma SpotifyObjectType_eqb_sym (a b : SpotifyObjectType) :
  SpotifyObjectType_eqb a b = SpotifyObjectType_eqb b a.
Proof. destruct a, b; reflexivity. Qed.

Lemma search_loop_spec (results : search_results) (format : DataFormat)
    (types : list SpotifyObjectType) (response_data : dict) (acc : Z) :
  exists response_data',
    search_loop coerce results format types response_data acc
      = Ok (response_data', (acc + sum_totals results types)%Z) /\
    forall obj_type,
      dict_get response_data' (plural obj_type) =
        match normalized_items coerce results format types obj_type with
        | Some l => Some (PList l)
        | None => dict_get response_data (plural obj_type)
        end.
Proof.
  revert response_data acc. induction types as [|t rest IH]; intros rd acc.
  - exists rd. split; [simpl; f_equal; f_equal; unfold sum_totals; simpl; lia|].
    intros obj_type. reflexivity.
  - cbn [search_loop]. fold (plural t).
    unfold sum_totals. cbn [map fold_right]. fold (sum_totals results rest).
    unfold reported_total at 1.
    destruct (page_get results (plural t)) as [page|] eqn:Ep.
    + unfold parse_items.
      rewrite (mapM_total _ (fun item => recovered coerce item t format))
        by (intros x; apply _parse_object_total).
      cbn [bind].
      destruct (IH (dict_set rd (plural t)
                      (PList (map (fun item => recovered coerce item t format) (items page))))
                   (acc + total page)%Z) as (rd' & Hloop & Hget).
      exists rd'. split.
      * rewrite Hloop. f_equal. f_equal. lia.
      * intros obj_type. rewrite Hget. unfold normalized_items.
        cbn [existsb]. rewrite dict_get_set, plural_inj.
        destruct (existsb (SpotifyObjectType_eqb obj_type) rest) eqn:Erest.
        { rewrite orb_true_r.
          destruct (page_get results (plural obj_type)) eqn:Eo; [reflexivity|].
          destruct (SpotifyObjectType_eqb t obj_type) eqn:Et; [|reflexivity].
          apply SpotifyObjectType_eqb_eq in Et. subst. congruence. }
        { rewrite orb_false_r.
          destruct (SpotifyObjectType_eqb t obj_type) eqn:Et.
          - apply SpotifyObjectType_eqb_eq in Et. subst obj_type.
            assert (Hr : SpotifyObjectType_eqb t t = true) by (destruct t; reflexivity).
            rewrite Hr, Ep. reflexivity.
          - rewrite SpotifyObjectType_eqb_sym, Et. reflexivity. }
    + destruct (IH rd acc) as (rd' & Hloop & Hget).
      exists rd'. split.
      * rewrite Hloop. reflexivity.
      * intros obj_type. rewrite Hget. unfold normalized_items.
        cbn [existsb].
        destruct (existsb (SpotifyObjectType_eqb obj_type) rest) eqn:Erest.
        { rewrite orb_true_r. reflexivity. }
        { rewrite orb_false_r.
          destruct (SpotifyObjectType_eqb obj_type t) eqn:Et; [|reflexivity].
          apply SpotifyObjectType_eqb_eq in Et. subst obj_type. rewrite Ep. reflexivity. }
Qed.

Lemma slot_spec (cls : ftype) (response_data : dict) (key : string) (l : option (list pyval)) :
  dict_get response_data key = option_map PList l ->
  slot coerce cls response_data key = validated_slot coerce cls l.
Proof.
  intros H. unfold slot, validated_slot. rewrite H.
  destruct l as [l|]; simpl; [|reflexivity].
  destruct (omap (validate coerce cls) l); reflexivity.
Qed.

Lemma search_music_outcome (token : string) (request : SearchRequest) :
  outcome (search_music coerce spotify token request) =
    match search (spotify token) (query request)
            (String.concat "," (map value (types request)))
            (market request) (limit request) (offset request) with
    | Raise e => Raise (Wrapped "Failed to search music" e)
    | Ok results =>
        let items_of := normalized_items coerce results (format request) (types request) in
        match
          tracks <- validated_slot coerce Track (items_of TRACK) ;;
          artists <- validated_slot coerce Artist (items_of ARTIST) ;;
          albums <- validated_slot coerce Album (items_of ALBUM) ;;
          playlists <- validated_slot coerce Playlist (items_of PLAYLIST) ;;
          Ok {| tracks := tracks; artists := artists; albums := albums;
                playlists := playlists;
                total_results := sum_totals results (types request);
                format_used := format request |}
        with
        | Ok response => Ok response
        | Raise e => Raise (Wrapped "Failed to search music" e)
        end
    end.
Proof.
  unfold search_music, io_try, io_bind, upstream, lift, outcome.
  destruct (search (spotify token) (query request)
              (String.concat "," (map value (types request)))
              (market request) (limit request) (offset request)) as [results|e];
    cbn [snd fst app]; [|reflexivity].
  destruct (search_loop_spec results (format request) (types request) [] 0)
    as (rd & Hloop & Hget).
  rewrite Hloop. cbn [bind fst snd].
  unfold SearchResponse_new.
  assert (Hslot : forall obj_type,
            slot coerce (slot_class obj_type) rd (plural obj_type) =
            validated_slot coerce (slot_class obj_type)
              (normalized_items coerce results (format request) (types request) obj_type)).
  { intros obj_type. apply slot_spec. rewrite Hget.
    destruct (normalized_items coerce results (format request) (types request) obj_type);
      reflexivity. }
  pose proof (Hslot TRACK) as Ht. pose proof (Hslot ARTIST) as Ha.
  pose proof (Hslot ALBUM) as Hb. pose proof (Hslot PLAYLIST) as Hp.
  change (plural TRACK) with "tracks" in Ht.
  change (plural ARTIST) with "artists" in Ha.
  change (plural ALBUM) with "albums" in Hb.
  change (plural PLAYLIST) with "playlists" in Hp.
  cbn [slot_class] in Ht, Ha, Hb, Hp.
  rewrite Ht, Ha, Hb, Hp. cbv zeta.
  destruct (validated_slot coerce Track _) as [st|]; cbn [bind]; [|reflexivity].
  destruct (validated_slot coerce Artist _) as [sa|]; cbn [bind]; [|reflexivity].
  destruct (validated_slot coerce Album _) as [sb|]; cbn [bind]; [|reflexivity].
  destruct (validated_slot coerce Playlist _) as [sp|]; cbn [bind]; reflexivity.
Qed.

(** C9: the response of a search carries, as [total_results], the sum
    over the requested types of the totals the upstream reports, and in
    the slot of each catalog type the normalized items of that type, as
    the constructor of the response validates them (nothing for a type
    that was not requested or not reported); and the search answers
    whenever the upstream answers and the constructor accepts the four
    slots. *)
Theorem search_totals_and_slots (token : string) (request : SearchRequest)
    (results : search_results) :
  search (spotify token) (query request)
    (String.concat "," (map value (types request)))
    (market request) (limit request) (offset request) = Ok results ->
  (forall response,
     outcome (search_music coerce spotify token request) = Ok response ->
     total_results response = sum_totals results (types request) /\
     format_used response = format request /\
     forall obj_type, In obj_type catalog_types ->
       Ok (slot_of response obj_type) =
         validated_slot coerce (slot_class obj_type)
           (normalized_items coerce results (format request) (types request) obj_type)) /\
  ((forall obj_type, In obj_type catalog_types ->
      exists items,
        validated_slot coerce (slot_class obj_type)
          (normalized_items coerce results (format request) (types request) obj_type)
        = Ok items) ->
   exists response, outcome (search_music coerce spotify token request) = Ok response).
Proof.
  intros Hup. rewrite search_music_outcome, Hup. cbv zeta.
  split.
  - intros response.
    destruct (validated_slot coerce Track _) as [st|] eqn:Et; cbn [bind]; [|discriminate].
    destruct (validated_slot coerce Artist _) as [sa|] eqn:Ea; cbn [bind]; [|discriminate].
    destruct (validated_slot coerce Album _) as [sb|] eqn:Eb; cbn [bind]; [|discriminate].
    destruct (validated_slot coerce Playlist _) as [sp|] eqn:Es; cbn [bind]; [|discriminate].
    intros H. injection H as <-. repeat split.
    intros obj_type Hin. simpl in Hin.
    destruct Hin as [<-|[<-|[<-|[<-|[]]]]];
      cbn [slot_of slot_class tracks artists albums playlists]; congruence.
  - intros Hall.
    destruct (Hall TRACK) as (st & Et); [simpl; tauto|].
    destruct (Hall ARTIST) as (sa & Ea); [simpl; tauto|].
    destruct (Hall ALBUM) as (sb & Eb); [simpl; tauto|].
    destruct (Hall PLAYLIST) as (sp & Es); [simpl; tauto|].
    cbn [slot_class] in Et, Ea, Eb, Es. rewrite Et, Ea, Eb, Es. cbn [bind].
    eexists. reflexivity.
Qed.

End Search.

(* ------------------------------------------------------------------ *)
(** ** Batches *)


Section Batches.

Variable coerce : scalar -> pyval -> option pyval.
Variable spotify : string -> Spotipy.






End Batches.

(* ------------------------------------------------------------------ *)
(** ** The theorems at sample inputs *)

Example format_names_resolve :
  @enum_call DataFormat _ "Compact" = Ok COMPACT /\
  @enum_call DataFormat _ "COMPACT" = Ok COMPACT /\
  @enum_call DataFormat _ "compact" = Ok COMPACT /\
  @enum_call DataFormat _ "bogus" = Raise (InvalidEnumValue "DataFormat" "bogus").
Proof. repeat split. Qed.

(** Five raw tracks, the third without [id]: five entries come back, the
    third as it came. *)
Example five_tracks_third_malformed :
  let good := nested_track in
  let bad := PDict track_without_id in
  exists a b c d,
    parse_items strict_scalar [good; good; bad; good; good] TRACK COMPACT
      = Ok [a; b; bad; c; d] /\
    Forall (fun v => is_instance "Track" v = true) [a; b; c; d].
Proof.
  do 4 eexists. split; [vm_compute; reflexivity|].
  repeat constructor.
Qed.


(** The counterexample to monotone tiering over every input: the album of
    this track lacks its [id], so the COMPACT builder raises and
    [_parse_object] hands back the raw dictionary, which has no [artists]
    key, while the MINIMAL object has its [artists] field populated. *)
Lemma tiering_fails_on_fallback :
  exists m1 m2,
    _parse_object strict_scalar track_with_broken_album TRACK MINIMAL = Ok m1 /\
    _parse_object strict_scalar track_with_broken_album TRACK COMPACT = Ok m2 /\
    tier_le MINIMAL COMPACT /\
    m2 = track_with_broken_album /\
    In "artists" (populated m1) /\
    ~ incl (populated m1) (populated m2).
Proof.
  do 2 eexists.
  split; [vm_compute; reflexivity|].
  split; [vm_compute; reflexivity|].
  split; [vm_compute; lia|].
  split; [reflexivity|].
  split; [simpl; tauto|].
  intros H. specialize (H "artists"). simpl in H.
  assert (Hin : "id" = "artists" \/ "name" = "artists" \/ "uri" = "artists" \/
                "href" = "artists" \/ "external_urls" = "artists" \/
                "artists" = "artists" \/ False) by tauto.
  specialize (H Hin).
  repeat (destruct H as [H|H]; [discriminate H|]). exact H.
Qed.

(** The same holds whatever the conversion of scalars is. *)
Lemma broken_album_falls_back_for_any_coercion coerce :
  _parse_object coerce track_with_broken_album TRACK COMPACT
    = Ok track_with_broken_album /\
  exists m1,
    _parse_object coerce track_with_broken_album TRACK MINIMAL = Ok m1 /\
    In "artists" (populated m1).
Proof.
  split; [reflexivity|]. eexists. split; [reflexivity|]. simpl. tauto.
Qed.

Lemma tiering_witness :
  exists m1,
    parse_dispatch strict_scalar nested_track TRACK MINIMAL = Ok m1 /\
    _parse_object strict_scalar nested_track TRACK MINIMAL = Ok m1 /\
    _parse_object strict_scalar nested_track TRACK FULL = Ok nested_track_full /\
    incl (populated m1) (populated nested_track_full) /\
    forall k, In k (populated m1) -> model_field m1 k = model_field nested_track_full k.
Proof.
  apply (@tiering_monotone_when_builder_succeeds strict_scalar nested_track TRACK
           MINIMAL FULL nested_track_full).
  - simpl. tauto.
  - vm_compute. lia.
  - vm_compute. reflexivity.
Defined.

Lemma required_and_optional_witness :
  ((exists k', In k' required_keys /\ dict_get track_without_id k' = None /\
      parse_dispatch strict_scalar (PDict track_without_id) TRACK FULL
        = Raise (KeyError k')) /\
   _parse_object strict_scalar (PDict track_without_id) TRACK FULL
     = Ok (PDict track_without_id)) /\
  (exists m',
     parse_dispatch strict_scalar (PDict (dict_remove artist_with_genres "genres"))
       ARTIST FULL = Ok m' /\
     In "genres" (populated m') /\
     model_field m' "genres" = Some PNone /\
     forall j, j <> "genres" -> model_field m' j = model_field artist_with_genres_full j) /\
  (In "artists" (required_fields (slot_class TRACK)) /\
   parse_dispatch strict_scalar (PDict track_without_artists) TRACK FULL
   = parse_dispatch strict_scalar
       (PDict (dict_set track_without_artists "artists" (PList []))) TRACK FULL /\
   forall m, parse_dispatch strict_scalar (PDict track_without_artists) TRACK FULL = Ok m ->
             model_field m "artists" = Some (PList [])).
Proof.
  split; [|split].
  - apply (proj1 (required_fields_fail_optional_fields_are_absent strict_scalar)
             track_without_id TRACK FULL "id").
    + simpl. tauto.
    + discriminate.
    + simpl. tauto.
    + reflexivity.
  - apply (proj1 (proj2 (required_fields_fail_optional_fields_are_absent strict_scalar))
             artist_with_genres ARTIST FULL "genres" artist_with_genres_full).
    + simpl. tauto.
    + simpl. tauto.
    + vm_compute. reflexivity.
  - apply (proj1 (proj2 (proj2 (required_fields_fail_optional_fields_are_absent
                                  strict_scalar)))
             track_without_artists TRACK FULL).
    + simpl. tauto.
    + discriminate.
    + reflexivity.
Defined.

(** The counterexample to "a missing required field fails, no placeholder
    is substituted": [artists] is a required field of the Track model,
    this track has none, and the MINIMAL builder succeeds with the empty
    list in its place. *)
Lemma missing_artists_gets_placeholder :
  In "artists" (required_fields Track) /\
  dict_get track_without_artists "artists" = None /\
  exists m,
    parse_dispatch strict_scalar (PDict track_without_artists) TRACK MINIMAL = Ok m /\
    _parse_object strict_scalar (PDict track_without_artists) TRACK MINIMAL = Ok m /\
    is_instance "Track" m = true /\
    model_field m "artists" = Some (PList []).
Proof.
  split; [simpl; tauto|]. split; [reflexivity|].
  eexists. split; [vm_compute; reflexivity|].
  split; [vm_compute; reflexivity|]. split; reflexivity.
Qed.

(** The counterexample to "one level of nesting, never deeper": the
    COMPACT form of a track holds its album, which holds its own artist. *)
Lemma track_nests_two_levels :
  exists m alb art,
    _parse_object strict_scalar nested_track TRACK COMPACT = Ok m /\
    model_field m "album" = Some alb /\ is_instance "Album" alb = true /\
    model_field alb "artists" = Some (PList [art]) /\
    is_instance "Artist" art = true /\
    nesting_depth m = 3 /\
    ~ nesting_depth m <= 2.
Proof.
  do 3 eexists.
  split; [vm_compute; reflexivity|].
  split; [vm_compute; reflexivity|].
  split; [reflexivity|].
  split; [vm_compute; reflexivity|].
  split; [reflexivity|].
  split; [reflexivity|].
  vm_compute. lia.
Qed.

Lemma nested_references_witness :
  (exists l parsed,
     raw_artists (PDict [("id", PStr "b1"); ("name", PStr "Album");
                         ("uri", PStr "spotify:album:b1");
                         ("href", PStr "https://api.spotify.com/v1/albums/b1");
                         ("artists", PList [raw_artist "a2"])]) = Ok l /\
     mapM (fun artist => _parse_artist strict_scalar artist MINIMAL) l = Ok parsed /\
     model_field nested_album_compact "artists" = Some (PList parsed) /\
     Forall plain_artist parsed /\
     nesting_depth nested_album_compact <= 2) /\
  ((exists l parsed,
      raw_artists nested_track = Ok l /\
      mapM (fun artist => _parse_artist strict_scalar artist MINIMAL) l = Ok parsed /\
      model_field nested_track_compact "artists" = Some (PList parsed) /\
      Forall plain_artist parsed) /\
   (exists alb,
      model_field nested_track_compact "album" = Some alb /\
      (alb = PNone \/
       exists album, compact_or_full COMPACT = true /\
                     subscript nested_track "album" = Ok album /\
                     _parse_album strict_scalar album MINIMAL = Ok alb)) /\
   nesting_depth nested_track_compact <= 3) /\
  (_parse_track strict_scalar track_with_broken_album COMPACT = Raise (KeyError "id") /\
   _parse_object strict_scalar track_with_broken_album TRACK COMPACT
     = Ok track_with_broken_album).
Proof.
  split; [|split].
  - apply (proj1 (nested_references_are_minimal_and_bounded strict_scalar) _ COMPACT).
    + discriminate.
    + vm_compute. reflexivity.
  - apply (proj1 (proj2 (nested_references_are_minimal_and_bounded strict_scalar))
             nested_track COMPACT).
    + discriminate.
    + vm_compute. reflexivity.
  - apply (proj2 (proj2 (nested_references_are_minimal_and_bounded strict_scalar))
             track_with_broken_album TRACK COMPACT (KeyError "id")).
    + simpl. tauto.
    + discriminate.
    + reflexivity.
Defined.

Lemma audio_features_batch_limit_witness :
  (calls (spotify_get_track_audio_features strict_scalar sample_spotify bearer_context
            (repeat "4uLU6hMCjMI75M1A2tKUQC" 101)) = [] /\
   forall token, get_access_token bearer_context = Ok token ->
     spotify_get_track_audio_features strict_scalar sample_spotify bearer_context
       (repeat "4uLU6hMCjMI75M1A2tKUQC" 101) =
       ([], Raise (HTTPException 400 "Invalid parameter"
                     (Some (ValueError "Maximum 100 track IDs allowed per request"))))) /\
  (calls (spotify_get_track_audio_features strict_scalar sample_spotify bearer_context
            (repeat "4uLU6hMCjMI75M1A2tKUQC" 100))
     = [CallAudioFeatures "token-1" (repeat "4uLU6hMCjMI75M1A2tKUQC" 100)]).
Proof.
  split.
  - apply (proj1 (audio_features_batch_limit strict_scalar sample_spotify bearer_context
                    (repeat "4uLU6hMCjMI75M1A2tKUQC" 101))).
    rewrite repeat_length. lia.
  - apply (proj2 (audio_features_batch_limit strict_scalar sample_spotify bearer_context
                    (repeat "4uLU6hMCjMI75M1A2tKUQC" 100))).
    + rewrite repeat_length. lia.
    + reflexivity.
Defined.

Lemma audio_features_drop_witness :
  outcome (get_track_audio_features strict_scalar sample_spotify "token-1" ["t1"; "t0"]) =
    match mapM (AudioFeatures_new strict_scalar) (filter truthy [features_entry; PNone]) with
    | Ok features => Ok features
    | Raise e => Raise (Wrapped "Failed to get audio features" e)
    end /\
  Forall (fun entry => entry <> PNone) (filter truthy [features_entry; PNone]) /\
  forall features,
    outcome (get_track_audio_features strict_scalar sample_spotify "token-1" ["t1"; "t0"])
      = Ok features ->
    mapM (AudioFeatures_new strict_scalar) (filter truthy [features_entry; PNone])
      = Ok features /\
    List.length features = List.length (filter truthy [features_entry; PNone]) /\
    List.length features <= List.length [features_entry; PNone] /\
    (List.length [features_entry; PNone] = List.length ["t1"; "t0"] ->
       List.length features <= List.length ["t1"; "t0"]) /\
    (In PNone [features_entry; PNone] ->
       List.length features < List.length [features_entry; PNone]).
Proof.
  apply (@audio_features_drop_missing_tracks strict_scalar sample_spotify "token-1"
           ["t1"; "t0"] [features_entry; PNone]).
  reflexivity.
Defined.

(** At the sample upstream, one of two requested tracks has features. *)
Example one_of_two_tracks_has_features :
  exists f,
    outcome (get_track_audio_features strict_scalar sample_spotify "token-1" ["t1"; "t0"])
      = Ok [f] /\ is_instance "AudioFeatures" f = true.
Proof. eexists. split; [vm_compute; reflexivity | reflexivity]. Qed.

Lemma identifier_lists_witness :
  let tool parse ids :=
    id_list_tool parse (save_tracks sample_spotify) "track" "Failed to save tracks"
      "Successfully saved" "track_ids" "tracks" bearer_context ids in
  (parse_dropping_empty " , " = [] ->
     tool parse_dropping_empty " , " =
       ([], Raise (HTTPException 400 "Invalid parameter"
                     (Some (ValueError ("At least one " ++ "track" ++ " ID is required")))))) /\
  (50 < List.length (parse_comma_separated_list (String.concat "," (repeat "id" 51))) ->
     tool parse_comma_separated_list (String.concat "," (repeat "id" 51)) =
       ([], Raise (HTTPException 400 "Invalid parameter"
                     (Some (ValueError ("Maximum 50 " ++ "track"
                                        ++ " IDs allowed per request")))))) /\
  (calls (tool parse_comma_separated_list " a1 ,b2") =
     [CallSavedTracksAdd "token-1" ["a1"; "b2"]] /\
   (outcome (save_tracks sample_spotify "token-1" ["a1"; "b2"]) = Ok true ->
    exists answer,
      outcome (tool parse_comma_separated_list " a1 ,b2") = Ok (PDict answer) /\
      In ("track_ids", PList (map PStr ["a1"; "b2"])) answer)).
Proof.
  intros tool.
  pose proof (proj2 (proj2 (identifier_lists_split_trimmed_and_bounded sample_spotify)))
    as H.
  split; [|split].
  - apply (H parse_dropping_empty "track" "Failed to save tracks" "Successfully saved"
             "track_ids" "tracks" bearer_context " , " "token-1" eq_refl
             (save_tracks sample_spotify) CallSavedTracksAdd (or_introl eq_refl)).
  - apply (H parse_comma_separated_list "track" "Failed to save tracks"
             "Successfully saved" "track_ids" "tracks" bearer_context
             (String.concat "," (repeat "id" 51)) "token-1" eq_refl
             (save_tracks sample_spotify) CallSavedTracksAdd (or_introl eq_refl)).
  - apply (H parse_comma_separated_list "track" "Failed to save tracks"
             "Successfully saved" "track_ids" "tracks" bearer_context
             " a1 ,b2" "token-1" eq_refl
             (save_tracks sample_spotify) CallSavedTracksAdd (or_introl eq_refl)).
    + discriminate.
    + vm_compute. lia.
Defined.

(** The three cases at the sample inputs. *)
Example identifier_list_cases :
  parse_comma_separated_list " a1 ,b2" = ["a1"; "b2"] /\
  parse_dropping_empty " , " = [] /\
  List.length (parse_comma_separated_list (String.concat "," (repeat "id" 51))) = 51 /\
  outcome (spotify_save_tracks sample_spotify bearer_context " a1 ,b2") =
    Ok (PDict [("success", PBool true);
               ("message", PStr "Successfully saved 2 tracks");
               ("track_ids", PList [PStr "a1"; PStr "b2"])]).
Proof. repeat split. Qed.

Lemma search_totals_witness :
  (forall response,
     outcome (search_music strict_scalar sample_spotify "token-1" sample_request)
       = Ok response ->
     total_results response = sum_totals sample_results (types sample_request) /\
     format_used response = format sample_request /\
     forall obj_type, In obj_type catalog_types ->
       Ok (slot_of response obj_type) =
         validated_slot strict_scalar (slot_class obj_type)
           (normalized_items strict_scalar sample_results (format sample_request)
              (types sample_request) obj_type)) /\
  ((forall obj_type, In obj_type catalog_types ->
      exists items,
        validated_slot strict_scalar (slot_class obj_type)
          (normalized_items strict_scalar sample_results (format sample_request)
             (types sample_request) obj_type)
        = Ok items) ->
   exists response,
     outcome (search_music strict_scalar sample_spotify "token-1" sample_request)
       = Ok response).
Proof.
  apply (@search_totals_and_slots strict_scalar sample_spotify "token-1" sample_request
           sample_results).
  reflexivity.
Defined.

(** 500 matching tracks and 3 matching playlists give 503. *)
Example search_total_is_503 :
  outcome (search_music strict_scalar sample_spotify "token-1" sample_request)
    = Ok sample_response /\
  total_results sample_response = 503%Z /\
  (exists t, tracks sample_response = Some [t]) /\
  playlists sample_response = Some [] /\
  artists sample_response = None /\ albums sample_response = None.
Proof.
  split; [vm_compute; reflexivity|].
  split; [reflexivity|].
  split; [eexists; reflexivity|].
  repeat split.
Qed.


(* ------------------------------------------------------------------ *)
(** ** Case-insensitive enumerations *)

Section Enum_lookup.

Context {E : Type} `{StrEnum E}.

Hypothesis values_lower : forall m : E, lower (value m) = value m.
Hypothesis values_distinct : forall m m' : E, value m = value m' -> m = m'.
Hypothesis members_all : forall m : E, In m members.

Lemma enum_call_of_name (m : E) (s : string) :
  lower s = value m -> enum_call s = Ok m.
Proof.
  intros Hs. unfold enum_call, _missing_.
  destruct (find (fun member => String.eqb (value member) s) members) as [m0|] eqn:E0.
  - apply find_some in E0. destruct E0 as [_ E0]. apply String.eqb_eq in E0.
    f_equal. apply values_distinct. rewrite <- Hs, <- E0. symmetry. apply values_lower.
  - destruct (find (fun member => String.eqb (lower (value member)) (lower s)) members)
      as [m1|] eqn:E1.
    + apply find_some in E1. destruct E1 as [_ E1]. apply String.eqb_eq in E1.
      f_equal. apply values_distinct. rewrite <- (values_lower m1), E1. exact Hs.
    + exfalso. pose proof (find_none _ _ E1 m (members_all m)) as Hn. simpl in Hn.
      rewrite values_lower, Hs, String.eqb_refl in Hn. discriminate.
Qed.

Lemma enum_call_name (m : E) (s : string) :
  enum_call s = Ok m -> lower s = value m.
Proof.
  unfold enum_call, _missing_.
  destruct (find (fun member => String.eqb (value member) s) members) as [m0|] eqn:E0.
  - intros Hm. injection Hm as <-. apply find_some in E0. destruct E0 as [_ E0].
    apply String.eqb_eq in E0. rewrite <- E0. apply values_lower.
  - destruct (find (fun member => String.eqb (lower (value member)) (lower s)) members)
      as [m1|] eqn:E1; [|discriminate].
    intros Hm. injection Hm as <-. apply find_some in E1. destruct E1 as [_ E1].
    apply String.eqb_eq in E1. rewrite <- E1. apply values_lower.
Qed.

Lemma enum_call_unknown (s : string) :
  (forall m : E, lower s <> value m) ->
  enum_call s = Raise (InvalidEnumValue enum_name s).
Proof.
  intros Hno. destruct (enum_call s) as [m|e] eqn:Ec.
  - apply enum_call_name in Ec. destruct (Hno m Ec).
  - unfold enum_call, _missing_ in *.
    destruct (find (fun member => String.eqb (value member) s) members); [discriminate|].
    destruct (find (fun member => String.eqb (lower (value member)) (lower s)) members);
      [discriminate | congruence].
Qed.

End Enum_lookup.

Lemma TimeRange_facts :
  (forall m : TimeRange, lower (value m) = value m) /\
  (forall m m' : TimeRange, value m = value m' -> m = m') /\
  (forall m : TimeRange, In m members).
Proof.
  repeat split.
  - intros []; reflexivity.
  - intros [] []; simpl; intros H; congruence || discriminate.
  - intros []; simpl; tauto.
Qed.

Lemma RepeatState_facts :
  (forall m : RepeatState, lower (value m) = value m) /\
  (forall m m' : RepeatState, value m = value m' -> m = m') /\
  (forall m : RepeatState, In m members).
Proof.
  repeat split.
  - intros []; reflexivity.
  - intros [] []; simpl; intros H; congruence || discriminate.
  - intros []; simpl; tauto.
Qed.

Lemma SpotifyObjectType_facts :
  (forall m : SpotifyObjectType, lower (value m) = value m) /\
  (forall m m' : SpotifyObjectType, value m = value m' -> m = m') /\
  (forall m : SpotifyObjectType, In m members).
Proof.
  repeat split.
  - intros []; reflexivity.
  - intros [] []; simpl; intros H; congruence || discriminate.
  - intros []; simpl; tauto.
Qed.

(** X1: for an ASCII string, on which [lower] is [str.lower()], every
    case-insensitive enumeration besides [DataFormat] resolves the string
    to the member whose value is the lowercase form of the string, and to
    nothing else: a string whose lowercase form is no value raises. *)
Theorem enum_lookup_by_lowercase_value (s : string) :
  ascii_only s = true ->
  (forall m : TimeRange, enum_call s = Ok m <-> lower s = value m) /\
  (forall m : RepeatState, enum_call s = Ok m <-> lower s = value m) /\
  (forall m : SpotifyObjectType, enum_call s = Ok m <-> lower s = value m) /\
  ((forall m : TimeRange, lower s <> value m) ->
   @enum_call TimeRange _ s = Raise (InvalidEnumValue "TimeRange" s)) /\
  ((forall m : RepeatState, lower s <> value m) ->
   @enum_call RepeatState _ s = Raise (InvalidEnumValue "RepeatState" s)) /\
  ((forall m : SpotifyObjectType, lower s <> value m) ->
   @enum_call SpotifyObjectType _ s = Raise (InvalidEnumValue "SpotifyObjectType" s)).
Proof.
  intros _.
  destruct TimeRange_facts as (T1 & T2 & T3).
  destruct RepeatState_facts as (R1 & R2 & R3).
  destruct SpotifyObjectType_facts as (S1 & S2 & S3).
  split; [|split; [|split; [|split; [|split]]]].
  - intros m. split; [apply (enum_call_name T1) | apply (enum_call_of_name T1 T2 T3)].
  - intros m. split; [apply (enum_call_name R1) | apply (enum_call_of_name R1 R2 R3)].
  - intros m. split; [apply (enum_call_name S1) | apply (enum_call_of_name S1 S2 S3)].
  - apply (enum_call_unknown T1).
  - apply (enum_call_unknown R1).
  - apply (enum_call_unknown S1).
Qed.

(* ------------------------------------------------------------------ *)
(** ** Bearer tokens *)

Lemma prefix_drop (p s : string) :
  prefix p s = true -> s = p ++ drop (String.length p) s.
Proof.
  revert s. induction p as [|c p IH]; intros s H; simpl.
  - reflexivity.
  - destruct s as [|c' s']; simpl in H; [discriminate|].
    destruct (Ascii.ascii_dec c c') as [->|Hc]; [|discriminate].
    simpl. f_equal. apply IH. exact H.
Qed.

(** X2: [extract_bearer_token] returns the part of the header after
    ["Bearer "], and nothing for any other header. *)
Theorem extract_bearer_token_spec (h : option string) (t : string) :
  extract_bearer_token h = Some t <-> h = Some ("Bearer " ++ t).
Proof.
  split.
  - unfold extract_bearer_token. destruct h as [h|]; [|discriminate].
    destruct (String.eqb h ""); [discriminate|].
    destruct (prefix "Bearer " h) eqn:Hp; simpl; [|discriminate].
    intros Ht. injection Ht as <-. f_equal.
    apply (prefix_drop "Bearer " h Hp).
  - intros ->. destruct t; reflexivity.
Qed.

Lemma remove_all_no_occurrence (old s : string) :
  occurs old s = false -> remove_all old s = s.
Proof.
  unfold remove_all. induction s as [|c r IH]; intros H; [reflexivity|].
  cbn [occurs] in H. apply orb_false_iff in H. destruct H as [Hp Hr].
  cbn [remove_all_aux]. rewrite Hp. f_equal. apply IH. exact Hr.
Qed.

Lemma remove_all_Bearer (t : string) :
  remove_all "Bearer " ("Bearer " ++ t) = remove_all "Bearer " t.
Proof. destruct t; reflexivity. Qed.

Section Bearer.

(** X3: [get_access_token] succeeds exactly on a request whose header starts
    with ["Bearer "]; the token is the rest of the header with every
    further occurrence of ["Bearer "] removed, hence the rest itself when
    it holds none, as [extract_bearer_token] gives it; every failure is an
    [HTTPException] with status 401. *)
Theorem get_access_token_spec (ctx : option Context) :
  (forall tok,
     get_access_token ctx = Ok tok <->
     exists t, authorization_header ctx = Some ("Bearer " ++ t) /\
               tok = remove_all "Bearer " t) /\
  (forall e, get_access_token ctx = Raise e ->
             exists detail, e = HTTPException 401 detail None) /\
  (forall t, authorization_header ctx = Some ("Bearer " ++ t) ->
             occurs "Bearer " t = false ->
             get_access_token ctx = Ok t /\
             extract_bearer_token (authorization_header ctx) = Some t).
Proof.
  assert (Hhead : forall t,
            authorization_header ctx = Some ("Bearer " ++ t) ->
            get_access_token ctx = Ok (remove_all "Bearer " t)).
  { intros t Ht. unfold get_access_token, authorization_header in *.
    destruct ctx as [[[request|]]|]; try discriminate.
    rewrite Ht. destruct t; reflexivity. }
  split; [|split].
  - intros tok. split.
    + unfold get_access_token, authorization_header.
      destruct ctx as [[[request|]]|]; try discriminate.
      destruct (Authorization request) as [h|]; [|discriminate].
      destruct (String.eqb h ""); simpl; [discriminate|].
      destruct (prefix "Bearer " h) eqn:Hp; [|discriminate].
      intros Ht. injection Ht as <-.
      exists (drop 7 h). split.
      * f_equal. apply (prefix_drop "Bearer " h Hp).
      * rewrite (prefix_drop "Bearer " h Hp) at 1. apply remove_all_Bearer.
    + intros (t & Ht & ->). apply Hhead. exact Ht.
  - intros e. unfold get_access_token.
    destruct ctx as [[[request|]]|]; try (intros He; injection He as <-; eauto).
    destruct (Authorization request) as [h|]; [|intros He; injection He as <-; eauto].
    destruct (negb (String.eqb h "") && prefix "Bearer " h); [discriminate|].
    intros He; injection He as <-; eauto.
  - intros t Ht Hocc. split.
    + rewrite (Hhead t Ht). f_equal. apply remove_all_no_occurrence. exact Hocc.
    + rewrite Ht. destruct t; reflexivity.
Qed.

End Bearer.

(* ------------------------------------------------------------------ *)
(** ** Token validation *)

Section Token_validation.

Variable coerce : scalar -> pyval -> option pyval.
Variable http_get : string -> string -> result Response.

Lemma get_of_dict (d : dict) (k : string) : get (PDict d) k = Ok (keyword d k).
Proof.
  unfold get, get_default, keyword. destruct (dict_get d k); reflexivity.
Qed.

Lemma validate_TStr (v p : pyval) :
  validate coerce TStr v = Some p -> exists s, v = PStr s /\ p = PStr s.
Proof.
  destruct v; simpl; try discriminate. intros H. injection H as <-. eauto.
Qed.

Lemma token_info_of_spec (token : string) (response : Response) (info : pyval) :
  token_info_of coerce token response = Ok (Some info) ->
  exists data user_id,
    status_code response = 200%Z /\
    json response = Ok (PDict data) /\
    dict_get data "error" = None /\
    dict_get data "id" = Some (PStr user_id) /\
    is_instance "SpotifyTokenInfo" info = true /\
    model_field info "access_token" = Some (PStr token) /\
    model_field info "user_id" = Some (PStr user_id) /\
    model_field info "token_type" = Some (PStr "Bearer").
Proof.
  unfold token_info_of.
  destruct (Z.eqb_spec (status_code response) 200) as [Hs|Hs]; simpl; [|discriminate].
  destruct (json response) as [data|e]; simpl; [|discriminate].
  destruct data as [| | | | |l|d|]; cbn [py_in bind subscript]; try discriminate.
  - (* a string *)
    destruct (occurs "error" s); [discriminate|].
    destruct (occurs "id" s); discriminate.
  - (* a list *)
    destruct (existsb _ l); [discriminate|].
    destruct (existsb _ l); discriminate.
  - (* a dictionary *)
    destruct (dict_get d "error") eqn:Eerr; [discriminate|].
    destruct (dict_get d "id") as [uid|] eqn:Eid; cbn [negb bind]; [|discriminate].
    rewrite !get_of_dict. cbn [bind].
    destruct (followers_total (PDict d)) as [f|e]; cbn [bind]; [|discriminate].
    unfold construct, SpotifyTokenInfo. rewrite validate_model_dict.
    cbn [omap field_value req opt dict_get String.eqb Ascii.eqb Bool.eqb option_map
         fst snd].
    repeat match goal with
    | |- context [validate ?c ?t ?x] =>
        destruct (validate c t x) eqn:?;
        cbn [omap field_value req opt dict_get String.eqb Ascii.eqb Bool.eqb
             option_map fst snd]; [|discriminate]
    end.
    match goal with
    | Hv : validate _ TStr uid = Some _ |- _ =>
        apply validate_TStr in Hv; destruct Hv as (s & -> & ->)
    end.
    match goal with
    | Hv : validate _ TStr (PStr token) = Some _ |- _ =>
        apply validate_TStr in Hv; destruct Hv as (s' & Hs' & ->);
        injection Hs' as <-
    end.
    match goal with
    | Hv : validate _ TStr (PStr "Bearer") = Some _ |- _ =>
        apply validate_TStr in Hv; destruct Hv as (s' & Hs' & ->);
        injection Hs' as <-
    end.
    cbn. intros Hi. injection Hi as <-.
    exists d, s. repeat split; assumption || reflexivity.
Qed.

(** X4: [validate_token] gives a token information only for a response with
    status 200 whose body is a JSON object without [error] and with a
    string [id]; the information records the token presented, that [id]
    as the user, and the type [Bearer]. *)
Theorem validate_token_spec (endpoint token : string) (info : pyval) :
  validate_token coerce http_get endpoint token = Some info ->
  exists response data user_id,
    http_get endpoint token = Ok response /\
    status_code response = 200%Z /\
    json response = Ok (PDict data) /\
    dict_get data "error" = None /\
    dict_get data "id" = Some (PStr user_id) /\
    is_instance "SpotifyTokenInfo" info = true /\
    model_field info "access_token" = Some (PStr token) /\
    model_field info "user_id" = Some (PStr user_id) /\
    model_field info "token_type" = Some (PStr "Bearer").
Proof.
  unfold validate_token. destruct (http_get endpoint token) as [response|e]; simpl;
    [|discriminate].
  destruct (token_info_of coerce token response) as [[i|]|e] eqn:E; try discriminate.
  intros Hi. injection Hi as ->.
  destruct (token_info_of_spec _ _ E)
    as (data & user_id & H1 & H2 & H3 & H4 & H5 & H6 & H7 & H8).
  exists response, data, user_id. repeat split; assumption.
Qed.

(** X5: [verify_token] accepts exactly the tokens [validate_token] accepts;
    the access token it returns carries the token presented, the user id
    as client id, and the required scopes as they were given, whatever
    the token was granted. *)
Theorem verify_token_spec (endpoint presented : string) (required_scopes : list string) :
  (verify_token coerce http_get endpoint required_scopes presented = None <->
   validate_token coerce http_get endpoint presented = None) /\
  (forall a,
     verify_token coerce http_get endpoint required_scopes presented = Some a ->
     token a = PStr presented /\
     scopes a = required_scopes /\
     exists info, validate_token coerce http_get endpoint presented = Some info /\
                  model_field info "user_id" = Some (client_id a)).
Proof.
  unfold verify_token.
  destruct (validate_token coerce http_get endpoint presented) as [info|] eqn:E.
  - assert (Hinfo : is_instance "SpotifyTokenInfo" info = true /\
                    model_field info "access_token" = Some (PStr presented) /\
                    exists user_id, model_field info "user_id" = Some (PStr user_id)).
    { unfold validate_token in E.
      destruct (http_get endpoint presented) as [response|e]; simpl in E; [|discriminate].
      destruct (token_info_of coerce presented response) as [[i|]|e] eqn:Ei;
        try discriminate.
      injection E as ->.
      destruct (token_info_of_spec _ _ Ei)
        as (data & user_id & _ & _ & _ & _ & Hi & H5 & H6 & _).
      eauto. }
    destruct Hinfo as (Hi & H5 & user_id & H6).
    assert (Hm : exists cls fields fs, info = PModel cls fields fs).
    { destruct info; simpl in Hi; try discriminate. eauto. }
    destruct Hm as (cls & fields & fs & ->). simpl in H5, H6.
    unfold getattr. rewrite H5, H6. simpl. split.
    + split; discriminate.
    + intros a Ha. injection Ha as <-. simpl. repeat split.
      exists (PModel cls fields fs). split; [reflexivity | exact H6].
  - split; [tauto|]. discriminate.
Qed.

(** X6: [get_validated_token] returns the information of [validate_token],
    and every failure is an [HTTPException] with status 401. *)
Theorem get_validated_token_spec (endpoint token : string) :
  (forall info,
     get_validated_token coerce http_get endpoint token = Ok info <->
     validate_token coerce http_get endpoint token = Some info) /\
  (forall e,
     get_validated_token coerce http_get endpoint token = Raise e ->
     validate_token coerce http_get endpoint token = None /\
     e = HTTPException 401 "Token validation failed"
           (Some (HTTPException 401 "Invalid or expired token" None))).
Proof.
  unfold get_validated_token.
  destruct (validate_token coerce http_get endpoint token) as [info|]; simpl.
  - split.
    + intros i. split; intros Hi; injection Hi as <-; reflexivity.
    + discriminate.
  - split.
    + intros i. split; discriminate.
    + intros e He. injection He as <-. split; reflexivity.
Qed.

End Token_validation.

(* ------------------------------------------------------------------ *)
(** ** Listings *)

Section Listings.

Variable coerce : scalar -> pyval -> option pyval.
Variable client : string -> string -> list pyval -> dict -> result pyval.


Lemma paginated_spec (results : pyval) (items : list pyval) (page : Paginated.t) :
  paginated coerce results items = Ok page ->
  Paginated.items page = items /\ cursors_of coerce results page.
Proof.
  unfold paginated, PaginatedResponse_new. intros H.
  apply bind_Ok_inv in H. destruct H as (total & E1 & H).
  apply bind_Ok_inv in H. destruct H as (limit & E2 & H).
  apply bind_Ok_inv in H. destruct H as (offset & E3 & H).
  apply bind_Ok_inv in H. destruct H as (next & E4 & H).
  apply bind_Ok_inv in H. destruct H as (previous & E5 & H).
  destruct (validate coerce (TOptional (TScalar SInt)) total) eqn:V1; [|discriminate].
  destruct (validate coerce (TScalar SInt) limit) eqn:V2; [|discriminate].
  destruct (validate coerce (TScalar SInt) offset) eqn:V3; [|discriminate].
  destruct (validate coerce (TOptional TStr) next) eqn:V4; [|discriminate].
  destruct (validate coerce (TOptional TStr) previous) eqn:V5; [|discriminate].
  injection H as <-. split; [reflexivity|].
  exists total, limit, offset, next, previous. simpl. repeat split; assumption.
Qed.

Lemma parse_all (obj_type : SpotifyObjectType) (format : DataFormat) (l : list pyval) :
  mapM (fun item => _parse_object coerce item obj_type format) l
  = Ok (map (fun item => recovered coerce item obj_type format) l).
Proof. apply mapM_total. intros x. apply _parse_object_total. Qed.

(** X7: [get_top_items] asks the upstream nothing for an item type other than
    "tracks" and "artists" and raises; for these two it makes a single
    request, for the top tracks or the top artists, and the items of the
    page are the upstream items normalized at COMPACT whatever the caller
    wants, a malformed one being kept raw. *)
Theorem get_top_items_spec (token item_type : string) (time_range : TimeRange)
    (limit offset : Z) :
  (item_type <> "tracks" -> item_type <> "artists" ->
   get_top_items coerce client token item_type time_range limit offset =
     ([], Raise (Wrapped ("Failed to get top " ++ item_type)
                   (ValueError ("Invalid item_type: " ++ item_type
                                ++ ". Must be 'tracks' or 'artists'"))))) /\
  (item_type = "tracks" \/ item_type = "artists" ->
   let method := if String.eqb item_type "tracks"
                 then "current_user_top_tracks" else "current_user_top_artists" in
   let obj_type := if String.eqb item_type "tracks" then TRACK else ARTIST in
   let kwargs := [("time_range", PStr (value time_range)); ("limit", PInt limit);
                  ("offset", PInt offset)] in
   requests (get_top_items coerce client token item_type time_range limit offset)
     = [ClientRequest token method [] kwargs] /\
   forall page,
     answer (get_top_items coerce client token item_type time_range limit offset) = Ok page ->
     exists results l,
       client token method [] kwargs = Ok results /\
       (raw <- subscript results "items" ;; iterate raw) = Ok l /\
       Paginated.items page
         = map (fun item => recovered coerce item obj_type COMPACT) l /\
       cursors_of coerce results page).
Proof.
  split.
  - intros Ht Ha. unfold get_top_items.
    apply String.eqb_neq in Ht. apply String.eqb_neq in Ha. rewrite Ht, Ha.
    reflexivity.
  - intros Hty method obj_type kwargs. unfold get_top_items.
    assert (Hcall :
      (if String.eqb item_type "tracks"
       then call_client client token "current_user_top_tracks" []
              [("time_range", PStr (value time_range)); ("limit", PInt limit);
               ("offset", PInt offset)]
       else if String.eqb item_type "artists"
            then call_client client token "current_user_top_artists" []
                   [("time_range", PStr (value time_range)); ("limit", PInt limit);
                    ("offset", PInt offset)]
            else pure (Raise (ValueError ("Invalid item_type: " ++ item_type
                                          ++ ". Must be 'tracks' or 'artists'"))))
      = call_client client token method [] kwargs).
    { unfold method, kwargs. destruct Hty as [-> | ->]; reflexivity. }
    rewrite Hcall. fold obj_type. unfold call_client, ttry, tbind, pure, requests, answer.
    destruct (client token method [] kwargs) as [results|e]; cbn [fst snd app].
    + destruct (subscript results "items") as [raw|e] eqn:Es; cbn [bind fst snd app];
        [|split; [reflexivity | discriminate]].
      destruct (iterate raw) as [l|e] eqn:Ei; cbn [bind fst snd app];
        [|split; [reflexivity | discriminate]].
      rewrite parse_all. cbn [bind].
      destruct (paginated coerce results
                  (map (fun item => recovered coerce item obj_type COMPACT) l))
        as [page|e] eqn:Ep; cbn [fst snd app]; (split; [reflexivity|]);
        [|discriminate].
      intros page' Hp. injection Hp as <-.
      destruct (paginated_spec _ _ Ep) as [Hi Hc].
      exists results, l. repeat split; try assumption. rewrite Es. exact Ei.
    + split; [reflexivity | discriminate].
Qed.

Lemma mapM_then_total {A B C} (f : A -> result B) (g : B -> result C) (g' : B -> C)
    (l : list A) :
  (forall b, g b = Ok (g' b)) ->
  mapM (fun x => y <- f x ;; g y) l = (ys <- mapM f l ;; Ok (map g' ys)).
Proof.
  intros Hg. induction l as [|x r IH]; simpl; [reflexivity|].
  destruct (f x) as [y|e]; simpl; [|reflexivity].
  rewrite Hg, IH. simpl. destruct (mapM f r); reflexivity.
Qed.

Lemma mapM_Raise {A B} (f : A -> result B) (l : list A) (x : A) :
  In x l -> (forall y, f x <> Ok y) -> exists e, mapM f l = Raise e.
Proof.
  intros Hin Hx. induction l as [|a r IH]; simpl in *; [contradiction|].
  destruct Hin as [->|Hin].
  - destruct (f x) as [y|e] eqn:E; [destruct (Hx y eq_refl) | simpl; eauto].
  - destruct (f a) as [y|e]; simpl; [|eauto].
    destruct (IH Hin) as (e & ->). simpl. eauto.
Qed.

(** X8: [get_user_playlists] makes one request; the page it returns holds one
    entry per upstream item, in order, normalized as a playlist at the
    requested format or kept raw when malformed, around the cursors of the
    upstream page; a failure of the upstream is reported as a failure to
    get the playlists. *)
Theorem get_user_playlists_spec (token : string) (limit offset : Z) (format : DataFormat) :
  let kwargs := [("limit", PInt limit); ("offset", PInt offset)] in
  requests (get_user_playlists coerce client token limit offset format)
    = [ClientRequest token "current_user_playlists" [] kwargs] /\
  (forall e, client token "current_user_playlists" [] kwargs = Raise e ->
     answer (get_user_playlists coerce client token limit offset format)
       = Raise (Wrapped "Failed to get user playlists" e)) /\
  (forall page,
     answer (get_user_playlists coerce client token limit offset format) = Ok page ->
     exists results l,
       client token "current_user_playlists" [] kwargs = Ok results /\
       (raw <- subscript results "items" ;; iterate raw) = Ok l /\
       Paginated.items page = map (fun item => recovered coerce item PLAYLIST format) l /\
       List.length (Paginated.items page) = List.length l /\
       cursors_of coerce results page).
Proof.
  intros kwargs.
  unfold get_user_playlists, call_client, ttry, tbind, pure, requests, answer.
  fold kwargs.
  destruct (client token "current_user_playlists" [] kwargs) as [results|e];
    cbn [fst snd app].
  - destruct (subscript results "items") as [raw|e] eqn:Es; cbn [bind fst snd app];
      [|repeat split; discriminate].
    destruct (iterate raw) as [l|e] eqn:Ei; cbn [bind fst snd app];
      [|repeat split; discriminate].
    rewrite parse_all. cbn [bind].
    destruct (paginated coerce results
                (map (fun item => recovered coerce item PLAYLIST format) l))
      as [page|e] eqn:Ep; cbn [fst snd app]; (split; [reflexivity|]);
      (split; [discriminate|]); [|discriminate].
    intros page' Hp. injection Hp as <-.
    destruct (paginated_spec _ _ Ep) as [Hi Hc].
    exists results, l. repeat split; try assumption.
    + rewrite Es. exact Ei.
    + rewrite Hi. apply length_map.
  - split; [reflexivity|]. split; [|discriminate].
    intros e' He. injection He as <-. reflexivity.
Qed.

(** X9: [get_saved_tracks]: the track of each saved entry is normalized or
    kept raw when it is malformed, but an entry that has no [track]
    aborts the whole listing. *)
Theorem get_saved_tracks_spec (token : string) (limit offset : Z) (market : string)
    (format : DataFormat) (results : pyval) (l : list pyval) :
  client token "current_user_saved_tracks" []
    [("limit", PInt limit); ("offset", PInt offset); ("market", PStr market)]
    = Ok results ->
  (raw <- subscript results "items" ;; iterate raw) = Ok l ->
  (forall page,
     answer (get_saved_tracks coerce client token limit offset market format) = Ok page ->
     exists tracks,
       mapM (fun item => subscript item "track") l = Ok tracks /\
       Paginated.items page = map (fun track => recovered coerce track TRACK format) tracks /\
       cursors_of coerce results page) /\
  (forall item,
     In item l -> (forall track, subscript item "track" <> Ok track) ->
     exists e,
       answer (get_saved_tracks coerce client token limit offset market format)
         = Raise (Wrapped "Failed to get saved tracks" e)).
Proof.
  intros Hup Hl.
  unfold get_saved_tracks, call_client, ttry, tbind, pure, requests, answer.
  rewrite Hup. cbn [fst snd app].
  apply bind_Ok_inv in Hl. destruct Hl as (raw & Es & Ei).
  rewrite Es. cbn [bind]. rewrite Ei. cbn [bind].
  rewrite (mapM_then_total (fun item => subscript item "track")
             (fun track => _parse_object coerce track TRACK format)
             (fun track => recovered coerce track TRACK format))
    by (intros b; apply _parse_object_total).
  split.
  - intros page.
    destruct (mapM (fun item => subscript item "track") l) as [tracks|e];
      cbn [bind fst snd app]; [|discriminate].
    destruct (paginated coerce results
                (map (fun track => recovered coerce track TRACK format) tracks))
      as [page'|e] eqn:Ep; cbn [fst snd app]; [|discriminate].
    intros Hp. injection Hp as <-.
    destruct (paginated_spec _ _ Ep) as [Hi Hc].
    exists tracks. repeat split; assumption.
  - intros item Hin Hno.
    destruct (mapM_Raise (fun item => subscript item "track") l item Hin Hno)
      as (e & ->).
    cbn [bind fst snd app]. eauto.
Qed.

End Listings.

(* ------------------------------------------------------------------ *)
(** ** Playback state and playlist creation *)

Section Playback_state.

Variable coerce : scalar -> pyval -> option pyval.
Variable client : string -> string -> list pyval -> dict -> result pyval.

Lemma parse_track_instance (raw m : pyval) (format : DataFormat) :
  _parse_track coerce raw format = Ok m -> is_instance "Track" m = true.
Proof.
  intros H.
  destruct format;
    unfold_builders; peel; eval_dicts;
    match goal with Hc : construct _ _ _ = Ok _ |- _ => revert Hc end;
    open_construct; split_validations;
    (let Hc := fresh "Hc" in intros Hc; injection Hc as <-);
    reflexivity.
Qed.


Lemma parse_playback_state_item (playback_data state : pyval) :
  _parse_playback_state coerce playback_data = Ok state ->
  is_instance "PlaybackState" state = true /\
  exists it, model_field state "item" = Some it /\
             playback_item coerce playback_data it.
Proof.
  unfold _parse_playback_state. intros H. peel.
  match goal with
  | Hi : (if truthy ?c then _ else _) = Ok ?it |- _ =>
      assert (Hit : playback_item coerce playback_data it);
      [ destruct (truthy c);
        [ peel; right; eauto
        | injection Hi as <-; now left ] | clear Hi ]
  end.
  match goal with
  | _ : playback_item _ _ ?it |- _ =>
      assert (Hv : validate coerce (TOptional Track) it = Some it)
  end.
  { destruct Hit as [-> | (raw_item & _ & Hp)]; [reflexivity|].
    apply parse_track_instance in Hp.
    match goal with |- validate _ _ ?it = _ => destruct it; try discriminate end.
    change (validate coerce Track (PModel cls fields fields_set)
            = Some (PModel cls fields fields_set)).
    apply validate_instance. exact Hp. }
  match goal with Hc : construct _ _ _ = Ok _ |- _ => revert Hc end.
  unfold construct, PlaybackState. rewrite validate_model_dict.
  cbn [omap field_value req opt dict_get String.eqb Ascii.eqb Bool.eqb option_map
       fst snd].
  rewrite Hv.
  cbn [omap field_value req opt dict_get String.eqb Ascii.eqb Bool.eqb option_map
       fst snd].
  repeat match goal with
  | |- context [validate ?c ?t ?x] =>
      destruct (validate c t x) eqn:?;
      cbn [omap field_value req opt dict_get String.eqb Ascii.eqb Bool.eqb
           option_map fst snd]; [|discriminate]
  end.
  cbn. intros Hc. injection Hc as <-.
  split; [reflexivity|]. eexists. split; [reflexivity | exact Hit].
Qed.

Lemma parse_playback_state_raises (d : dict) :
  (exists k, In k ["repeat_state"; "shuffle_state"; "timestamp"; "is_playing";
                   "currently_playing_type"] /\ dict_get d k = None) \/
  (exists c e, dict_get d "item" = Some c /\ truthy c = true /\
               _parse_track coerce c COMPACT = Raise e) ->
  exists e, _parse_playback_state coerce (PDict d) = Raise e.
Proof.
  intros Hbad. unfold _parse_playback_state.
  rewrite !get_of_dict. cbn [bind subscript].
  destruct (dict_get d "repeat_state") eqn:E1; cbn [bind]; [|eauto].
  destruct (dict_get d "shuffle_state") eqn:E2; cbn [bind]; [|eauto].
  destruct (dict_get d "timestamp") eqn:E3; cbn [bind]; [|eauto].
  destruct (dict_get d "is_playing") eqn:E4; cbn [bind]; [|eauto].
  assert (Hitem : forall c, dict_get d "item" = Some c -> keyword d "item" = c).
  { intros c Hc. unfold keyword. now rewrite Hc. }
  destruct Hbad as [(k & Hk & Hnone) | (c & e & Hc & Ht & Hp)].
  - destruct (truthy (keyword d "item")); cbn [bind].
    + destruct (dict_get d "item"); cbn [bind]; [|eauto].
      destruct (_parse_track coerce p3 COMPACT); cbn [bind]; [|eauto].
      destruct (dict_get d "currently_playing_type") eqn:E5; cbn [bind]; [|eauto].
      exfalso. simpl in Hk. intuition (subst; congruence).
    + destruct (dict_get d "currently_playing_type") eqn:E5; cbn [bind]; [|eauto].
      exfalso. simpl in Hk. intuition (subst; congruence).
  - rewrite (Hitem c Hc), Ht, Hc. cbn [bind]. rewrite Hp. cbn [bind]. eauto.
Qed.

(** X10: [get_current_playback] makes one request.  A falsy answer (nothing is
    playing) gives [None] without any parsing.  In a playback state the
    item is nothing or the raw item normalized as a track at COMPACT;
    unlike in a listing, a malformed item is not kept raw: it makes the
    operation fail, and so does a state without one of its five required
    keys. *)
Theorem get_current_playback_spec (token : string) (result : pyval) :
  client token "current_playback" [] [] = Ok result ->
  requests (get_current_playback coerce client token)
    = [ClientRequest token "current_playback" [] []] /\
  (truthy result = false ->
   answer (get_current_playback coerce client token) = Ok None) /\
  (forall state,
     answer (get_current_playback coerce client token) = Ok (Some state) ->
     truthy result = true /\
     is_instance "PlaybackState" state = true /\
     exists it, model_field state "item" = Some it /\ playback_item coerce result it) /\
  (forall d,
     result = PDict d -> d <> [] ->
     (exists k, In k ["repeat_state"; "shuffle_state"; "timestamp"; "is_playing";
                      "currently_playing_type"] /\ dict_get d k = None) \/
     (exists c e, dict_get d "item" = Some c /\ truthy c = true /\
                  _parse_track coerce c COMPACT = Raise e) ->
     exists e,
       answer (get_current_playback coerce client token)
         = Raise (Wrapped "Failed to get current playback" e)).
Proof.
  intros Hup.
  unfold get_current_playback, call_client, ttry, tbind, pure, requests, answer.
  rewrite Hup. cbn [fst snd app].
  destruct (truthy result) eqn:Ht; cbn [negb fst snd app].
  - destruct (_parse_playback_state coerce result) as [state|e] eqn:Ep;
      cbn [bind fst snd app].
    + split; [reflexivity|]. split; [discriminate|]. split.
      * intros state' Hs. injection Hs as <-. split; [reflexivity|].
        apply parse_playback_state_item. exact Ep.
      * intros d -> _ Hbad.
        destruct (parse_playback_state_raises d Hbad) as (e & He). congruence.
    + split; [reflexivity|]. split; [discriminate|]. split; [discriminate|].
      intros d -> _ _. eauto.
  - split; [reflexivity|]. split; [reflexivity|]. split; [discriminate|].
    intros d -> Hne _. destruct d; [congruence | discriminate].
Qed.

(** X11: [create_playlist] asks for the current user, then creates the
    playlist for that user with an empty description when none is given,
    and returns the created playlist normalized at FULL, or raw when it is
    malformed; when the user has no [id] nothing is created. *)
Theorem create_playlist_spec (token : string) (request : PlaylistCreateRequest)
    (user : pyval) :
  client token "current_user" [] [] = Ok user ->
  (forall user_id,
     subscript user "id" = Ok user_id ->
     let kwargs :=
       [("user", user_id); ("name", PStr (playlist_name request));
        ("public", PBool (public request));
        ("collaborative", PBool (collaborative request));
        ("description", PStr (match description request with
                              | Some d => d
                              | None => ""
                              end))] in
     requests (create_playlist coerce client token request)
       = [ClientRequest token "current_user" [] [];
          ClientRequest token "user_playlist_create" [] kwargs] /\
     forall result,
       client token "user_playlist_create" [] kwargs = Ok result ->
       answer (create_playlist coerce client token request)
         = Ok (recovered coerce result PLAYLIST FULL)) /\
  (forall e,
     subscript user "id" = Raise e ->
     create_playlist coerce client token request
       = ([ClientRequest token "current_user" [] []],
          Raise (Wrapped "Failed to create playlist" e))).
Proof.
  intros Hup.
  unfold create_playlist, call_client, ttry, tbind, pure, requests, answer.
  rewrite Hup. cbn [fst snd app]. split.
  - intros user_id Hid. rewrite Hid. cbn [fst snd app].
    match goal with
    | |- context [client token "user_playlist_create" [] ?kw] =>
        destruct (client token "user_playlist_create" [] kw) as [result|e]
    end; cbn [fst snd app].
    + rewrite _parse_object_total. cbn [fst snd app]. split; [reflexivity|].
      intros result' Hr. injection Hr as <-. reflexivity.
    + split; [reflexivity | discriminate].
  - intros e He. rewrite He. reflexivity.
Qed.

End Playback_state.

(* ------------------------------------------------------------------ *)
(** ** Checks of the tools *)

Section Tool_checks.

Variable coerce : scalar -> pyval -> option pyval.
Variable client : string -> string -> list pyval -> dict -> result pyval.

Lemma service_of_bearer (ctx : option Context) (token : string) :
  get_access_token ctx = Ok token -> service_of ctx = ([], Ok token).
Proof. intros H. unfold service_of, pure. now rewrite H. Qed.

Lemma tbind_Ok A B (a : A) (k : A -> traced B) : tbind ([], Ok a) k = k a.
Proof. unfold tbind. destruct (k a). reflexivity. Qed.

Lemma tbind_Raise A B (e : exn) (k : A -> traced B) :
  tbind ([], Raise e) k = ([], Raise e).
Proof. reflexivity. Qed.

Lemma command_spec (token method : string) (args : list pyval) (kwargs : dict) :
  command client token method args kwargs =
    ([ClientRequest token method args kwargs],
     match client token method args kwargs with
     | Ok _ => Ok true
     | Raise e => Raise e
     end).
Proof.
  unfold command, call_client, ttry, tbind, pure.
  destruct (client token method args kwargs); reflexivity.
Qed.

Lemma query_client_spec (token method : string) (args : list pyval) (kwargs : dict) :
  query_client client token method args kwargs =
    ([ClientRequest token method args kwargs], client token method args kwargs).
Proof.
  unfold query_client, call_client, ttry, pure.
  destruct (client token method args kwargs); reflexivity.
Qed.

(** X12: [spotify_set_volume]: a volume outside 0..100 is rejected with status
    400 before any request; a volume inside makes one [volume] request
    with that value, and the answer reports it. *)
Theorem set_volume_bounds (ctx : option Context) (volume_percent : Z)
    (device_id : option string) (token : string) :
  get_access_token ctx = Ok token ->
  let tool := spotify_set_volume client ctx volume_percent device_id in
  let request := ClientRequest token "volume" [PInt volume_percent]
                   [("device_id", of_opt_str device_id)] in
  ((volume_percent < 0 \/ 100 < volume_percent)%Z ->
   tool = rejected "Volume must be between 0 and 100") /\
  ((0 <= volume_percent <= 100)%Z ->
   requests tool = [request] /\
   (forall r, client token "volume" [PInt volume_percent]
                [("device_id", of_opt_str device_id)] = Ok r ->
      answer tool = Ok (PDict
        [("success", PBool true);
         ("message", PStr ("Volume set to " ++ str_of_Z volume_percent ++ "%"));
         ("volume_percent", PInt volume_percent)])) /\
   (forall e, client token "volume" [PInt volume_percent]
                [("device_id", of_opt_str device_id)] = Raise e ->
      answer tool = Raise (reported "Failed to set volume" e))).
Proof.
  intros Htok tool request. unfold tool, spotify_set_volume, check, set_volume.
  rewrite (service_of_bearer _ Htok), tbind_Ok, command_spec.
  unfold handlers, ttry, tbind, pure, requests, answer, rejected, reported.
  split.
  - intros Hout.
    assert (E : (0 <=? volume_percent)%Z && (volume_percent <=? 100)%Z = false).
    { apply andb_false_iff. rewrite Z.leb_gt, Z.leb_gt. lia. }
    rewrite E. reflexivity.
  - intros Hin.
    assert (E : (0 <=? volume_percent)%Z && (volume_percent <=? 100)%Z = true).
    { apply andb_true_iff. rewrite !Z.leb_le. lia. }
    rewrite E. cbn [fst snd app].
    destruct (client token "volume" [PInt volume_percent]
                [("device_id", of_opt_str device_id)]) as [r|e]; cbn [fst snd app].
    + split; [reflexivity|]. split; [reflexivity | discriminate].
    + split; [destruct (is_ValueError e); reflexivity|]. split; [discriminate|].
      intros e' He. injection He as <-. destruct (is_ValueError e); reflexivity.
Qed.

(** X13: [spotify_seek_to_position]: a negative position is rejected with
    status 400 before any request; any other position makes one
    [seek_track] request with it. *)
Theorem seek_position_bounds (ctx : option Context) (position_ms : Z)
    (device_id : option string) (token : string) :
  get_access_token ctx = Ok token ->
  let tool := spotify_seek_to_position client ctx position_ms device_id in
  ((position_ms < 0)%Z -> tool = rejected "Position must be non-negative") /\
  ((0 <= position_ms)%Z ->
   requests tool = [ClientRequest token "seek_track" [PInt position_ms]
                      [("device_id", of_opt_str device_id)]] /\
   (forall r, client token "seek_track" [PInt position_ms]
                [("device_id", of_opt_str device_id)] = Ok r ->
      answer tool = Ok (PDict
        [("success", PBool true);
         ("message", PStr ("Seeked to position " ++ str_of_Z position_ms ++ "ms"));
         ("position_ms", PInt position_ms)]))).
Proof.
  intros Htok tool. unfold tool, spotify_seek_to_position, check, seek_track.
  rewrite (service_of_bearer _ Htok), tbind_Ok, command_spec.
  unfold handlers, ttry, tbind, pure, requests, answer, rejected.
  split.
  - intros Hneg. apply Z.ltb_lt in Hneg. rewrite Hneg. reflexivity.
  - intros Hpos. assert (E : (position_ms <? 0)%Z = false) by (apply Z.ltb_ge; lia).
    rewrite E. cbn [negb fst snd app].
    destruct (client token "seek_track" [PInt position_ms]
                [("device_id", of_opt_str device_id)]) as [r|e]; cbn [fst snd app].
    + split; reflexivity.
    + split; [|discriminate]. destruct (is_ValueError e); reflexivity.
Qed.

(** X14: [spotify_set_repeat_mode]: the state is resolved without regard to
    letter case and the upstream receives the canonical lowercase name; an
    ASCII string that names no state is rejected with status 400 before
    any request. *)
Theorem set_repeat_mode_resolution (ctx : option Context) (state : string)
    (device_id : option string) (token : string) :
  get_access_token ctx = Ok token ->
  let tool := spotify_set_repeat_mode client ctx state device_id in
  (forall m : RepeatState, lower state = value m ->
     requests tool = [ClientRequest token "repeat" [PStr (value m)]
                        [("device_id", of_opt_str device_id)]] /\
     (forall r, client token "repeat" [PStr (value m)]
                  [("device_id", of_opt_str device_id)] = Ok r ->
        answer tool = Ok (PDict
          [("success", PBool true);
           ("message", PStr ("Repeat mode set to " ++ value m));
           ("repeat_state", PStr (value m))]))) /\
  (ascii_only state = true -> (forall m : RepeatState, lower state <> value m) ->
   tool = ([], Raise (HTTPException 400 "Invalid parameter"
                        (Some (InvalidEnumValue "RepeatState" (lower state)))))).
Proof.
  intros Htok tool. unfold tool, spotify_set_repeat_mode, set_repeat.
  rewrite (service_of_bearer _ Htok), tbind_Ok. unfold handlers.
  destruct RepeatState_facts as (R1 & R2 & R3).
  split.
  - intros m Hm.
    assert (Hcall : @enum_call RepeatState _ (lower state) = Ok m).
    { apply (enum_call_of_name R1 R2 R3). now rewrite lower_idem. }
    rewrite Hcall. rewrite (@tbind_Ok _ _ m), command_spec.
    unfold ttry, tbind, pure, requests, answer. cbn [fst snd app].
    destruct (client token "repeat" [PStr (value m)]
                [("device_id", of_opt_str device_id)]) as [r|e]; cbn [fst snd app].
    + split; reflexivity.
    + split; [|discriminate]. destruct (is_ValueError e); reflexivity.
  - intros _ Hno.
    assert (Hcall : @enum_call RepeatState _ (lower state)
                    = Raise (InvalidEnumValue "RepeatState" (lower state))).
    { apply (enum_call_unknown R1). intros m. rewrite lower_idem. apply Hno. }
    rewrite Hcall. reflexivity.
Qed.

(** X15: [spotify_transfer_playback]: an empty list of devices is rejected with
    status 400 before any request; a single device is passed as
    [device_id], several as [device_ids]. *)
Theorem transfer_playback_devices (ctx : option Context) (device_ids : list string)
    (play : bool) (token : string) :
  get_access_token ctx = Ok token ->
  let tool := spotify_transfer_playback client ctx device_ids play in
  (device_ids = [] -> tool = rejected "At least one device ID must be provided") /\
  (forall d, device_ids = [d] ->
     requests tool = [ClientRequest token "transfer_playback" []
                        [("device_id", PStr d); ("force_play", PBool play)]]) /\
  (2 <= List.length device_ids ->
     requests tool = [ClientRequest token "transfer_playback" []
                        [("device_ids", of_strs device_ids);
                         ("force_play", PBool play)]]).
Proof.
  intros Htok tool.
  unfold tool, spotify_transfer_playback, check, transfer_playback.
  rewrite (service_of_bearer _ Htok), tbind_Ok.
  unfold handlers, ttry, tbind, pure, requests, answer, rejected.
  split; [|split].
  - intros ->. reflexivity.
  - intros d ->. rewrite command_spec. cbn [fst snd app].
    destruct (client _ _ _ _) as [r|e]; cbn [fst snd app]; [reflexivity|].
    destruct (is_ValueError e); reflexivity.
  - intros Hlen. destruct device_ids as [|a [|b r]]; simpl in Hlen; try lia.
    rewrite command_spec. cbn [fst snd app].
    destruct (client _ _ _ _) as [r'|e]; cbn [fst snd app]; [reflexivity|].
    destruct (is_ValueError e); reflexivity.
Qed.

(** X16: [spotify_add_tracks_to_playlist]: more than 100 URIs are rejected with
    status 400 before any request; otherwise one request carries every
    URI.  When the upstream answer has no [snapshot_id] the tool reports a
    failure although the request was made. *)
Theorem add_tracks_limit (ctx : option Context) (playlist_id : string)
    (track_uris : list string) (position : option Z) (token : string) :
  get_access_token ctx = Ok token ->
  let tool := spotify_add_tracks_to_playlist client ctx playlist_id track_uris position in
  let kwargs := [("playlist_id", PStr playlist_id); ("items", of_strs track_uris);
                 ("position", of_opt_Z position)] in
  (100 < List.length track_uris ->
   tool = rejected "Maximum 100 track URIs allowed per request") /\
  (List.length track_uris <= 100 ->
   requests tool = [ClientRequest token "playlist_add_items" [] kwargs] /\
   (forall result snapshot_id,
      client token "playlist_add_items" [] kwargs = Ok result ->
      subscript result "snapshot_id" = Ok snapshot_id ->
      answer tool = Ok (PDict
        [("success", PBool true);
         ("message", PStr ("Successfully added "
                           ++ str_of_nat (List.length track_uris)
                           ++ " tracks to playlist"));
         ("snapshot_id", snapshot_id);
         ("track_uris", of_strs track_uris)])) /\
   (forall d,
      client token "playlist_add_items" [] kwargs = Ok (PDict d) ->
      dict_get d "snapshot_id" = None ->
      answer tool = Raise (HTTPException 500 "Failed to add tracks to playlist"
                             (Some (KeyError "snapshot_id"))))).
Proof.
  intros Htok tool kwargs.
  unfold tool, spotify_add_tracks_to_playlist, check, add_tracks_to_playlist.
  rewrite (service_of_bearer _ Htok), tbind_Ok, query_client_spec. fold kwargs.
  unfold handlers, ttry, tbind, pure, requests, answer, rejected.
  split.
  - intros Hlen. apply Nat.ltb_lt in Hlen. rewrite Hlen. reflexivity.
  - intros Hlen.
    assert (E : (100 <? List.length track_uris)%nat = false) by (apply Nat.ltb_ge; lia).
    rewrite E. cbn [negb fst snd app].
    destruct (client token "playlist_add_items" [] kwargs) as [result|e];
      cbn [fst snd app].
    + destruct (subscript result "snapshot_id") as [sid|e] eqn:Es; cbn [fst snd app].
      * split; [reflexivity|]. split.
        -- intros result' sid' Hr Hs. injection Hr as <-. rewrite Es in Hs.
           injection Hs as <-. reflexivity.
        -- intros d Hr Hn. injection Hr as ->. simpl in Es. rewrite Hn in Es.
           discriminate.
      * split; [destruct (is_ValueError e); reflexivity|]. split.
        -- intros result' sid' Hr Hs. injection Hr as <-. congruence.
        -- intros d Hr Hn. injection Hr as ->. simpl in Es. rewrite Hn in Es.
           injection Es as <-. reflexivity.
    + split; [destruct (is_ValueError e); reflexivity|].
      split; intros; discriminate.
Qed.

End Tool_checks.

(* ------------------------------------------------------------------ *)
(** ** Keyword arguments *)

Lemma dict_get_if_truthy (k : string) (v : pyval) (kwargs : dict) (k' : string) :
  dict_get (if_truthy k v kwargs) k' =
    if String.eqb k k' && truthy v then Some v else dict_get kwargs k'.
Proof.
  unfold if_truthy. destruct (truthy v).
  - rewrite dict_get_set, andb_true_r. reflexivity.
  - rewrite andb_false_r. reflexivity.
Qed.

Lemma dict_get_if_not_None (k : string) (v : pyval) (kwargs : dict) (k' : string) :
  dict_get (if_not_None k v kwargs) k' =
    match v with
    | PNone => dict_get kwargs k'
    | _ => if String.eqb k k' then Some v else dict_get kwargs k'
    end.
Proof. destruct v; cbn [if_not_None]; try rewrite dict_get_set; reflexivity. Qed.

(** The keywords of [spotify_start_playback]: each one is looked up as
    the code decides it. *)
Lemma start_playback_kwargs_lookup (device_id context_uri : option string)
    (uris : option (list string)) (offset_position : option Z)
    (offset_uri : option string) (position_ms : option Z) (k : string) :
  dict_get (start_playback_kwargs device_id context_uri uris offset_position
              offset_uri position_ms) k =
    if String.eqb "offset" k then
      match offset_position with
      | Some p => Some (PDict [("position", PInt p)])
      | None => if truthy (of_opt_str offset_uri)
                then Some (PDict [("uri", of_opt_str offset_uri)]) else None
      end
    else if String.eqb "position_ms" k then
      if truthy (of_opt_Z position_ms) then Some (of_opt_Z position_ms) else None
    else if String.eqb "uris" k then
      match uris with
      | Some (u :: l) => Some (of_strs (u :: l))
      | _ => None
      end
    else if String.eqb "context_uri" k then
      if truthy (of_opt_str context_uri) then Some (of_opt_str context_uri) else None
    else if String.eqb "device_id" k then
      if truthy (of_opt_str device_id) then Some (of_opt_str device_id) else None
    else None.
Proof.
  unfold start_playback_kwargs.
  assert (Huris : forall k0 kw,
            dict_get (if_truthy "uris"
                        (match uris with Some l => of_strs l | None => PNone end) kw) k0
            = if String.eqb "uris" k0
              then match uris with
                   | Some (u :: l) => Some (of_strs (u :: l))
                   | _ => dict_get kw k0
                   end
              else dict_get kw k0).
  { intros k0 kw. rewrite dict_get_if_truthy.
    destruct (String.eqb "uris" k0); [|reflexivity].
    destruct uris as [[|u l]|]; reflexivity. }
  destruct (String.eqb_spec "offset" k) as [<-|Hoff].
  - destruct offset_position as [p|].
    + rewrite dict_get_set. reflexivity.
    + destruct (truthy (of_opt_str offset_uri)).
      * rewrite dict_get_set. reflexivity.
      * rewrite dict_get_if_truthy, Huris, !dict_get_if_truthy. reflexivity.
  - assert (E : dict_get
                  (if_truthy "position_ms" (of_opt_Z position_ms)
                     (if_truthy "uris"
                        (match uris with Some l => of_strs l | None => PNone end)
                        (if_truthy "context_uri" (of_opt_str context_uri)
                           (if_truthy "device_id" (of_opt_str device_id) [])))) k
                = if String.eqb "position_ms" k then
                    if truthy (of_opt_Z position_ms)
                    then Some (of_opt_Z position_ms) else None
                  else if String.eqb "uris" k then
                    match uris with
                    | Some (u :: l) => Some (of_strs (u :: l))
                    | _ => None
                    end
                  else if String.eqb "context_uri" k then
                    if truthy (of_opt_str context_uri)
                    then Some (of_opt_str context_uri) else None
                  else if String.eqb "device_id" k then
                    if truthy (of_opt_str device_id)
                    then Some (of_opt_str device_id) else None
                  else None).
    { rewrite dict_get_if_truthy, Huris, !dict_get_if_truthy.
      destruct (String.eqb_spec "position_ms" k) as [<-|Hp]; cbn [andb].
      - destruct (truthy (of_opt_Z position_ms)); [reflexivity|].
        cbn. reflexivity.
      - destruct (String.eqb_spec "uris" k) as [<-|Hu]; cbn [andb].
        + destruct uris as [[|u l]|]; reflexivity.
        + destruct (String.eqb_spec "context_uri" k) as [<-|Hc]; cbn [andb].
          * destruct (truthy (of_opt_str context_uri)); reflexivity.
          * destruct (String.eqb "device_id" k); cbn [andb]; [|reflexivity].
            destruct (truthy (of_opt_str device_id)); reflexivity. }
    destruct offset_position as [p|].
    + rewrite dict_get_set. destruct (String.eqb_spec "offset" k); [congruence|]. exact E.
    + destruct (truthy (of_opt_str offset_uri)).
      * rewrite dict_get_set. destruct (String.eqb_spec "offset" k); [congruence|]. exact E.
      * exact E.
Qed.

(** Every keyword the tool builds is truthy. *)
Lemma start_playback_kwargs_truthy (device_id context_uri : option string)
    (uris : option (list string)) (offset_position : option Z)
    (offset_uri : option string) (position_ms : option Z) (k : string) (v : pyval) :
  dict_get (start_playback_kwargs device_id context_uri uris offset_position
              offset_uri position_ms) k = Some v ->
  truthy v = true.
Proof.
  rewrite start_playback_kwargs_lookup.
  repeat match goal with
         | |- context [String.eqb ?a k] => destruct (String.eqb a k)
         end;
    try discriminate.
  - destruct offset_position; [intros [= <-]; reflexivity|].
    destruct (truthy (of_opt_str offset_uri)); [intros [= <-]; reflexivity|discriminate].
  - destruct (truthy (of_opt_Z position_ms)) eqn:E; [intros [= <-]; exact E|discriminate].
  - destruct uris as [[|u l]|]; try discriminate. intros [= <-]. reflexivity.
  - destruct (truthy (of_opt_str context_uri)) eqn:E; [intros [= <-]; exact E|discriminate].
  - destruct (truthy (of_opt_str device_id)) eqn:E; [intros [= <-]; exact E|discriminate].
Qed.

Section Forwarding.

Variable client : string -> string -> list pyval -> dict -> result pyval.

Lemma keyword_truthy (kwargs : dict) (k : string) :
  (forall v, dict_get kwargs k = Some v -> truthy v = true) ->
  (if truthy (keyword kwargs k) then Some (keyword kwargs k) else None)
  = dict_get kwargs k.
Proof.
  unfold keyword. destruct (dict_get kwargs k) as [v|]; [|reflexivity].
  intros H. now rewrite (H v eq_refl).
Qed.

(** X17: [spotify_start_playback] and [start_playback] of the service: one
    [start_playback] request is made whose keywords are, key by key,
    those the tool built.  A [position_ms] of 0 is never sent; an
    [offset_position], 0 included, is sent and wins over [offset_uri]. *)
Theorem start_playback_forwards_given_arguments (ctx : option Context)
    (device_id context_uri : option string) (uris : option (list string))
    (offset_position : option Z) (offset_uri : option string)
    (position_ms : option Z) (token : string) :
  get_access_token ctx = Ok token ->
  let tool := spotify_start_playback client ctx device_id context_uri uris
                offset_position offset_uri position_ms in
  let kwargs := start_playback_kwargs device_id context_uri uris offset_position
                  offset_uri position_ms in
  exists sent,
    requests tool = [ClientRequest token "start_playback" [] sent] /\
    (forall k, dict_get sent k = dict_get kwargs k) /\
    dict_get sent "position_ms" =
      match position_ms with
      | Some p => if (p =? 0)%Z then None else Some (PInt p)
      | None => None
      end /\
    dict_get sent "offset" =
      match offset_position, offset_uri with
      | Some p, _ => Some (PDict [("position", PInt p)])
      | None, Some u => if String.eqb u "" then None
                        else Some (PDict [("uri", PStr u)])
      | None, None => None
      end /\
    (forall r, client token "start_playback" [] sent = Ok r ->
       answer tool = Ok (PDict [("success", PBool true);
                                ("message", PStr "Playback started successfully");
                                ("parameters", PDict kwargs)])).
Proof.
  intros Htok tool kwargs. exists (sent_keywords kwargs).
  assert (Hsame : forall k, dict_get (sent_keywords kwargs) k = dict_get kwargs k).
  { intros k. unfold sent_keywords. rewrite !dict_get_if_truthy. cbn [dict_get].
    assert (T : forall j v, dict_get kwargs j = Some v -> truthy v = true)
      by (intros j v; apply start_playback_kwargs_truthy).
    assert (Hother : ~ In k ["position_ms"; "offset"; "uris"; "context_uri"; "device_id"]
                     -> dict_get kwargs k = None).
    { intros Hk. unfold kwargs. rewrite start_playback_kwargs_lookup.
      repeat match goal with
             | |- context [String.eqb ?a k] =>
                 destruct (String.eqb_spec a k) as [<-|?]
             end; try reflexivity; exfalso; apply Hk; simpl; tauto. }
    repeat match goal with
           | |- context [String.eqb ?a k] =>
               destruct (String.eqb_spec a k) as [<-|?]; cbn [andb]
           end;
      try (apply keyword_truthy; apply T).
    symmetry. apply Hother. simpl. intuition congruence. }
  split; [|split; [exact Hsame|split; [|split]]].
  - unfold tool, spotify_start_playback. rewrite (service_of_bearer _ Htok), tbind_Ok.
    fold kwargs. unfold start_playback. rewrite command_spec.
    unfold handler, ttry, tbind, pure, requests. fold (sent_keywords kwargs).
    destruct (client token "start_playback" [] (sent_keywords kwargs));
      reflexivity.
  - rewrite Hsame. unfold kwargs. rewrite start_playback_kwargs_lookup.
    cbn [String.eqb Ascii.eqb Bool.eqb].
    destruct position_ms as [p|]; [|reflexivity]. cbn [of_opt_Z truthy].
    destruct (p =? 0)%Z; reflexivity.
  - rewrite Hsame. unfold kwargs. rewrite start_playback_kwargs_lookup.
    cbn [String.eqb Ascii.eqb Bool.eqb].
    destruct offset_position as [p|]; [reflexivity|].
    destruct offset_uri as [u|]; [|reflexivity]. cbn [of_opt_str truthy].
    destruct (String.eqb u ""); reflexivity.
  - intros r Hr. unfold tool, spotify_start_playback.
    rewrite (service_of_bearer _ Htok), tbind_Ok.
    fold kwargs. unfold start_playback. rewrite command_spec.
    fold (sent_keywords kwargs). rewrite Hr. reflexivity.
Qed.

(** The fields [spotify_update_playlist_details] was given, looked up. *)
Lemma update_fields_lookup (name description : option string)
    (public collaborative : option bool) (k : string) :
  dict_get (update_fields name description public collaborative) k =
    if String.eqb "collaborative" k then option_map PBool collaborative
    else if String.eqb "public" k then option_map PBool public
    else if String.eqb "description" k then option_map PStr description
    else if String.eqb "name" k then option_map PStr name
    else None.
Proof.
  unfold update_fields. rewrite !dict_get_if_not_None. cbn [dict_get].
  destruct (String.eqb_spec "collaborative" k) as [<-|?].
  { destruct collaborative, public, description, name; reflexivity. }
  destruct (String.eqb_spec "public" k) as [<-|?].
  { destruct collaborative, public, description, name; reflexivity. }
  destruct (String.eqb_spec "description" k) as [<-|?].
  { destruct collaborative, public, description, name; reflexivity. }
  destruct (String.eqb "name" k);
    destruct collaborative, public, description, name; reflexivity.
Qed.

(** X18: [spotify_update_playlist_details]: with no field given the call is
    rejected with status 400 before any request; otherwise one request
    carries exactly the given fields, an empty string or [False]
    included, and the answer lists their names. *)
Theorem update_playlist_details_sends_given_fields (ctx : option Context)
    (playlist_id : string) (name description : option string)
    (public collaborative : option bool) (token : string) :
  get_access_token ctx = Ok token ->
  let tool := spotify_update_playlist_details client ctx playlist_id name description
                public collaborative in
  (name = None -> description = None -> public = None -> collaborative = None ->
   tool = rejected "At least one field must be provided for update") /\
  (given_fields name description public collaborative <> [] ->
   exists sent,
     requests tool = [ClientRequest token "playlist_change_details" [PStr playlist_id] sent] /\
     dict_get sent "name" = option_map PStr name /\
     dict_get sent "description" = option_map PStr description /\
     dict_get sent "public" = option_map PBool public /\
     dict_get sent "collaborative" = option_map PBool collaborative /\
     (forall k, In k (keys sent) ->
        In k (given_fields name description public collaborative)) /\
     (forall r, client token "playlist_change_details" [PStr playlist_id] sent = Ok r ->
        answer tool = Ok (PDict
          [("success", PBool true);
           ("message", PStr "Playlist details updated successfully");
           ("playlist_id", PStr playlist_id);
           ("updated_fields",
            of_strs (given_fields name description public collaborative))]))).
Proof.
  intros Htok tool. unfold tool, spotify_update_playlist_details.
  rewrite (service_of_bearer _ Htok), tbind_Ok. split.
  - intros -> -> -> ->. reflexivity.
  - intros Hgiven. unfold update_playlist_details.
    exists (if_not_None "description" (of_opt_str description)
              (if_not_None "collaborative" (of_opt_bool collaborative)
                 (if_not_None "public" (of_opt_bool public)
                    (if_not_None "name" (of_opt_str name) [])))).
    destruct name as [n|], description as [d|], public as [p|], collaborative as [c|];
      try (exfalso; apply Hgiven; reflexivity);
      cbn [update_fields if_not_None of_opt_str of_opt_bool dict_set dict_get
           str_keyword bool_keyword String.eqb Ascii.eqb Bool.eqb check pure];
      idtac.
    all: change (check true "At least one field must be provided for update")
           with (@pair (list client_request) (result unit) [] (Ok tt)).
    all: rewrite tbind_Ok, command_spec.
    all: unfold handlers, ttry, tbind, pure, requests, answer; cbn [fst snd app].
    all: match goal with
         | |- context [client ?t "playlist_change_details" ?a ?kw] =>
             destruct (client t "playlist_change_details" a kw) as [r|e] eqn:Hc
         end; cbn [fst snd app].
    all: try (destruct (is_ValueError e)).
    all: cbn [fst snd app].
    all: (split; [reflexivity|]).
    all: repeat (split; [reflexivity|]).
    all: (split; [cbn; tauto|]).
    all: intros r' Hr'; first [discriminate Hr' | reflexivity].
Qed.

End Forwarding.

(* ------------------------------------------------------------------ *)
(** ** Tools that read: top items, artists, playlist tracks *)

Lemma DataFormat_facts :
  (forall m : DataFormat, lower (value m) = value m) /\
  (forall m m' : DataFormat, value m = value m' -> m = m') /\
  (forall m : DataFormat, In m members).
Proof.
  repeat split.
  - intros []; reflexivity.
  - intros [] []; simpl; intros H; congruence || discriminate.
  - intros []; simpl; tauto.
Qed.

Lemma resolve_format_known (format : string) (m : DataFormat) :
  lower format = value m -> resolve_format format = Ok m.
Proof.
  destruct DataFormat_facts as (D1 & D2 & D3). intros H. unfold resolve_format.
  apply (enum_call_of_name D1 D2 D3). now rewrite lower_idem.
Qed.

Lemma resolve_format_unknown (format : string) :
  (forall m : DataFormat, lower format <> value m) ->
  resolve_format format = Raise (InvalidEnumValue "DataFormat" (lower format)).
Proof.
  destruct DataFormat_facts as (D1 & D2 & D3). intros H. unfold resolve_format.
  apply (enum_call_unknown D1). intros m. rewrite lower_idem. apply H.
Qed.

Lemma requests_handlers {A} (failure : string) (m : traced A) :
  requests (handlers failure m) = requests m.
Proof.
  destruct m as [t [a|e]]; unfold handlers, ttry, requests, pure; simpl; [reflexivity|].
  destruct (is_ValueError e); simpl; apply app_nil_r.
Qed.

Lemma answer_handlers_Ok {A} (failure : string) (m : traced A) (a : A) :
  answer m = Ok a -> answer (handlers failure m) = Ok a.
Proof.
  destruct m as [t [a'|e]]; unfold handlers, ttry, answer, pure; simpl; [auto|discriminate].
Qed.

Section Readers.

Variable coerce : scalar -> pyval -> option pyval.
Variable client : string -> string -> list pyval -> dict -> result pyval.

Lemma one_request {A} (token method : string) (args : list pyval) (kwargs : dict)
    (k : pyval -> result A) (h : exn -> result A) :
  requests (ttry (results <~~ call_client client token method args kwargs ;;
                  pure (k results))
                 (fun e => pure (h e)))
  = [ClientRequest token method args kwargs].
Proof.
  unfold call_client, ttry, tbind, pure, requests.
  destruct (client token method args kwargs) as [r|e]; cbn [fst snd app];
    [destruct (k r)|]; reflexivity.
Qed.

(** X19: [spotify_get_top_items]: a type other than "artists" and "tracks", or
    a time range that names no member, is rejected with status 400 before
    any request; otherwise one request is made, for the top tracks or the
    top artists, with the canonical name of the time range. *)
Theorem top_items_tool_validation (ctx : option Context) (type time_range : string)
    (limit offset : Z) (token : string) :
  get_access_token ctx = Ok token ->
  let tool := spotify_get_top_items coerce client ctx type time_range limit offset in
  (type <> "artists" -> type <> "tracks" ->
   tool = rejected "Type must be 'artists' or 'tracks'") /\
  (type = "artists" \/ type = "tracks" ->
   ((forall m : TimeRange, lower time_range <> value m) ->
    tool = ([], Raise (HTTPException 400 "Invalid parameter"
                         (Some (InvalidEnumValue "TimeRange" (lower time_range)))))) /\
   (forall m : TimeRange, lower time_range = value m ->
      requests tool =
        [ClientRequest token
           (if String.eqb type "tracks" then "current_user_top_tracks"
            else "current_user_top_artists") []
           [("time_range", PStr (value m)); ("limit", PInt limit);
            ("offset", PInt offset)]])).
Proof.
  intros Htok tool. unfold tool, spotify_get_top_items.
  rewrite (service_of_bearer _ Htok), tbind_Ok.
  destruct TimeRange_facts as (T1 & T2 & T3).
  split.
  - intros Ha Ht. cbn [existsb].
    destruct (String.eqb_spec type "artists"); [contradiction|].
    destruct (String.eqb_spec type "tracks"); [contradiction|]. reflexivity.
  - intros Hty.
    assert (Hok : existsb (String.eqb type) ["artists"; "tracks"] = true).
    { destruct Hty as [->| ->]; reflexivity. }
    rewrite Hok. unfold check. rewrite (@tbind_Ok _ _ tt). split.
    + intros Hno.
      assert (Hcall : @enum_call TimeRange _ (lower time_range)
                      = Raise (InvalidEnumValue "TimeRange" (lower time_range))).
      { apply (enum_call_unknown T1). intros m. rewrite lower_idem. apply Hno. }
      rewrite Hcall. reflexivity.
    + intros m Hm.
      assert (Hcall : @enum_call TimeRange _ (lower time_range) = Ok m).
      { apply (enum_call_of_name T1 T2 T3). now rewrite lower_idem. }
      rewrite Hcall, (@tbind_Ok _ _ m), requests_handlers. unfold get_top_items.
      destruct Hty as [-> | ->]; cbn [String.eqb Ascii.eqb Bool.eqb];
        apply one_request.
Qed.

End Readers.

Section Readers2.

Variable coerce : scalar -> pyval -> option pyval.
Variable client : string -> string -> list pyval -> dict -> result pyval.

(** X20: [spotify_get_artist_info]: more than 50 identifiers, or a format that
    names no member, are rejected with status 400 before any request.
    Otherwise one [artists] request is made; at RAW the upstream answer is
    returned whole, at the other formats the answer has one entry per
    upstream artist, in order, a malformed one being kept as it came. *)
Theorem artist_info_tool (ctx : option Context) (artist_ids : list string)
    (format : string) (token : string) :
  get_access_token ctx = Ok token ->
  let tool := spotify_get_artist_info coerce client ctx artist_ids format in
  (50 < List.length artist_ids ->
   tool = rejected "Maximum 50 artist IDs allowed per request") /\
  (List.length artist_ids <= 50 ->
   ((forall m : DataFormat, lower format <> value m) ->
    tool = ([], Raise (HTTPException 400 "Invalid parameter"
                         (Some (InvalidEnumValue "DataFormat" (lower format)))))) /\
   (forall data_format : DataFormat, lower format = value data_format ->
      requests tool = [ClientRequest token "artists" [of_strs artist_ids] []] /\
      forall results, client token "artists" [of_strs artist_ids] [] = Ok results ->
        (data_format = RAW -> answer tool = Ok results) /\
        (data_format <> RAW ->
         forall l, (raw <- subscript results "artists" ;; iterate raw) = Ok l ->
           answer tool
           = Ok (PList (map (fun artist =>
                               dump_if_model (recovered coerce artist ARTIST data_format))
                            l))))).
Proof.
  intros Htok tool. unfold tool, spotify_get_artist_info.
  rewrite (service_of_bearer _ Htok), tbind_Ok. unfold check. split.
  - intros Hlen. apply Nat.ltb_lt in Hlen. rewrite Hlen. reflexivity.
  - intros Hlen.
    assert (E : (50 <? List.length artist_ids)%nat = false) by (apply Nat.ltb_ge; lia).
    rewrite E. cbn [negb]. rewrite (@tbind_Ok _ _ tt). split.
    + intros Hno. rewrite (@resolve_format_unknown format Hno). reflexivity.
    + intros data_format Hfmt. rewrite (@resolve_format_known format data_format Hfmt).
      rewrite (@tbind_Ok _ _ data_format). unfold get_artists.
      rewrite query_client_spec.
      unfold handlers, ttry, tbind, pure, requests, answer.
      destruct (client token "artists" [of_strs artist_ids] []) as [results|e];
        cbn [fst snd app].
      * destruct (DataFormat_eqb data_format RAW) eqn:Eraw.
        -- split; [reflexivity|]. intros results' [= <-]. split; [reflexivity|].
           intros Hn. destruct data_format; try discriminate. congruence.
        -- match goal with
           | |- context [mapM ?f] =>
               assert (Hm : forall l, mapM f l
                         = Ok (map (fun artist =>
                                      dump_if_model
                                        (recovered coerce artist ARTIST data_format)) l))
           end.
           { intros l. apply mapM_total. intros x. rewrite _parse_object_total.
             reflexivity. }
           destruct (subscript results "artists") as [raw|e] eqn:Es; cbn [bind].
           ++ destruct (iterate raw) as [l|e] eqn:Ei; cbn [bind].
              ** rewrite Hm. cbn [bind fst snd app]. split; [reflexivity|].
                 intros results' [= <-]. split.
                 --- intros ->. discriminate.
                 --- intros _ l' Hl. rewrite Es in Hl. cbn [bind] in Hl.
                     rewrite Ei in Hl. injection Hl as <-. reflexivity.
              ** cbn [fst snd app].
                 split; [destruct (is_ValueError e); reflexivity|].
                 intros results' [= <-]. split.
                 --- intros ->. discriminate.
                 --- intros _ l' Hl. rewrite Es in Hl. cbn [bind] in Hl.
                     rewrite Ei in Hl. discriminate.
           ++ cbn [fst snd app].
              split; [destruct (is_ValueError e); reflexivity|].
              intros results' [= <-]. split.
              ** intros ->. discriminate.
              ** intros _ l' Hl. rewrite Es in Hl. discriminate.
      * split; [destruct (is_ValueError e); reflexivity|]. discriminate.
Qed.

(* ------------------------------------------------------------------ *)
(** ** The entries of a playlist *)




End Readers2.

(* ------------------------------------------------------------------ *)
(** ** The search tool *)

Lemma io_bind_lift {A B} (r : result A) (k : A -> io B) :
  io_bind (lift r) k = match r with Ok a => k a | Raise e => ([], Raise e) end.
Proof. destruct r as [a|e]; unfold io_bind, lift; [destruct (k a)|]; reflexivity. Qed.

Lemma enum_call_raises {E} `{StrEnum E} (s : string) (e : exn) :
  @enum_call E _ s = Raise e -> is_ValueError e = true.
Proof.
  unfold enum_call. destruct (find _ members); [discriminate|].
  destruct (_missing_ s); [discriminate|]. intros [= <-]. reflexivity.
Qed.

Lemma mapM_raise_inv {A B} (f : A -> result B) (l : list A) (e : exn) :
  mapM f l = Raise e -> exists x, In x l /\ f x = Raise e.
Proof.
  induction l as [|a r IH]; simpl; [discriminate|].
  destruct (f a) as [y|e'] eqn:Ea; simpl.
  - destruct (mapM f r) as [ys|e'']; simpl; [discriminate|].
    intros [= <-]. destruct (IH eq_refl) as (x & Hin & Hx). eauto.
  - intros [= <-]. eauto.
Qed.

Lemma mapM_Forall2 {A B} (f : A -> result B) (l : list A) (out : list B) :
  mapM f l = Ok out <-> Forall2 (fun x y => f x = Ok y) l out.
Proof.
  split.
  - revert out. induction l as [|a r IH]; simpl; intros out Hm.
    + injection Hm as <-. constructor.
    + apply bind_Ok_inv in Hm. destruct Hm as (y & Hy & Hm).
      apply bind_Ok_inv in Hm. destruct Hm as (ys & Hys & Hm). injection Hm as <-.
      constructor; auto.
  - induction 1 as [|a y r ys Hy _ IH]; simpl; [reflexivity|].
    rewrite Hy, IH. reflexivity.
Qed.

Section Search_tool_properties.

Variable coerce : scalar -> pyval -> option pyval.
Variable spotify : string -> Spotipy.

Lemma search_music_calls (token : string) (request : SearchRequest) :
  calls (search_music coerce spotify token request)
  = [CallSearch token (query request)
       (String.concat "," (map value (types request)))
       (market request) (limit request) (offset request)].
Proof.
  unfold search_music, io_try, io_bind, upstream, lift, calls.
  destruct (search _ _ _ _ _ _) as [results|e]; cbn [fst snd app]; [|reflexivity].
  match goal with
  | |- fst (match ?r0 with Ok _ => _ | Raise _ => _ end) = _ => destruct r0
  end; reflexivity.
Qed.

Lemma search_music_raises (token : string) (request : SearchRequest) (e : exn) :
  outcome (search_music coerce spotify token request) = Raise e ->
  exists cause, e = Wrapped "Failed to search music" cause.
Proof.
  unfold search_music, io_try, io_bind, upstream, lift, outcome.
  destruct (search _ _ _ _ _ _) as [results|e0]; cbn [fst snd app].
  - match goal with
    | |- snd (match ?r0 with Ok _ => _ | Raise _ => _ end) = _ -> _ => destruct r0
    end; cbn [fst snd app]; [discriminate|]. intros [= <-]. eauto.
  - intros [= <-]. eauto.
Qed.

(** X22: [spotify_search_music]: a format that names no member, an ASCII
    string among the types that names no object type, a limit outside
    1..50 or a negative offset is answered with
    status 400 and the upstream is not called.  Otherwise the upstream is
    called once, for the requested types joined by commas (for tracks when
    no type is given), and whatever fails from there on is answered with
    status 500. *)
Theorem search_tool_validation (ctx : option Context) (query : string)
    (types : option (list string)) (market : string) (limit offset : Z)
    (format : string) (token : string) :
  get_access_token ctx = Ok token ->
  let tool := spotify_search_music coerce spotify ctx query types market limit offset
                format in
  ((forall m : DataFormat, lower format <> value m) \/
   (exists l t, types = Some l /\ In t l /\ ascii_only t = true /\
                forall m : SpotifyObjectType, lower t <> value m) \/
   (limit < 1 \/ 50 < limit \/ offset < 0)%Z ->
   calls tool = [] /\
   exists e, outcome tool = Raise (HTTPException 400 "Invalid parameter" (Some e))) /\
  (forall (data_format : DataFormat) (search_types : list SpotifyObjectType),
     lower format = value data_format ->
     requested_types types search_types ->
     (1 <= limit <= 50)%Z -> (0 <= offset)%Z ->
     calls tool = [CallSearch token query
                     (String.concat "," (map value search_types)) market limit offset] /\
     forall e, outcome tool = Raise e ->
       exists cause,
         e = HTTPException 500 "Failed to search music"
               (Some (Wrapped "Failed to search music" cause))).
Proof.
  intros Htok tool. unfold tool, spotify_search_music.
  rewrite Htok. cbn [bind]. unfold get_spotify_service.
  rewrite io_bind_lift; cbv beta iota.
  destruct SpotifyObjectType_facts as (S1 & S2 & S3).
  remember (match types with
            | Some (t :: ts) =>
                mapM (fun t => @enum_call SpotifyObjectType _ (lower t)) (t :: ts)
            | _ => Ok [TRACK]
            end) as chosen eqn:Hdef.
  split.
  - intros Hbad.
    destruct (resolve_format format) as [data_format|e1] eqn:E1.
    + rewrite io_bind_lift; cbv beta iota.
      destruct chosen as [search_types|e2]; rename Hdef into E2; symmetry in E2.
      * rewrite io_bind_lift; cbv beta iota.
        destruct (SearchRequest_new query search_types market limit offset data_format)
          as [request|e3] eqn:E3.
        -- exfalso. destruct Hbad as [Hf | [(l & t & -> & Hin & _ & Ht) | Hl]].
           ++ destruct DataFormat_facts as (D1 & D2 & D3).
              apply (enum_call_name D1) in E1. rewrite lower_idem in E1.
              exact (Hf _ E1).
           ++ destruct l as [|t0 ts]; [destruct Hin|].
              apply mapM_Forall2 in E2.
              assert (Hall : forall x, In x (t0 :: ts) ->
                        exists m, @enum_call SpotifyObjectType _ (lower x) = Ok m).
              { clear -E2. induction E2 as [|a y r ys Hy _ IH]; intros x [].
                - subst. eauto.
                - auto. }
              destruct (Hall t Hin) as (m & Hm).
              apply (enum_call_name S1) in Hm. rewrite lower_idem in Hm.
              exact (Ht _ Hm).
           ++ unfold SearchRequest_new in E3.
              destruct ((1 <=? limit)%Z && (limit <=? 50)%Z && (0 <=? offset)%Z) eqn:Eb;
                [|discriminate].
              apply andb_true_iff in Eb. destruct Eb as [Eb Eo].
              apply andb_true_iff in Eb. destruct Eb as [E1' E2'].
              apply Z.leb_le in E1', E2', Eo. lia.
        -- unfold SearchRequest_new in E3.
           destruct ((1 <=? limit)%Z && (limit <=? 50)%Z && (0 <=? offset)%Z);
             [discriminate|]. injection E3 as <-.
           rewrite io_bind_lift; cbv beta iota.
           split; [reflexivity | eexists; reflexivity].
      * assert (Hv : is_ValueError e2 = true).
        { destruct types as [[|t ts]|]; try discriminate.
          apply mapM_raise_inv in E2. destruct E2 as (x & _ & Hx).
          exact (enum_call_raises _ Hx). }
        rewrite io_bind_lift; cbv beta iota.
        unfold tool_handlers, io_try, lift, calls, outcome. rewrite Hv.
        split; [reflexivity | eexists; reflexivity].
    + assert (Hv : is_ValueError e1 = true) by exact (enum_call_raises _ E1).
      rewrite io_bind_lift; cbv beta iota.
      unfold tool_handlers, io_try, lift, calls, outcome. rewrite Hv.
      split; [reflexivity | eexists; reflexivity].
  - intros data_format search_types Hfmt Hty Hlim Hoff.
    rewrite (@resolve_format_known format data_format Hfmt), io_bind_lift; cbv beta iota.
    assert (Hchosen : chosen = Ok search_types).
    { rewrite Hdef. unfold requested_types in *.
      destruct types as [[|t ts]|]; try congruence.
      apply mapM_Forall2.
      eapply Forall2_impl; [|exact Hty]. intros s m Hs. cbv beta in *.
      apply (enum_call_of_name S1 S2 S3). now rewrite lower_idem. }
    rewrite Hchosen, io_bind_lift; cbv beta iota.
    assert (Hreq : SearchRequest_new query search_types market limit offset data_format
                   = Ok (Build_SearchRequest query search_types market limit offset
                         data_format)).
    { unfold SearchRequest_new.
      assert (Eb : (1 <=? limit)%Z && (limit <=? 50)%Z && (0 <=? offset)%Z = true).
      { rewrite !andb_true_iff, !Z.leb_le. lia. }
      now rewrite Eb. }
    rewrite Hreq, io_bind_lift; cbv beta iota.
    set (request := Build_SearchRequest _ _ _ _ _ _).
    pose proof (search_music_calls token request) as Hcalls.
    pose proof (@search_music_raises token request) as Hraises.
    destruct (search_music coerce spotify token request) as [t [a|e]];
      unfold tool_handlers, io_try, lift, calls, outcome in *; cbn [fst snd] in *.
    + split; [exact Hcalls | discriminate].
    + destruct (Hraises e eq_refl) as (cause & ->). cbn [is_ValueError fst snd].
      rewrite app_nil_r. split; [exact Hcalls|].
      intros e' [= <-]. eauto.
Qed.

End Search_tool_properties.

(* ------------------------------------------------------------------ *)
(** ** The services and tools at sample inputs *)

Lemma enum_lookup_witness :
  @enum_call RepeatState _ "TRACK" = Ok REPEAT_TRACK /\
  @enum_call SpotifyObjectType _ "Podcast"
    = Raise (InvalidEnumValue "SpotifyObjectType" "Podcast").
Proof.
  split.
  - apply (proj1 (proj2 (@enum_lookup_by_lowercase_value "TRACK" eq_refl)) REPEAT_TRACK).
    reflexivity.
  - apply (proj2 (proj2 (proj2 (proj2 (proj2
             (@enum_lookup_by_lowercase_value "Podcast" eq_refl)))))).
    intros []; discriminate.
Defined.

Lemma get_access_token_witness :
  get_access_token bearer_context = Ok "token-1" /\
  extract_bearer_token (authorization_header bearer_context) = Some "token-1".
Proof.
  apply (proj2 (proj2 (get_access_token_spec bearer_context)) "token-1");
    reflexivity.
Defined.

Lemma validate_token_witness :
  exists response data user_id,
    sample_http_get me_endpoint "token-1" = Ok response /\
    status_code response = 200%Z /\
    json response = Ok (PDict data) /\
    dict_get data "error" = None /\
    dict_get data "id" = Some (PStr user_id) /\
    is_instance "SpotifyTokenInfo" sample_token_info = true /\
    model_field sample_token_info "access_token" = Some (PStr "token-1") /\
    model_field sample_token_info "user_id" = Some (PStr user_id) /\
    model_field sample_token_info "token_type" = Some (PStr "Bearer").
Proof.
  apply (@validate_token_spec strict_scalar sample_http_get me_endpoint "token-1"
           sample_token_info).
  vm_compute. reflexivity.
Defined.

Lemma verify_token_witness :
  token sample_access_token = PStr "token-1" /\
  scopes sample_access_token = ["user-read-private"] /\
  exists info,
    validate_token strict_scalar sample_http_get me_endpoint "token-1" = Some info /\
    model_field info "user_id" = Some (client_id sample_access_token).
Proof.
  apply (proj2 (@verify_token_spec strict_scalar sample_http_get me_endpoint "token-1"
                  ["user-read-private"]) sample_access_token).
  vm_compute. reflexivity.
Defined.

Lemma get_validated_token_witness :
  get_validated_token strict_scalar sample_http_get me_endpoint "token-1"
    = Ok sample_token_info /\
  validate_token strict_scalar sample_http_get me_endpoint "expired" = None.
Proof.
  split.
  - apply (proj1 (@get_validated_token_spec strict_scalar sample_http_get me_endpoint
                    "token-1") sample_token_info).
    vm_compute. reflexivity.
  - apply (proj2 (@get_validated_token_spec strict_scalar sample_http_get me_endpoint
                    "expired")
             (HTTPException 401 "Token validation failed"
                (Some (HTTPException 401 "Invalid or expired token" None)))).
    vm_compute. reflexivity.
Defined.

Lemma get_top_items_witness :
  requests (get_top_items strict_scalar sample_client "token-1" "tracks" SHORT_TERM 20 0)
    = [ClientRequest "token-1" "current_user_top_tracks" []
         [("time_range", PStr "short_term"); ("limit", PInt 20); ("offset", PInt 0)]] /\
  exists results l,
    sample_client "token-1" "current_user_top_tracks" []
      [("time_range", PStr "short_term"); ("limit", PInt 20); ("offset", PInt 0)]
      = Ok results /\
    (raw <- subscript results "items" ;; iterate raw) = Ok l /\
    Paginated.items sample_top_tracks
      = map (fun item => recovered strict_scalar item TRACK COMPACT) l /\
    cursors_of strict_scalar results sample_top_tracks.
Proof.
  destruct (proj2 (@get_top_items_spec strict_scalar sample_client "token-1" "tracks"
                     SHORT_TERM 20 0) (or_introl eq_refl)) as [Hreq Hpage].
  split; [exact Hreq|]. apply Hpage. vm_compute. reflexivity.
Defined.

Lemma get_user_playlists_witness :
  requests (get_user_playlists strict_scalar sample_client "token-1" 20 0 COMPACT)
    = [ClientRequest "token-1" "current_user_playlists" []
         [("limit", PInt 20); ("offset", PInt 0)]] /\
  exists results l,
    sample_client "token-1" "current_user_playlists" []
      [("limit", PInt 20); ("offset", PInt 0)] = Ok results /\
    (raw <- subscript results "items" ;; iterate raw) = Ok l /\
    Paginated.items sample_playlists
      = map (fun item => recovered strict_scalar item PLAYLIST COMPACT) l /\
    List.length (Paginated.items sample_playlists) = List.length l /\
    cursors_of strict_scalar results sample_playlists.
Proof.
  destruct (@get_user_playlists_spec strict_scalar sample_client "token-1" 20 0 COMPACT)
    as (Hreq & _ & Hpage).
  split; [exact Hreq|]. apply Hpage. vm_compute. reflexivity.
Defined.

Lemma get_saved_tracks_witness :
  exists e,
    answer (get_saved_tracks strict_scalar sample_client "token-1" 20 0 "US" COMPACT)
      = Raise (Wrapped "Failed to get saved tracks" e).
Proof.
  apply (proj2 (@get_saved_tracks_spec strict_scalar sample_client "token-1" 20 0 "US"
                  COMPACT (sample_page sample_saved) sample_saved eq_refl eq_refl)
           (PDict [("added_at", PStr "2024-05-02T10:00:00Z")])).
  - simpl. tauto.
  - intros track H. discriminate H.
Defined.

Lemma get_current_playback_witness :
  requests (get_current_playback strict_scalar sample_client "token-1")
    = [ClientRequest "token-1" "current_playback" [] []] /\
  truthy sample_playback = true /\
  is_instance "PlaybackState" sample_playback_state = true /\
  exists it, model_field sample_playback_state "item" = Some it /\
             playback_item strict_scalar sample_playback it.
Proof.
  destruct (@get_current_playback_spec strict_scalar sample_client "token-1"
              sample_playback eq_refl) as (Hreq & _ & Hstate & _).
  split; [exact Hreq|]. apply Hstate. vm_compute. reflexivity.
Defined.

Lemma create_playlist_witness :
  requests (create_playlist strict_scalar sample_client "token-1" sample_playlist_request)
    = [ClientRequest "token-1" "current_user" [] [];
       ClientRequest "token-1" "user_playlist_create" []
         [("user", PStr "user-1"); ("name", PStr "Mix"); ("public", PBool false);
          ("collaborative", PBool false); ("description", PStr "")]] /\
  answer (create_playlist strict_scalar sample_client "token-1" sample_playlist_request)
    = Ok (recovered strict_scalar sample_playlist PLAYLIST FULL).
Proof.
  destruct (proj1 (@create_playlist_spec strict_scalar sample_client "token-1"
                     sample_playlist_request (PDict [("id", PStr "user-1")]) eq_refl)
              (PStr "user-1") eq_refl) as [Hreq Hans].
  split; [exact Hreq|]. apply Hans. reflexivity.
Defined.

Lemma set_volume_witness :
  spotify_set_volume sample_client bearer_context 101 None
    = rejected "Volume must be between 0 and 100" /\
  requests (spotify_set_volume sample_client bearer_context 40 None)
    = [ClientRequest "token-1" "volume" [PInt 40] [("device_id", PNone)]].
Proof.
  split.
  - apply (proj1 (@set_volume_bounds sample_client bearer_context 101 None "token-1"
                    eq_refl)).
    lia.
  - apply (proj2 (@set_volume_bounds sample_client bearer_context 40 None "token-1"
                    eq_refl)).
    lia.
Defined.

Lemma seek_position_witness :
  spotify_seek_to_position sample_client bearer_context (-1) None
    = rejected "Position must be non-negative" /\
  requests (spotify_seek_to_position sample_client bearer_context 0 None)
    = [ClientRequest "token-1" "seek_track" [PInt 0] [("device_id", PNone)]].
Proof.
  split.
  - apply (proj1 (@seek_position_bounds sample_client bearer_context (-1) None "token-1"
                    eq_refl)).
    lia.
  - apply (proj2 (@seek_position_bounds sample_client bearer_context 0 None "token-1"
                    eq_refl)).
    lia.
Defined.

Lemma set_repeat_mode_witness :
  requests (spotify_set_repeat_mode sample_client bearer_context "Track" None)
    = [ClientRequest "token-1" "repeat" [PStr "track"] [("device_id", PNone)]] /\
  spotify_set_repeat_mode sample_client bearer_context "shuffle" None
    = ([], Raise (HTTPException 400 "Invalid parameter"
                    (Some (InvalidEnumValue "RepeatState" "shuffle")))).
Proof.
  split.
  - apply (proj1 (@set_repeat_mode_resolution sample_client bearer_context "Track" None
                    "token-1" eq_refl) REPEAT_TRACK).
    reflexivity.
  - apply (proj2 (@set_repeat_mode_resolution sample_client bearer_context "shuffle" None
                    "token-1" eq_refl)).
    + reflexivity.
    + intros []; discriminate.
Defined.

Lemma transfer_playback_witness :
  spotify_transfer_playback sample_client bearer_context [] true
    = rejected "At least one device ID must be provided" /\
  requests (spotify_transfer_playback sample_client bearer_context ["d1"] true)
    = [ClientRequest "token-1" "transfer_playback" []
         [("device_id", PStr "d1"); ("force_play", PBool true)]] /\
  requests (spotify_transfer_playback sample_client bearer_context ["d1"; "d2"] true)
    = [ClientRequest "token-1" "transfer_playback" []
         [("device_ids", PList [PStr "d1"; PStr "d2"]); ("force_play", PBool true)]].
Proof.
  split; [|split].
  - apply (proj1 (@transfer_playback_devices sample_client bearer_context [] true
                    "token-1" eq_refl)).
    reflexivity.
  - apply (proj1 (proj2 (@transfer_playback_devices sample_client bearer_context ["d1"]
                           true "token-1" eq_refl)) "d1").
    reflexivity.
  - apply (proj2 (proj2 (@transfer_playback_devices sample_client bearer_context
                           ["d1"; "d2"] true "token-1" eq_refl))).
    simpl. lia.
Defined.

Lemma add_tracks_witness :
  spotify_add_tracks_to_playlist sample_client bearer_context "p1"
    (repeat "spotify:track:t1" 101) None
    = rejected "Maximum 100 track URIs allowed per request" /\
  requests (spotify_add_tracks_to_playlist sample_client bearer_context "p1"
              ["spotify:track:t1"] None)
    = [ClientRequest "token-1" "playlist_add_items" []
         [("playlist_id", PStr "p1"); ("items", PList [PStr "spotify:track:t1"]);
          ("position", PNone)]].
Proof.
  split.
  - apply (proj1 (@add_tracks_limit sample_client bearer_context "p1"
                    (repeat "spotify:track:t1" 101) None "token-1" eq_refl)).
    rewrite repeat_length. lia.
  - apply (proj2 (@add_tracks_limit sample_client bearer_context "p1"
                    ["spotify:track:t1"] None "token-1" eq_refl)).
    simpl. lia.
Defined.

Lemma start_playback_witness :
  exists sent,
    requests (spotify_start_playback sample_client bearer_context None None None
                (Some 0%Z) (Some "spotify:track:t1") (Some 0%Z))
      = [ClientRequest "token-1" "start_playback" [] sent] /\
    (forall k, dict_get sent k
               = dict_get (start_playback_kwargs None None None (Some 0%Z)
                             (Some "spotify:track:t1") (Some 0%Z)) k) /\
    dict_get sent "position_ms" = None /\
    dict_get sent "offset" = Some (PDict [("position", PInt 0)]) /\
    (forall r, sample_client "token-1" "start_playback" [] sent = Ok r ->
       answer (spotify_start_playback sample_client bearer_context None None None
                 (Some 0%Z) (Some "spotify:track:t1") (Some 0%Z))
       = Ok (PDict [("success", PBool true);
                    ("message", PStr "Playback started successfully");
                    ("parameters",
                     PDict (start_playback_kwargs None None None (Some 0%Z)
                              (Some "spotify:track:t1") (Some 0%Z)))])).
Proof.
  exact (@start_playback_forwards_given_arguments sample_client bearer_context None None
           None (Some 0%Z) (Some "spotify:track:t1") (Some 0%Z) "token-1" eq_refl).
Defined.

Lemma update_playlist_details_witness :
  spotify_update_playlist_details sample_client bearer_context "p1" None None None None
    = rejected "At least one field must be provided for update" /\
  exists sent,
    requests (spotify_update_playlist_details sample_client bearer_context "p1" None
                (Some "") (Some false) None)
      = [ClientRequest "token-1" "playlist_change_details" [PStr "p1"] sent] /\
    dict_get sent "name" = None /\
    dict_get sent "description" = Some (PStr "") /\
    dict_get sent "public" = Some (PBool false) /\
    dict_get sent "collaborative" = None.
Proof.
  split.
  - apply (proj1 (@update_playlist_details_sends_given_fields sample_client
                    bearer_context "p1" None None None None "token-1" eq_refl));
      reflexivity.
  - destruct (proj2 (@update_playlist_details_sends_given_fields sample_client
                       bearer_context "p1" None (Some "") (Some false) None "token-1"
                       eq_refl))
      as (sent & Hreq & Hn & Hd & Hp & Hc & _).
    + discriminate.
    + exists sent. repeat split; assumption.
Defined.

Lemma top_items_tool_witness :
  spotify_get_top_items strict_scalar sample_client bearer_context "albums" "long_term"
    20 0
    = rejected "Type must be 'artists' or 'tracks'" /\
  spotify_get_top_items strict_scalar sample_client bearer_context "tracks" "forever"
    20 0
    = ([], Raise (HTTPException 400 "Invalid parameter"
                    (Some (InvalidEnumValue "TimeRange" "forever")))) /\
  requests (spotify_get_top_items strict_scalar sample_client bearer_context "tracks"
              "LONG_TERM" 20 0)
    = [ClientRequest "token-1" "current_user_top_tracks" []
         [("time_range", PStr "long_term"); ("limit", PInt 20); ("offset", PInt 0)]].
Proof.
  split; [|split].
  - apply (proj1 (@top_items_tool_validation strict_scalar sample_client bearer_context
                    "albums" "long_term" 20 0 "token-1" eq_refl));
      discriminate.
  - apply (proj1 (proj2 (@top_items_tool_validation strict_scalar sample_client
                           bearer_context "tracks" "forever" 20 0 "token-1" eq_refl)
                    (or_intror eq_refl))).
    intros []; discriminate.
  - apply (proj2 (proj2 (@top_items_tool_validation strict_scalar sample_client
                           bearer_context "tracks" "LONG_TERM" 20 0 "token-1" eq_refl)
                    (or_intror eq_refl)) LONG_TERM).
    reflexivity.
Defined.

Lemma artist_info_witness :
  spotify_get_artist_info strict_scalar sample_client bearer_context (repeat "a9" 51)
    "full"
    = rejected "Maximum 50 artist IDs allowed per request" /\
  requests (spotify_get_artist_info strict_scalar sample_client bearer_context
              ["a9"; "a0"] "Full")
    = [ClientRequest "token-1" "artists" [PList [PStr "a9"; PStr "a0"]] []] /\
  answer (spotify_get_artist_info strict_scalar sample_client bearer_context
            ["a9"; "a0"] "Full")
    = Ok (PList (map (fun artist =>
                        dump_if_model (recovered strict_scalar artist ARTIST FULL))
                     [PDict artist_with_genres; PDict track_without_id])).
Proof.
  split.
  - apply (proj1 (@artist_info_tool strict_scalar sample_client bearer_context
                    (repeat "a9" 51) "full" "token-1" eq_refl)).
    rewrite repeat_length. lia.
  - assert (Hlen : List.length ["a9"; "a0"] <= 50) by (simpl; lia).
    destruct (proj2 (proj2 (@artist_info_tool strict_scalar sample_client bearer_context
                              ["a9"; "a0"] "Full" "token-1" eq_refl) Hlen)
                FULL eq_refl) as [Hreq Hans].
    split; [exact Hreq|].
    apply (proj2 (Hans _ eq_refl)); [discriminate | reflexivity].
Defined.


Lemma search_tool_witness :
  (calls (spotify_search_music strict_scalar sample_spotify bearer_context "test" None
            "US" 0 0 "compact") = [] /\
   exists e,
     outcome (spotify_search_music strict_scalar sample_spotify bearer_context "test"
                None "US" 0 0 "compact")
     = Raise (HTTPException 400 "Invalid parameter" (Some e))) /\
  calls (spotify_search_music strict_scalar sample_spotify bearer_context "test" None
           "US" 20 0 "Compact")
    = [CallSearch "token-1" "test" "track" "US" 20 0].
Proof.
  split.
  - apply (proj1 (@search_tool_validation strict_scalar sample_spotify bearer_context
                    "test" None "US" 0 0 "compact" "token-1" eq_refl)).
    right. right. lia.
  - apply (proj2 (@search_tool_validation strict_scalar sample_spotify bearer_context
                    "test" None "US" 20 0 "Compact" "token-1" eq_refl)
             COMPACT [TRACK]); try reflexivity; lia.
Defined.
